(** * AIChatBot backend: chat store, model router, session memory and
      realtime coordinator

    A shallow embedding of the TypeScript services

      - [models/Chat.ts]                    (module [ChatModel])
      - [services/chatService.ts]           (module [ChatService])
      - [services/sessionMemoryService.ts]  (module [SessionMemoryService])
      - [services/aiService.ts]             (module [AIService])
      - [services/socketService.ts]         (module [SocketService])
      - [utils/jwt.ts]                      (module [Jwt])
      - [services/authService.ts]           (module [AuthService]:
                                             [validateUserSession])

    together with the properties of the specification that concern them,
    and with further properties of the code.

    Modelling conventions.

    - A JavaScript string is a [string]: one [ascii] per code unit, so the
      model covers the code units 0..255.  [length] is the JavaScript
      [.length].
    - A [Date] is the integer number of milliseconds since the epoch.
    - An [async] function is a computation in the monad [M]: it reads the
      environment (the wall clock, the ObjectId generator, the database
      driver's faults, the OpenAI endpoint), threads the store (the [chats]
      collection, the Socket.IO room table and the positions reached in the
      environment's streams), returns a value or throws, and emits the
      list of its interactions with the outside: database queries, API
      requests, Socket.IO emissions and console lines.  Handlers are run one
      after the other, which is how an event handler that does not interleave
      with another one runs on the event loop.
    - The [createdAt]/[updatedAt] stamps of [timestamps: true], the
      [populate] of the owner and the JSON transform are not modelled.
    - An identifier ([_id], [userId]) is a string that stands for a valid
      ObjectId; the cast error of a malformed identifier is not modelled.
    - [jwt.verify] and the [users] collection are parameters of the
      functions that use them; the registry [activeSessions] of the socket
      service is passed to the handlers and returned by them.
    - Of [chatService.ts], [getUserChats] and [searchChats] are not
      modelled, and [getChatStats] is modelled from the array that its
      query resolved to; of [socketService.ts], the [history] and [typing]
      handlers are not modelled; of [sessionMemoryService.ts],
      [getConversationSummary] is not modelled. *)

From Stdlib Require Import ZArith String Ascii List Lia Bool Sorted.
From stdpp Require Import base option list strings gmap pretty.

Local Open Scope Z_scope.

(** ** JavaScript values used by the services *)

Module Js.

(** What a [throw] carries.  [Error], [TypeError] and Mongoose's
    [ValidationError] are all [instanceof Error]; [Thrown] is any other
    thrown value. *)
Inductive Path : Type :=
| PUserId
| PTitle
| PTopics
| PMessages
| PMessageText (i : nat)
| PMessageAiModel (i : nat).

Inductive exn : Type :=
| Error (message : string)
| TypeError (message : string)
| ValidationError (failures : list (Path * string))
| Thrown (value : string).

Definition path_name (p : Path) : string :=
  match p with
  | PUserId => "userId"
  | PTitle => "title"
  | PTopics => "topics"
  | PMessages => "messages"
  | PMessageText i => "messages." +:+ pretty i +:+ ".text"
  | PMessageAiModel i => "messages." +:+ pretty i +:+ ".aiModel"
  end.

(** [Array.prototype.join] on an array of strings. *)
Fixpoint join (sep : string) (l : list string) : string :=
  match l with
  | [] => ""
  | [x] => x
  | x :: rest => x +:+ sep +:+ join sep rest
  end.

Definition instanceof_Error (e : exn) : bool :=
  match e with
  | Thrown _ => false
  | _ => true
  end.

(** [error.message] *)
Definition message_of (e : exn) : string :=
  match e with
  | Error m => m
  | TypeError m => m
  | ValidationError fs =>
      "Chat validation failed: " +:+
      join ", " (map (fun f => path_name (fst f) +:+ ": " +:+ snd f) fs)
  | Thrown v => v
  end.

(** [error instanceof Error ? error.message : String(error)] *)
Definition describe (e : exn) : string := message_of e.

(** White space and line terminators among the code units 0..255:
    TAB, LF, VT, FF, CR, SPACE and NBSP. *)
Definition is_space (c : ascii) : bool :=
  let n := nat_of_ascii c in
  ((9 <=? n)%nat && (n <=? 13)%nat) || (n =? 32)%nat || (n =? 160)%nat.

Fixpoint trimStart (s : string) : string :=
  match s with
  | EmptyString => EmptyString
  | String c rest => if is_space c then trimStart rest else s
  end.

(** [trimEnd s]: drops the trailing run of white space. *)
Fixpoint trimEnd (s : string) : string :=
  match s with
  | EmptyString => EmptyString
  | String c rest =>
      match trimEnd rest with
      | EmptyString => if is_space c then EmptyString else String c EmptyString
      | r => String c r
      end
  end.

(** [String.prototype.trim] *)
Definition trim (s : string) : string := trimEnd (trimStart s).

(** [s.substring(0, n)] *)
Definition prefix (n : nat) (s : string) : string := String.substring 0 n s.

(** Truthiness of a string: everything but [""]. *)
Definition truthy (s : string) : bool :=
  match s with
  | EmptyString => false
  | _ => true
  end.

(** [a || b] on strings that may be [undefined]. *)
Definition or_else (a : option string) (b : string) : string :=
  match a with
  | Some s => if truthy s then s else b
  | None => b
  end.

(** [x !== undefined] *)
Definition defined {A : Type} (o : option A) : bool :=
  match o with
  | Some _ => true
  | None => false
  end.

(** [arr.slice(-n)] *)
Definition slice_last {A : Type} (n : nat) (l : list A) : list A :=
  drop (length l - n)%nat l.

(** [arr.slice(start)] for an integer [start]: a negative [start] counts
    from the end, and [-0] is [0]. *)
Definition slice_from {A : Type} (start : Z) (l : list A) : list A :=
  let len := Z.of_nat (length l) in
  let k := if start <? 0 then Z.max (len + start) 0 else Z.min start len in
  drop (Z.to_nat k) l.

(** [arr.sort((a, b) => key(a) - key(b))].  The sort of an array is stable:
    elements with equal keys keep their order. *)
Fixpoint insert_by {A : Type} (key : A -> Z) (x : A) (l : list A) : list A :=
  match l with
  | [] => [x]
  | y :: rest =>
      if key x <=? key y then x :: y :: rest else y :: insert_by key x rest
  end.

Definition sort_by {A : Type} (key : A -> Z) (l : list A) : list A :=
  foldr (insert_by key) [] l.

(** The rest of [s] after [p], when [s] starts with [p]. *)
Fixpoint after_prefix (p s : string) : option string :=
  match p, s with
  | EmptyString, _ => Some s
  | String a p', String b s' =>
      if bool_decide (a = b) then after_prefix p' s' else None
  | String _ _, EmptyString => None
  end.

(** [s.replace(pattern, '')] for a string pattern: the first occurrence
    goes. *)
Fixpoint remove_first (pattern s : string) : string :=
  match after_prefix pattern s with
  | Some rest => rest
  | None =>
      match s with
      | EmptyString => EmptyString
      | String c s' => String c (remove_first pattern s')
      end
  end.

End Js.

(** ** [types/index.ts] *)

Inductive ChatTopic : Type := HEALTH | EDUCATION.

Inductive AIModel : Type := GPT4 | CLAUDE3 | MISTRAL | COMPOSIO.

Inductive Sender : Type := user | ai.

Definition ChatTopic_value (t : ChatTopic) : string :=
  match t with
  | HEALTH => "health"
  | EDUCATION => "education"
  end.

(** [Object.values(ChatTopic).includes(topic)], with the member found. *)
Definition ChatTopic_of_value (topic : string) : option ChatTopic :=
  if bool_decide (topic = "health") then Some HEALTH
  else if bool_decide (topic = "education") then Some EDUCATION
  else None.

Definition ChatTopic_eqb (a b : ChatTopic) : bool :=
  match a, b with
  | HEALTH, HEALTH | EDUCATION, EDUCATION => true
  | _, _ => false
  end.

Definition AIModel_value (m : AIModel) : string :=
  match m with
  | GPT4 => "gpt-4"
  | CLAUDE3 => "claude-3"
  | MISTRAL => "mistral"
  | COMPOSIO => "composio"
  end.

Definition Sender_value (s : Sender) : string :=
  match s with
  | user => "user"
  | ai => "ai"
  end.

(** [Omit<IChatMessage, 'timestamp' | 'messageId'>] *)
Module Draft.
Record t : Type := make {
  text : string;
  sender : Sender;
  aiModel : option string;
}.
End Draft.

Module IChatMessage.
Record t : Type := make {
  text : string;
  sender : Sender;
  timestamp : Z;
  aiModel : option string;
  messageId : option string;
}.
End IChatMessage.

Module AIResponse.
Record t : Type := make {
  text : string;
  model : AIModel;
  success : bool;
  error : option string;
  tokensUsed : option Z;
  responseTime : option Z;
}.
End AIResponse.

(** The fields of a document of the [chats] collection, as [ChatSchema]
    declares them. *)
Module IChat.
Record t : Type := make {
  userId : string;
  title : string;
  topics : list ChatTopic;
  messages : list IChatMessage.t;
  isActive : bool;
  lastMessageAt : Z;
}.
End IChat.

(** ** Events, effects and the monad of the asynchronous services *)

(** Socket.IO events sent by the server, with their payloads. *)
Inductive Event : Type :=
| EvError (message code : string) (chatId : option string)
| EvJoinedChat (chatId message : string)
| EvLeftChat (chatId message : string)
| EvMessage (message : IChatMessage.t) (chatId : string)
| EvAiThinking (chatId message : string).

Inductive Effect : Type :=
| Emit (socketId : string) (ev : Event)
    (** [socket.emit(...)]: to the origin connection only *)
| Broadcast (room : string) (ev : Event)
    (** [io.to(room).emit(...)]: to every connection of the room *)
| DbFindOne (chatId userId : string)
    (** [Chat.findOne({ _id, userId, isActive: true })] *)
| DbFindById (chatId : string)
    (** [Chat.findById(chatId)] *)
| DbSave (chatId : string)
    (** the write of [doc.save()] *)
| ApiRequest (model systemPrompt userPrompt : string)
    (** [openai.chat.completions.create(...)] *)
| Console (line : string).
    (** [console.log], [console.error], [logger.info], [logger.error] *)

(** What [openai.chat.completions.create] does: it resolves to a completion
    ([choices[0]?.message?.content] and [usage?.total_tokens], either of which
    may be missing) or rejects. *)
Inductive Completion : Type :=
| Resolved (content : option string) (total_tokens : option Z)
| Rejected (e : Js.exn).

Record Env : Type := {
  clock : nat -> Z;
    (** the successive readings of [Date.now()] / [new Date()] *)
  objectId : nat -> string;
    (** the successive values of [new ObjectId().toString()] *)
  db_fault : nat -> option Js.exn;
    (** whether the n-th database operation rejects, and with what *)
  openai : nat -> string -> string -> Completion;
    (** the answer to the n-th request, from its system and user prompts *)
}.

Record Store : Type := {
  chats : gmap string IChat.t;
  rooms : gset (string * string);
    (** the pairs (socket id, room) of the Socket.IO adapter *)
  reads : nat;
  ids : nat;
  ops : nat;
  calls : nat;
}.

Inductive result (A : Type) : Type :=
| Ok (a : A)
| Throw (e : Js.exn).
Arguments Ok {A} a.
Arguments Throw {A} e.

Record Run (A : Type) : Type := {
  value : result A;
  final : Store;
  emitted : list Effect;
}.
Arguments value {A} r.
Arguments final {A} r.
Arguments emitted {A} r.
Arguments Build_Run {A} value final emitted.

Definition M (A : Type) : Type := Env -> Store -> Run A.

Definition ret {A : Type} (a : A) : M A :=
  fun _ st => Build_Run (Ok a) st [].

Definition throw {A : Type} (e : Js.exn) : M A :=
  fun _ st => Build_Run (Throw e) st [].

Definition bind {A B : Type} (m : M A) (k : A -> M B) : M B :=
  fun env st =>
    let r := m env st in
    match value r with
    | Ok a =>
        let r' := k a env (final r) in
        Build_Run (value r') (final r') (emitted r ++ emitted r')
    | Throw e => Build_Run (Throw e) (final r) (emitted r)
    end.

(** [try { m } catch (error) { h error }] *)
Definition try_catch {A : Type} (m : M A) (h : Js.exn -> M A) : M A :=
  fun env st =>
    let r := m env st in
    match value r with
    | Ok a => r
    | Throw e =>
        let r' := h e env (final r) in
        Build_Run (value r') (final r') (emitted r ++ emitted r')
    end.

Declare Scope js_scope.
Delimit Scope js_scope with js.
Notation "'let*' x ':=' m 'in' k" := (bind m (fun x => k))
  (at level 10, x name, m at level 100, k at level 200,
   format "'[v' 'let*'  x  ':='  m  'in' '/' k ']'") : js_scope.
Notation "'await' m 'then' k" := (bind m (fun _ => k))
  (at level 10, m at level 100, k at level 200,
   format "'[v' 'await'  m  'then' '/' k ']'") : js_scope.
Local Open Scope js_scope.

Definition effect (e : Effect) : M unit :=
  fun _ st => Build_Run (Ok tt) st [e].

Definition console (line : string) : M unit := effect (Console line).

(** The store after one more reading of the clock, one more ObjectId, one
    more database operation, one more API request. *)
Definition after_now (st : Store) : Store :=
  {| chats := chats st; rooms := rooms st; reads := S (reads st);
     ids := ids st; ops := ops st; calls := calls st |}.

Definition after_id (st : Store) : Store :=
  {| chats := chats st; rooms := rooms st; reads := reads st;
     ids := S (ids st); ops := ops st; calls := calls st |}.

Definition after_db_op (st : Store) : Store :=
  {| chats := chats st; rooms := rooms st; reads := reads st;
     ids := ids st; ops := S (ops st); calls := calls st |}.

Definition after_request (st : Store) : Store :=
  {| chats := chats st; rooms := rooms st; reads := reads st;
     ids := ids st; ops := ops st; calls := S (calls st) |}.

(** [new Date()], [Date.now()] *)
Definition now : M Z :=
  fun env st => Build_Run (Ok (clock env (reads st))) (after_now st) [].

(** [new mongoose.Types.ObjectId().toString()] *)
Definition new_ObjectId : M string :=
  fun env st => Build_Run (Ok (objectId env (ids st))) (after_id st) [].

(** One round trip to the database: it is recorded, and it rejects when the
    driver does. *)
Definition db_op (q : Effect) : M unit :=
  fun env st =>
    match db_fault env (ops st) with
    | Some e => Build_Run (Throw e) (after_db_op st) [q]
    | None => Build_Run (Ok tt) (after_db_op st) [q]
    end.

Definition read_chats : M (gmap string IChat.t) :=
  fun _ st => Build_Run (Ok (chats st)) st [].

Definition write_chat (id : string) (d : IChat.t) : M unit :=
  fun _ st =>
    Build_Run (Ok tt)
      {| chats := <[id := d]> (chats st); rooms := rooms st; reads := reads st;
         ids := ids st; ops := ops st; calls := calls st |} [].

Definition read_rooms : M (gset (string * string)) :=
  fun _ st => Build_Run (Ok (rooms st)) st [].

Definition write_rooms (r : gset (string * string)) : M unit :=
  fun _ st =>
    Build_Run (Ok tt)
      {| chats := chats st; rooms := r; reads := reads st;
         ids := ids st; ops := ops st; calls := calls st |} [].

(** [await openai.chat.completions.create({ model, messages: [system, user] })] *)
Definition openai_create (model systemPrompt userPrompt : string)
  : M (option string * option Z) :=
  fun env st =>
    let q := ApiRequest model systemPrompt userPrompt in
    match openai env (calls st) systemPrompt userPrompt with
    | Resolved content tokens =>
        Build_Run (Ok (content, tokens)) (after_request st) [q]
    | Rejected e => Build_Run (Throw e) (after_request st) [q]
    end.

(** ** [models/Chat.ts] *)

(** Modelled from the spec: [IUserInfo] is imported by
    [sessionMemoryService.ts] from [types/index.ts], which does not declare
    it.  Its shape is the one the specification gives [userInfo] and the one
    the service reads: a name, interests, goals, and key/value preferences
    (a [Map], kept in insertion order). *)
Module IUserInfo.
Record t : Type := make {
  name : option string;
  interests : option (list string);
  goals : option (list string);
  preferences : option (list (string * string));
}.
End IUserInfo.

(** A hydrated Mongoose document: its [_id], the schema's paths, and the two
    properties that [sessionMemoryService.ts] reads from it.  They are no
    paths of [ChatSchema]: on a document they are plain object properties,
    [undefined] unless assigned on that very object, and never written by
    [save]. *)
Module Document.
Record t : Type := make {
  _id : string;
  fields : IChat.t;
  userInfo : option IUserInfo.t;
  sessionContext : option (list (string * string));
}.
End Document.

Module ChatModel.

(** The keys of the schema definition object, and the names assigned on
    [ChatSchema.methods], [ChatSchema.statics] and [ChatSchema.virtual]. *)
Definition ChatSchema_paths : list string :=
  ["userId"; "title"; "topics"; "messages"; "isActive"; "lastMessageAt"].

Definition ChatSchema_methods : list string :=
  ["addMessage"; "getMessageHistory"; "deactivate"].

Definition ChatSchema_statics : list string :=
  ["findUserChats"; "findChatWithMessages"; "createNewChat"].

Definition ChatSchema_virtuals : list string :=
  ["messageCount"; "lastMessage"].

(** Reading a document from the collection: only the schema's paths. *)
Definition hydrate (id : string) (d : IChat.t) : Document.t :=
  Document.make id d None None.

Definition aiModel_enum : list string :=
  ["gpt-4"; "claude-3"; "mistral"; "composio"].

(** The validators of [ChatMessageSchema] on the i-th message. *)
Definition validate_message (i : nat) (m : IChatMessage.t)
  : list (Js.Path * string) :=
  (if negb (Js.truthy (IChatMessage.text m))
   then [(Js.PMessageText i, "Path `text` is required.")]
   else if (5000 <? String.length (IChatMessage.text m))%nat
   then [(Js.PMessageText i, "Message cannot exceed 5000 characters")]
   else [])
  ++
  (match IChatMessage.aiModel m with
   | None =>
       match IChatMessage.sender m with
       | ai => [(Js.PMessageAiModel i, "Path `aiModel` is required.")]
       | user => []
       end
   | Some v =>
       if bool_decide (v ∈ aiModel_enum) then []
       else [(Js.PMessageAiModel i,
              "`" +:+ v +:+ "` is not a valid enum value for path `aiModel`.")]
   end).

Fixpoint validate_messages (i : nat) (ms : list IChatMessage.t)
  : list (Js.Path * string) :=
  match ms with
  | [] => []
  | m :: rest => validate_message i m ++ validate_messages (S i) rest
  end.

(** The validators of [ChatSchema]. *)
Definition validate (d : IChat.t) : list (Js.Path * string) :=
  (if Js.truthy (IChat.userId d) then []
   else [(Js.PUserId, "Path `userId` is required.")])
  ++
  (if (100 <? String.length (IChat.title d))%nat
   then [(Js.PTitle, "Chat title cannot exceed 100 characters")]
   else [])
  ++
  (if (0 <? length (IChat.topics d))%nat && (length (IChat.topics d) <=? 2)%nat
   then []
   else [(Js.PTopics, "Chat must have at least 1 and at most 2 topics")])
  ++
  (if (length (IChat.messages d) <=? 1000)%nat
   then []
   else [(Js.PMessages, "Chat cannot have more than 1000 messages")])
  ++
  validate_messages 0 (IChat.messages d).

(** [ChatSchema.pre('save', ...)]: [lastMessageAt] follows the last
    message. *)
Definition pre_save (d : IChat.t) : IChat.t :=
  match last (IChat.messages d) with
  | Some lastMessage =>
      IChat.make (IChat.userId d) (IChat.title d) (IChat.topics d)
        (IChat.messages d) (IChat.isActive d)
        (IChatMessage.timestamp lastMessage)
  | None => d
  end.

(** [doc.save()]: Mongoose's validation hook, then the schema's pre-save
    hook, then the write.  A validation failure rejects before anything is
    sent to the database. *)
Definition save (doc : Document.t) : M Document.t :=
  match validate (Document.fields doc) with
  | [] =>
      let d := pre_save (Document.fields doc) in
      await db_op (DbSave (Document._id doc)) then
      await write_chat (Document._id doc) d then
      ret (Document.make (Document._id doc) d
             (Document.userInfo doc) (Document.sessionContext doc))
  | failures => throw (Js.ValidationError failures)
  end.

(** [this.messages.push(newMessage); this.lastMessageAt =
    newMessage.timestamp].  The pushed object is cast to a
    [ChatMessageSchema] subdocument, whose [trim] setter applies to
    [text]. *)
Definition push (d : IChat.t) (message : Draft.t) (t : Z) (id : string)
  : IChat.t :=
  let newMessage :=
    IChatMessage.make (Js.trim (Draft.text message)) (Draft.sender message)
      t (Draft.aiModel message) (Some id) in
  IChat.make (IChat.userId d) (IChat.title d) (IChat.topics d)
    (IChat.messages d ++ [newMessage]) (IChat.isActive d) t.

(** [ChatSchema.methods.addMessage] *)
Definition addMessage (doc : Document.t) (message : Draft.t) : M Document.t :=
  let* t := now in
  let* id := new_ObjectId in
  save (Document.make (Document._id doc)
          (push (Document.fields doc) message t id)
          (Document.userInfo doc) (Document.sessionContext doc)).

(** [ChatSchema.methods.deactivate] *)
Definition deactivate (doc : Document.t) : M Document.t :=
  let d := Document.fields doc in
  let d' :=
    IChat.make (IChat.userId d) (IChat.title d) (IChat.topics d)
      (IChat.messages d) false (IChat.lastMessageAt d) in
  save (Document.make (Document._id doc) d'
          (Document.userInfo doc) (Document.sessionContext doc)).

(** [Chat.findOne({ _id: chatId, userId, isActive: true })] *)
Definition findOne (chatId userId : string) : M (option Document.t) :=
  await db_op (DbFindOne chatId userId) then
  let* coll := read_chats in
  match coll !! chatId with
  | Some d =>
      if bool_decide (IChat.userId d = userId) && IChat.isActive d
      then ret (Some (hydrate chatId d))
      else ret None
  | None => ret None
  end.

(** [Chat.findById(chatId)] *)
Definition findById (chatId : string) : M (option Document.t) :=
  await db_op (DbFindById chatId) then
  let* coll := read_chats in
  ret (hydrate chatId <$> coll !! chatId).

(** [ChatSchema.statics.findChatWithMessages] *)
Definition findChatWithMessages (chatId userId : string)
  : M (option Document.t) :=
  findOne chatId userId.

(** [ChatSchema.statics.createNewChat]; the new document gets a fresh
    [_id], no message, and the defaults of the schema. *)
Definition createNewChat (userId : string) (topics : list ChatTopic)
  (title : option string) : M Document.t :=
  let* id := new_ObjectId in
  let* t := now in
  let title' :=
    Js.or_else title (Js.join " & " (map ChatTopic_value topics) +:+ " Chat") in
  save (hydrate id (IChat.make userId (Js.trim title') topics [] true t)).

(** [ChatSchema.methods.getMessageHistory]; [limit] defaults to 50. *)
Definition getMessageHistory (doc : Document.t) (limit : option Z)
  : list IChatMessage.t :=
  let limit := default 50 limit in
  Js.sort_by IChatMessage.timestamp
    (Js.slice_from (- limit) (IChat.messages (Document.fields doc))).

(** The virtuals [messageCount] and [lastMessage]. *)
Definition messageCount (doc : Document.t) : nat :=
  length (IChat.messages (Document.fields doc)).

Definition lastMessage (doc : Document.t) : option IChatMessage.t :=
  last (IChat.messages (Document.fields doc)).

End ChatModel.

(** ** [services/chatService.ts] *)

Module ChatService.

(** [getChatById]: every failure of the lookup is caught and answered
    with [null]. *)
Definition getChatById (chatId userId : string) : M (option Document.t) :=
  try_catch
    (ChatModel.findChatWithMessages chatId userId)
    (fun error =>
       await console ("Error fetching chat: " +:+ Js.describe error) then
       ret None).

(** [addMessageToChat]: rethrows whatever the lookup or the save threw. *)
Definition addMessageToChat (chatId userId : string) (message : Draft.t)
  : M Document.t :=
  try_catch
    (let* chat := ChatModel.findOne chatId userId in
     match chat with
     | None => throw (Js.Error "Chat not found or access denied")
     | Some chat => ChatModel.addMessage chat message
     end)
    (fun error =>
       await console ("Error adding message to chat: " +:+ Js.describe error) then
       throw error).

(** [StartChatRequest]: what the body of a request carries, before any
    check; [topics] may be missing and may hold any strings. *)
Record StartChatRequest : Type := {
  topics : option (list string);
  title : option string;
}.

(** The first topic that is no member of [ChatTopic], if there is one. *)
Definition first_invalid (topics : list string) : option string :=
  List.find (fun topic => negb (Js.defined (ChatTopic_of_value topic))) topics.

(** The title a chat gets when none is given. *)
Definition default_title (topics : list string) : string :=
  Js.join " & " topics +:+ " Chat".

(** [createChat] *)
Definition createChat (userId : string) (chatData : StartChatRequest)
  : M Document.t :=
  try_catch
    (match topics chatData with
     | None | Some [] => throw (Js.Error "At least one topic is required")
     | Some topics =>
         if (2 <? length topics)%nat then
           throw (Js.Error "Maximum 2 topics allowed per chat")
         else
           match first_invalid topics with
           | Some topic => throw (Js.Error ("Invalid topic: " +:+ topic))
           | None =>
               let title := Js.or_else (title chatData) (default_title topics) in
               let* chat :=
                 ChatModel.createNewChat userId (omap ChatTopic_of_value topics)
                   (Some title) in
               await console ("New chat created for user: " +:+ userId
                              +:+ ", topics: " +:+ Js.join ", " topics) then
               ret chat
           end
     end)
    (fun error =>
       await console ("Error creating chat: " +:+ Js.describe error) then
       throw error).

(** [getChatHistory] *)
Definition getChatHistory (chatId userId : string) (limit : option Z)
  : M (list IChatMessage.t) :=
  try_catch
    (let* chat := ChatModel.findOne chatId userId in
     match chat with
     | None => throw (Js.Error "Chat not found or access denied")
     | Some chat => ret (ChatModel.getMessageHistory chat limit)
     end)
    (fun error =>
       await console ("Error fetching chat history: " +:+ Js.describe error) then
       throw error).

(** [deleteChat]: a soft delete, answered by a boolean. *)
Definition deleteChat (chatId userId : string) : M bool :=
  try_catch
    (let* chat := ChatModel.findOne chatId userId in
     match chat with
     | None => ret false
     | Some chat =>
         await ChatModel.deactivate chat then
         await console ("Chat deleted: " +:+ chatId +:+ " for user: "
                        +:+ userId) then
         ret true
     end)
    (fun error =>
       await console ("Error deleting chat: " +:+ Js.describe error) then
       ret false).

(** [updateChatTitle].  The assigned title goes through the [trim] setter
    of the schema. *)
Definition updateChatTitle (chatId userId newTitle : string) : M Document.t :=
  try_catch
    (let* chat := ChatModel.findOne chatId userId in
     match chat with
     | None => throw (Js.Error "Chat not found or access denied")
     | Some chat =>
         let d := Document.fields chat in
         let d' :=
           IChat.make (IChat.userId d) (Js.trim (Js.trim newTitle))
             (IChat.topics d) (IChat.messages d) (IChat.isActive d)
             (IChat.lastMessageAt d) in
         let* chat :=
           ChatModel.save
             (Document.make (Document._id chat) d' (Document.userInfo chat)
                (Document.sessionContext chat)) in
         await console ("Chat title updated: " +:+ chatId +:+ " for user: "
                        +:+ userId) then
         ret chat
     end)
    (fun error =>
       await console ("Error updating chat title: " +:+ Js.describe error) then
       throw error).

(** [validateChatData]: the list of errors; the data is valid when it is
    empty. *)
Definition validateChatData (chatData : StartChatRequest) : list string :=
  (match topics chatData with
   | None => ["Topics must be an array"]
   | Some topics =>
       (if (length topics =? 0)%nat then ["At least one topic is required"]
        else if (2 <? length topics)%nat then ["Maximum 2 topics allowed"]
        else [])
       ++ omap (fun topic =>
                  if Js.defined (ChatTopic_of_value topic) then None
                  else Some ("Invalid topic: " +:+ topic))
            topics
   end)
  ++
  (match title chatData with
   | Some title =>
       if Js.truthy title && (100 <? String.length (Js.trim title))%nat
       then ["Title cannot exceed 100 characters"]
       else []
   | None => []
   end).

Definition isValid (chatData : StartChatRequest) : bool :=
  bool_decide (validateChatData chatData = []).

(** The statistics of [getChatStats]. *)
Record ChatStats : Type := {
  totalChats : nat;
  activeChats : nat;
  totalMessages : nat;
  topicBreakdown : list (ChatTopic * nat);
  recentActivity : option Z;
}.

(** [topicBreakdown[topic] = (topicBreakdown[topic] || 0) + 1]: the keys of
    the object stay in the order in which they were first set. *)
Fixpoint count_topic (topic : ChatTopic) (breakdown : list (ChatTopic * nat))
  : list (ChatTopic * nat) :=
  match breakdown with
  | [] => [(topic, 1%nat)]
  | (t, n) :: rest =>
      if ChatTopic_eqb t topic then (t, S n) :: rest
      else (t, n) :: count_topic topic rest
  end.

(** One turn of the loop over the active chats. *)
Definition count_chat (acc : nat * list (ChatTopic * nat) * option Z)
  (chat : IChat.t) : nat * list (ChatTopic * nat) * option Z :=
  let '(totalMessages, topicBreakdown, recentActivity) := acc in
  ((totalMessages + length (IChat.messages chat))%nat,
   fold_left (fun breakdown topic => count_topic topic breakdown)
     (IChat.topics chat) topicBreakdown,
   match recentActivity with
   | None => Some (IChat.lastMessageAt chat)
   | Some recent =>
       if recent <? IChat.lastMessageAt chat
       then Some (IChat.lastMessageAt chat)
       else Some recent
   end).

(** The [try] block of [getChatStats], from the array [chats] that
    [Chat.find({ userId })] resolved to. *)
Definition chatStats (chats : list IChat.t) : ChatStats :=
  let active := List.filter IChat.isActive chats in
  let '(totalMessages, topicBreakdown, recentActivity) :=
    fold_left count_chat active (0%nat, [], None) in
  {| totalChats := length chats;
     activeChats := length active;
     totalMessages := totalMessages;
     topicBreakdown := topicBreakdown;
     recentActivity := recentActivity |}.

End ChatService.

(** ** Regular expressions of [extractUserInfoFromMessage]

    All the patterns have the shape [/<literal>(\w+)/i] or
    [/<literal>(.+?)(?:\.|$|,)/i]; [String.prototype.match] returns the
    leftmost match.  Without the [u] flag, [i] only identifies code units
    that have the same upper case, and no code unit above 127 is identified
    with an ASCII one. *)

Module Regex.

Definition upper (c : ascii) : ascii :=
  let n := nat_of_ascii c in
  if (97 <=? n)%nat && (n <=? 122)%nat then ascii_of_nat (n - 32) else c.

Definition eq_ci (a b : ascii) : bool :=
  bool_decide (upper a = upper b).

(** [\w] *)
Definition is_word (c : ascii) : bool :=
  let n := nat_of_ascii c in
  ((48 <=? n)%nat && (n <=? 57)%nat)
  || ((65 <=? n)%nat && (n <=? 90)%nat)
  || ((97 <=? n)%nat && (n <=? 122)%nat)
  || (n =? 95)%nat.

(** The code units that [.] does not match: LF and CR. *)
Definition is_line_terminator (c : ascii) : bool :=
  let n := nat_of_ascii c in
  (n =? 10)%nat || (n =? 13)%nat.

(** The input after the literal [lit], if the input starts with it. *)
Fixpoint after_literal (lit s : string) : option string :=
  match lit, s with
  | EmptyString, _ => Some s
  | String a lit', String b s' =>
      if eq_ci a b then after_literal lit' s' else None
  | String _ _, EmptyString => None
  end.

(** [(\w+)]: the longest run of word characters, which must not be
    empty. *)
Fixpoint word_run (s : string) : string :=
  match s with
  | EmptyString => EmptyString
  | String c s' => if is_word c then String c (word_run s') else EmptyString
  end.

Definition capture_word (s : string) : option string :=
  match word_run s with
  | EmptyString => None
  | w => Some w
  end.

(** What [.+?] takes after its first character, up to the first of
    ['.'], [','] and the end of the input; no match across a line
    terminator. *)
Fixpoint lazy_tail (s : string) : option string :=
  match s with
  | EmptyString => Some EmptyString
  | String c s' =>
      if bool_decide (c = "."%char) || bool_decide (c = ","%char)
      then Some EmptyString
      else if is_line_terminator c then None
      else String c <$> lazy_tail s'
  end.

(** [(.+?)(?:\.|$|,)] *)
Definition capture_lazy (s : string) : option string :=
  match s with
  | EmptyString => None
  | String c s' =>
      if is_line_terminator c then None else String c <$> lazy_tail s'
  end.

(** The first capture group of the leftmost match of
    [/<lit><group>/i] in [s]. *)
Fixpoint search (lit : string) (group : string -> option string)
  (s : string) : option string :=
  match after_literal lit s ≫= group with
  | Some captured => Some captured
  | None =>
      match s with
      | EmptyString => None
      | String _ s' => search lit group s'
      end
  end.

End Regex.

(** ** [services/sessionMemoryService.ts] *)

Module SessionMemoryService.

(** What a value of type [any] that the service returns can be. *)
Inductive any : Type :=
| null
| undefined
| value (v : string).

Definition nl : string := String (ascii_of_nat 10) EmptyString.

Definition namePatterns : list string :=
  ["my name is "; "i'm "; "i am "; "call me "; "name's "].

Definition interestPatterns : list string :=
  ["i like "; "i love "; "i enjoy "; "i'm interested in ";
   "my hobby is "; "my hobbies are "].

Definition goalPatterns : list string :=
  ["i want to "; "my goal is "; "i'm trying to "; "i hope to "; "i plan to "].

(** The [for] loop over [namePatterns], which stops at the first pattern
    that matches. *)
Fixpoint first_name (patterns : list string) (message : string)
  : option string :=
  match patterns with
  | [] => None
  | p :: rest =>
      match Regex.search p Regex.capture_word message with
      | Some captured => Some captured
      | None => first_name rest message
      end
  end.

(** The [for] loops over [interestPatterns] and [goalPatterns], which
    push the trimmed capture of every pattern that matches. *)
Fixpoint all_captures (patterns : list string) (message : string)
  : list string :=
  match patterns with
  | [] => []
  | p :: rest =>
      match Regex.search p Regex.capture_lazy message with
      | Some captured => Js.trim captured :: all_captures rest message
      | None => all_captures rest message
      end
  end.

(** A property that is assigned only when something was pushed. *)
Definition pushed (l : list string) : option (list string) :=
  match l with
  | [] => None
  | _ => Some l
  end.

Definition extractUserInfoFromMessage (message : string) : IUserInfo.t :=
  IUserInfo.make
    (first_name namePatterns message)
    (pushed (all_captures interestPatterns message))
    (pushed (all_captures goalPatterns message))
    None.

(** [Object.keys(info).length > 0] *)
Definition has_keys (info : IUserInfo.t) : bool :=
  Js.defined (IUserInfo.name info)
  || Js.defined (IUserInfo.interests info)
  || Js.defined (IUserInfo.goals info)
  || Js.defined (IUserInfo.preferences info).

(** [chat.<name>(...)] for a name that is neither assigned on
    [ChatSchema.methods] nor declared by [IChat]: the property is
    [undefined], and calling it throws a [TypeError]. *)
Definition call_undefined {A : Type} (name : string) : M A :=
  throw (Js.TypeError ("chat." +:+ name +:+ " is not a function")).

Definition extractAndStoreUserInfo (chatId message : string) (sender : Sender)
  : M unit :=
  match sender with
  | ai => ret tt
  | user =>
      try_catch
        (let* chat := ChatModel.findById chatId in
         match chat with
         | None => ret tt
         | Some chat =>
             let extractedInfo := extractUserInfoFromMessage message in
             if has_keys extractedInfo then
               await @call_undefined unit "updateUserInfo" then
               console ("Updated user info for chat " +:+ chatId +:+ ":")
             else ret tt
         end)
        (fun error =>
           console ("Error extracting user info: " +:+ Js.describe error))
  end.

Definition storeContext (chatId key val : string) : M unit :=
  try_catch
    (let* chat := ChatModel.findById chatId in
     match chat with
     | Some chat =>
         await @call_undefined unit "updateSessionContext" then
         console ("Stored context for chat " +:+ chatId +:+ ": "
                  +:+ key +:+ " = " +:+ val)
     | None => ret tt
     end)
    (fun error => console ("Error storing context: " +:+ Js.describe error)).

(** [Map.prototype.get] *)
Fixpoint Map_get (key : string) (m : list (string * string)) : any :=
  match m with
  | [] => undefined
  | (k, v) :: rest => if bool_decide (k = key) then value v else Map_get key rest
  end.

Definition getContext (chatId key : string) : M any :=
  try_catch
    (let* chat := ChatModel.findById chatId in
     match chat with
     | Some chat =>
         match Document.sessionContext chat with
         | Some m => ret (Map_get key m)
         | None => ret null
         end
     | None => ret null
     end)
    (fun error =>
       await console ("Error retrieving context: " +:+ Js.describe error) then
       ret null).

(** [getUserInfo]: [None] is [null]. *)
Definition getUserInfo (chatId : string) : M (option IUserInfo.t) :=
  try_catch
    (let* chat := ChatModel.findById chatId in
     ret (chat ≫= Document.userInfo))
    (fun error =>
       await console ("Error retrieving user info: " +:+ Js.describe error) then
       ret None).

(** The body of [buildContextForAI] once the document is found: the
    successive [context += ...] on the local variable, block by block,
    then [trim]. *)

(** [// Add user information] *)
Definition add_user_information (context : string) (chat : Document.t)
  : string :=
  match Document.userInfo chat with
  | Some userInfo =>
      let context :=
        match IUserInfo.name userInfo with
        | Some name =>
            if Js.truthy name
            then context +:+ "User's name: " +:+ name +:+ nl
            else context
        | None => context
        end in
      let context :=
        match IUserInfo.interests userInfo with
        | Some interests =>
            if (0 <? length interests)%nat
            then context +:+ "User's interests: "
                 +:+ Js.join ", " interests +:+ nl
            else context
        | None => context
        end in
      let context :=
        match IUserInfo.goals userInfo with
        | Some goals =>
            if (0 <? length goals)%nat
            then context +:+ "User's goals: " +:+ Js.join ", " goals +:+ nl
            else context
        | None => context
        end in
      match IUserInfo.preferences userInfo with
      | Some preferences =>
          if (0 <? length preferences)%nat
          then
            let prefs :=
              Js.join ", "
                (map (fun kv => fst kv +:+ ": " +:+ snd kv) preferences) in
            context +:+ "User's preferences: " +:+ prefs +:+ nl
          else context
      | None => context
      end
  | None => context
  end.

(** [// Add session context] *)
Definition add_session_context (context : string) (chat : Document.t)
  : string :=
  match Document.sessionContext chat with
  | Some sessionContext =>
      if (0 <? length sessionContext)%nat
      then
        fold_left
          (fun context kv =>
             context +:+ "- " +:+ fst kv +:+ ": " +:+ snd kv +:+ nl)
          sessionContext (context +:+ "Session context:" +:+ nl)
      else context
  | None => context
  end.

(** [// Add recent conversation history (last 5 messages for context)] *)
Definition add_recent_conversation (context : string) (chat : Document.t)
  : string :=
  let messages := IChat.messages (Document.fields chat) in
  if (0 <? length messages)%nat
  then
    let recentMessages := Js.slice_last 5 messages in
    fold_left
      (fun context msg =>
         context +:+ Sender_value (IChatMessage.sender msg) +:+ ": "
         +:+ IChatMessage.text msg +:+ nl)
      recentMessages (context +:+ nl +:+ "Recent conversation:" +:+ nl)
  else context.

Definition render (chat : Document.t) : string :=
  let context := EmptyString in
  let context := add_user_information context chat in
  let context := add_session_context context chat in
  let context := add_recent_conversation context chat in
  Js.trim context.

Definition buildContextForAI (chatId : string) : M string :=
  try_catch
    (let* chat := ChatModel.findById chatId in
     match chat with
     | None => ret EmptyString
     | Some chat => ret (render chat)
     end)
    (fun error =>
       await console ("Error building context for AI: " +:+ Js.describe error) then
       ret EmptyString).

(** [clearSessionContext]: the assignment creates the property on the
    document object at hand; [save] writes the schema's paths. *)
Definition clearSessionContext (chatId : string) : M unit :=
  try_catch
    (let* chat := ChatModel.findById chatId in
     match chat with
     | Some chat =>
         let chat :=
           Document.make (Document._id chat) (Document.fields chat)
             (Document.userInfo chat) (Some []) in
         await ChatModel.save chat then
         console ("Cleared session context for chat " +:+ chatId)
     | None => ret tt
     end)
    (fun error =>
       console ("Error clearing session context: " +:+ Js.describe error)).

End SessionMemoryService.

(** ** [services/aiService.ts] *)

Module AIService.

Definition topicPrompts (t : ChatTopic) : string :=
  match t with
  | HEALTH => "You are a helpful health assistant. Provide accurate, evidence-based health information while emphasizing that you cannot replace professional medical advice. Always recommend consulting healthcare professionals for serious concerns."
  | EDUCATION => "You are an educational assistant. Help users learn new concepts, explain complex topics in simple terms, and provide study guidance. Encourage critical thinking and lifelong learning."
  end.

(** [topicPrompts[topics[i]]] inside a template literal: an index out of
    range reads [undefined]. *)
Definition topicPrompt_at (topics : list ChatTopic) (i : nat) : string :=
  match topics !! i with
  | Some t => topicPrompts t
  | None => "undefined"
  end.

Definition generateSystemPrompt (topics : list ChatTopic) : string :=
  match topics with
  | [t] => topicPrompts t
  | _ =>
      "You are a helpful assistant specializing in "
      +:+ Js.join " and " (map ChatTopic_value topics) +:+ ". "
      +:+ topicPrompt_at topics 0 +:+ " " +:+ topicPrompt_at topics 1
  end.

Definition callGPT4 (prompt : string) (topics : list ChatTopic)
  : M AIResponse.t :=
  let* startTime := now in
  try_catch
    (let systemPrompt := generateSystemPrompt topics in
     let* completion := openai_create "gpt-4" systemPrompt prompt in
     let* t := now in
     let responseTime := t - startTime in
     let response := Js.or_else (fst completion) "No response generated" in
     ret (AIResponse.make response GPT4 true None (snd completion)
            (Some responseTime)))
    (fun error =>
       await console ("GPT-4 API error: " +:+ Js.message_of error) then
       let* t := now in
       ret (AIResponse.make EmptyString GPT4 false
              (Some (if Js.instanceof_Error error
                     then Js.message_of error else "GPT-4 API error"))
              None (Some (t - startTime)))).

(** The three disabled backends: no request is made. *)
Definition disabled (m : AIModel) (reason : string) : M AIResponse.t :=
  let* startTime := now in
  let* t := now in
  ret (AIResponse.make EmptyString m false (Some reason) None
         (Some (t - startTime))).

Definition callClaude3 (prompt : string) (topics : list ChatTopic)
  : M AIResponse.t :=
  disabled CLAUDE3 "Claude 3 API key not configured".

Definition callMistral (prompt : string) (topics : list ChatTopic)
  : M AIResponse.t :=
  disabled MISTRAL "Mistral API key not configured".

Definition callComposio (prompt : string) (topics : list ChatTopic)
  : M AIResponse.t :=
  disabled COMPOSIO "Composio API key not configured".

Definition selectModel (topics : list ChatTopic) : AIModel := GPT4.

Definition modelFunctions (m : AIModel)
  : string -> list ChatTopic -> M AIResponse.t :=
  match m with
  | GPT4 => callGPT4
  | CLAUDE3 => callClaude3
  | MISTRAL => callMistral
  | COMPOSIO => callComposio
  end.

Definition fallback_text : string :=
  "I apologize, but I'm currently experiencing technical difficulties. Please try again in a moment.".

(** The result returned when the selected model failed. *)
Definition unavailable : AIResponse.t :=
  AIResponse.make fallback_text GPT4 false (Some "AI model unavailable")
    None None.

(** [if (chatId) { ... }]: the prompt with the session memory in front. *)
Definition enhance (prompt : string) (chatId : option string) : M string :=
  match chatId with
  | Some chatId =>
      if Js.truthy chatId then
        let* sessionContext := SessionMemoryService.buildContextForAI chatId in
        if Js.truthy sessionContext then
          await console ("Enhanced prompt with session context for chat "
                         +:+ chatId) then
          ret ("Context from previous conversation:" +:+ SessionMemoryService.nl
               +:+ sessionContext +:+ SessionMemoryService.nl
               +:+ SessionMemoryService.nl
               +:+ "Current message: " +:+ prompt)
        else ret prompt
      else ret prompt
  | None => ret prompt
  end.

Definition generateAIResponse (prompt : string) (topics : list ChatTopic)
  (chatId : option string) (preferredModel : option AIModel)
  : M AIResponse.t :=
  let selectedModel :=
    match preferredModel with
    | Some m => m
    | None => selectModel topics
    end in
  let* enhancedPrompt := enhance prompt chatId in
  await console ("Attempting to use " +:+ AIModel_value selectedModel
                 +:+ " for prompt: " +:+ Js.prefix 50 enhancedPrompt +:+ "...") then
  let* response := modelFunctions selectedModel enhancedPrompt topics in
  if AIResponse.success response then
    await console (AIModel_value selectedModel +:+ " responded successfully in "
                   +:+ from_option pretty "undefined"
                         (AIResponse.responseTime response) +:+ "ms") then
    ret response
  else
    await console (AIModel_value selectedModel
                   +:+ " failed, no fallback available") then
    await console "AI model failed" then
    ret unavailable.

(** One entry of the health report. *)
Module HealthStatus.
Record t : Type := make {
  available : bool;
  lastChecked : Z;
  error : option string;
  responseTime : option Z;
}.
End HealthStatus.

Definition testPrompt : string := "Hello, this is a health check.".

Definition testTopics : list ChatTopic := [EDUCATION].

(** [results[model] = { available: result.success, lastChecked: new Date(),
      error: result.error, responseTime: result.responseTime }] *)
Definition probe (m : AIModel) : M HealthStatus.t :=
  let* result := modelFunctions m testPrompt testTopics in
  let* lastChecked := now in
  ret (HealthStatus.make (AIResponse.success result) lastChecked
         (AIResponse.error result) (AIResponse.responseTime result)).

(** [checkAIModelsHealth]: the four initial entries, each with its
    [new Date()], then the four probes in turn. *)
Definition checkAIModelsHealth : M (AIModel -> HealthStatus.t) :=
  let* t0 := now in
  let* t1 := now in
  let* t2 := now in
  let* t3 := now in
  let* gpt4 := probe GPT4 in
  let* claude3 := probe CLAUDE3 in
  let* mistral := probe MISTRAL in
  let* composio := probe COMPOSIO in
  ret (fun m =>
         match m with
         | GPT4 => gpt4
         | CLAUDE3 => claude3
         | MISTRAL => mistral
         | COMPOSIO => composio
         end).

End AIService.

(** ** [utils/jwt.ts] and [validateUserSession] of [services/authService.ts] *)

Module Jwt.

Record JWTPayload : Type := {
  userId : string;
  email : string;
}.

(** What [jwt.verify(token, secret, options)] does with a token: it returns
    the decoded payload or throws one of its errors, [TokenExpiredError]
    being tested first. *)
Inductive Verdict : Type :=
| Decoded (payload : JWTPayload)
| TokenExpiredError
| JsonWebTokenError
| OtherError (e : Js.exn).

(** [verifyToken] *)
Definition verifyToken (jwt_verify : string -> Verdict) (token : string)
  : M JWTPayload :=
  match jwt_verify token with
  | Decoded decoded => ret decoded
  | TokenExpiredError => throw (Js.Error "Token has expired")
  | JsonWebTokenError => throw (Js.Error "Invalid token")
  | OtherError e =>
      await console ("Error verifying JWT token: " +:+ Js.describe e) then
      throw (Js.Error "Token verification failed")
  end.

(** [extractTokenFromHeader]: [None] is [null]. *)
Definition extractTokenFromHeader (authHeader : option string) : option string :=
  match authHeader with
  | None => None
  | Some authHeader => Js.after_prefix "Bearer " authHeader
  end.

End Jwt.

Module AuthService.

(** The fields of a document of the [users] collection that the services
    read. *)
Record IUser : Type := {
  _id : string;
  email : string;
  name : string;
  isActive : bool;
}.

(** The [users] collection as [User.findById] sees it: the documents by
    [_id], or the rejection of the driver. *)
Record Users : Type := {
  docs : gmap string (string * string * bool);
  fault : option Js.exn;
}.

(** [await User.findById(userId)] *)
Definition findById (db : Users) (userId : string) : M (option IUser) :=
  match fault db with
  | Some e => throw e
  | None =>
      ret ((fun d : string * string * bool =>
              {| _id := userId; email := d.1.1; name := d.1.2;
                 isActive := d.2 |})
           <$> docs db !! userId)
  end.

(** [validateUserSession] *)
Definition validateUserSession (db : Users) (userId : string)
  : M (option IUser) :=
  try_catch
    (let* account := findById db userId in
     match account with
     | Some account =>
         if isActive account then ret (Some account) else ret None
     | None => ret None
     end)
    (fun error =>
       await console ("Error validating user session: " +:+ Js.describe error) then
       ret None).

End AuthService.

(** ** [services/socketService.ts] *)

Module SocketService.

(** An authenticated connection: [socket.id], [socket.userId] and
    [socket.user?.email]. *)
Record AuthenticatedSocket : Type := {
  id : string;
  userId : option string;
  email : option string;
}.

(** [socket.userId] when it is truthy. *)
Definition authenticated (socket : AuthenticatedSocket) : option string :=
  match userId socket with
  | Some u => if Js.truthy u then Some u else None
  | None => None
  end.

Definition emit (socket : AuthenticatedSocket) (ev : Event) : M unit :=
  effect (Emit (id socket) ev).

Definition io_to_emit (room : string) (ev : Event) : M unit :=
  effect (Broadcast room ev).

(** [socket.join(room)], [socket.leave(room)] *)
Definition join (socket : AuthenticatedSocket) (room : string) : M unit :=
  let* r := read_rooms in
  write_rooms (r ∪ {[ (id socket, room) ]}).

Definition leave (socket : AuthenticatedSocket) (room : string) : M unit :=
  let* r := read_rooms in
  write_rooms (r ∖ {[ (id socket, room) ]}).

(** The object the handlers keep in [chat]: the document of the store,
    or the mock they build when the lookup throws. *)
Inductive Chat : Type :=
| Found (doc : Document.t)
| Mock (_id userId : string) (topics : list ChatTopic).

Definition topics_of (chat : Chat) : list ChatTopic :=
  match chat with
  | Found doc => IChat.topics (Document.fields doc)
  | Mock _ _ topics => topics
  end.

(** [try { chat = await getChatById(...) } catch { chat = mock }] *)
Definition lookup_chat (socket_userId chatId line : string)
  (mock_topics : list ChatTopic) : M (option Chat) :=
  try_catch
    (let* chat := ChatService.getChatById chatId socket_userId in
     ret (Found <$> chat))
    (fun error =>
       await console (line +:+ " " +:+ Js.describe error) then
       ret (Some (Mock chatId socket_userId mock_topics))).

Definition user_email (socket : AuthenticatedSocket) : string :=
  default "undefined" (email socket).

(** [socket.on('join_chat', ...)] *)
Definition on_join_chat (socket : AuthenticatedSocket) (chatId : string)
  : M unit :=
  try_catch
    (match authenticated socket with
     | None =>
         emit socket (EvError "User not authenticated" "NOT_AUTHENTICATED" None)
     | Some socket_userId =>
         let* chat :=
           lookup_chat socket_userId chatId
             "Socket.IO: Chat validation failed, creating mock chat for testing:"
             [HEALTH] in
         match chat with
         | None =>
             emit socket
               (EvError "Chat not found or access denied" "CHAT_NOT_FOUND" None)
         | Some _ =>
             await join socket chatId then
             await console ("User " +:+ user_email socket +:+ " joined chat: "
                            +:+ chatId) then
             emit socket (EvJoinedChat chatId "Successfully joined chat")
         end
     end)
    (fun error =>
       await console ("Join chat error: " +:+ Js.describe error) then
       emit socket (EvError "Failed to join chat" "JOIN_CHAT_ERROR" None)).

(** [socket.on('leave_chat', ...)] *)
Definition on_leave_chat (socket : AuthenticatedSocket) (chatId : string)
  : M unit :=
  await leave socket chatId then
  await console ("User " +:+ user_email socket +:+ " left chat: " +:+ chatId) then
  emit socket (EvLeftChat chatId "Successfully left chat").

(** [{ ...message, timestamp: new Date(),
       messageId: new Date().getTime().toString() }] *)
Definition with_timestamp (message : Draft.t) : M IChatMessage.t :=
  let* t := now in
  let* t' := now in
  ret (IChatMessage.make (Draft.text message) (Draft.sender message) t
         (Draft.aiModel message) (Some (pretty t'))).

(** [try { await addMessageToChat(...) } catch (error) { console.log(...) }] *)
Definition try_save (chatId socket_userId : string) (message : Draft.t)
  (line : string) : M unit :=
  try_catch
    (await ChatService.addMessageToChat chatId socket_userId message then
     ret tt)
    (fun error => console (line +:+ " " +:+ Js.describe error)).

(** The console lines of the two [catch] blocks around
    [addMessageToChat]. *)
Definition user_save_failed : string :=
  "Socket.IO: Failed to save user message to DB, continuing for testing:".

Definition ai_save_failed : string :=
  "Socket.IO: Failed to save AI message to DB, continuing for testing:".

(** What follows [generateAIResponse] in the [message] handler. *)
Definition deliver (socket : AuthenticatedSocket) (socket_userId chatId : string)
  (aiResponse : AIResponse.t) : M unit :=
  if AIResponse.success aiResponse && Js.truthy (AIResponse.text aiResponse)
  then
    let aiMessage :=
      Draft.make (AIResponse.text aiResponse) ai
        (Some (AIModel_value (AIResponse.model aiResponse))) in
    await try_save chatId socket_userId aiMessage ai_save_failed then
    let* aiMessageWithTimestamp := with_timestamp aiMessage in
    await io_to_emit chatId (EvMessage aiMessageWithTimestamp chatId) then
    console ("AI response sent in chat " +:+ chatId +:+ " using "
             +:+ AIModel_value (AIResponse.model aiResponse))
  else
    emit socket
      (EvError
         (Js.or_else (AIResponse.error aiResponse) "AI response generation failed")
         "AI_ERROR" (Some chatId)).

(** [socket.on('message', ...)] *)
Definition on_message (socket : AuthenticatedSocket) (text chatId : string)
  : M unit :=
  try_catch
    (match authenticated socket with
     | None =>
         emit socket (EvError "User not authenticated" "NOT_AUTHENTICATED" None)
     | Some socket_userId =>
         (* Validate message *)
         if negb (Js.truthy text) || (String.length (Js.trim text) =? 0)%nat then
           emit socket (EvError "Message text is required" "INVALID_MESSAGE" None)
         else if (5000 <? String.length text)%nat then
           emit socket
             (EvError "Message too long (max 5000 characters)" "MESSAGE_TOO_LONG"
                None)
         else
           let* chat :=
             lookup_chat socket_userId chatId
               "Socket.IO: Message chat validation failed, creating mock chat for testing:"
               [HEALTH; EDUCATION] in
           match chat with
           | None =>
               emit socket
                 (EvError "Chat not found or access denied" "CHAT_NOT_FOUND" None)
           | Some chat =>
               (* Create user message *)
               let userMessage := Draft.make (Js.trim text) user None in
               await try_save chatId socket_userId userMessage
                 user_save_failed then
               (* Broadcast user message to chat room *)
               let* userMessageWithTimestamp := with_timestamp userMessage in
               await io_to_emit chatId
                 (EvMessage userMessageWithTimestamp chatId) then
               await console ("Message sent in chat " +:+ chatId +:+ ": "
                              +:+ Js.prefix 50 text +:+ "...") then
               (* Generate AI response *)
               await emit socket
                 (EvAiThinking chatId "AI is generating response...") then
               let* aiResponse :=
                 AIService.generateAIResponse text (topics_of chat) None None in
               deliver socket socket_userId chatId aiResponse
           end
     end)
    (fun error =>
       await console ("Message handling error: " +:+ Js.describe error) then
       emit socket (EvError "Failed to process message" "MESSAGE_ERROR" None)).

(** [socket.handshake]: [auth.token] and [headers.authorization]. *)
Record Handshake : Type := {
  auth_token : option string;
  authorization : option string;
}.

(** What the middleware hands to [next]: nothing, or an error. *)
Inductive Admission : Type :=
| Accept (socket : AuthenticatedSocket)
| Reject (message : string).

(** The user object built from the token when the database has no active
    user for it. *)
Definition mock_user (tokenPayload : Jwt.JWTPayload) : AuthService.IUser :=
  {| AuthService._id := Jwt.userId tokenPayload;
     AuthService.email := Jwt.email tokenPayload;
     AuthService.name := "Test User";
     AuthService.isActive := true |}.

(** The middleware of [io.use]. *)
Definition authenticate (jwt_verify : string -> Jwt.Verdict)
  (db : AuthService.Users) (socket_id : string) (handshake : Handshake)
  : M Admission :=
  try_catch
    (let token :=
       Js.or_else (auth_token handshake)
         (default EmptyString
            (Js.remove_first "Bearer " <$> authorization handshake)) in
     if negb (Js.truthy token) then
       ret (Reject "Authentication token required")
     else
       let* tokenPayload := Jwt.verifyToken jwt_verify token in
       if negb (Js.truthy (Jwt.userId tokenPayload)) then
         ret (Reject "Invalid authentication token")
       else
         let* account :=
           try_catch
             (let* session :=
                AuthService.validateUserSession db (Jwt.userId tokenPayload) in
              match session with
              | Some account => ret account
              | None =>
                  await console
                    "Socket.IO: User not found in database, creating mock user for testing" then
                  ret (mock_user tokenPayload)
              end)
             (fun error =>
                await console
                  ("Socket.IO: Database validation failed, using token data for testing: "
                   +:+ Js.describe error) then
                ret (mock_user tokenPayload)) in
         await console ("User authenticated via Socket.IO: "
                        +:+ AuthService.email account +:+ " (" +:+ socket_id
                        +:+ ")") then
         ret (Accept {| id := socket_id;
                        userId := Some (AuthService._id account);
                        email := Some (AuthService.email account) |}))
    (fun error =>
       await console ("Socket.IO authentication error: " +:+ Js.describe error) then
       ret (Reject "Authentication failed")).

(** [activeSessions]: a [Map] from socket id to user id, in insertion
    order. *)
Definition Sessions : Type := list (string * string).

(** [Map.prototype.set]: a key that is present keeps its place. *)
Fixpoint Map_set (key val : string) (m : Sessions) : Sessions :=
  match m with
  | [] => [(key, val)]
  | (k, v) :: rest =>
      if bool_decide (k = key) then (k, val) :: rest
      else (k, v) :: Map_set key val rest
  end.

(** [Map.prototype.delete] *)
Definition Map_delete (key : string) (m : Sessions) : Sessions :=
  List.filter (fun kv => negb (bool_decide (kv.1 = key))) m.

(** The start of [io.on('connection', ...)]: the session is stored. *)
Definition on_connection (activeSessions : Sessions)
  (socket : AuthenticatedSocket) : M Sessions :=
  await console ("Socket connected: " +:+ id socket +:+ " (User: "
                 +:+ user_email socket +:+ ")") then
  match authenticated socket with
  | Some socket_userId => ret (Map_set (id socket) socket_userId activeSessions)
  | None => ret activeSessions
  end.

(** [socket.rooms]: the rooms of a socket, as the adapter lists them. *)
Definition rooms_of (socket : AuthenticatedSocket) (r : gset (string * string))
  : list string :=
  snd <$> List.filter (fun p : string * string => bool_decide (p.1 = id socket))
            (elements r).

(** [rooms.forEach(room => { if (room !== socket.id) socket.leave(room) })] *)
Fixpoint leave_all (socket : AuthenticatedSocket) (rooms : list string)
  : M unit :=
  match rooms with
  | [] => ret tt
  | room :: rest =>
      await (if bool_decide (room = id socket) then ret tt
             else leave socket room) then
      leave_all socket rest
  end.

(** [socket.on('disconnect', ...)] *)
Definition on_disconnect (activeSessions : Sessions)
  (socket : AuthenticatedSocket) (reason : string) : M Sessions :=
  await console ("Socket disconnected: " +:+ id socket +:+ " (User: "
                 +:+ user_email socket +:+ ") - Reason: " +:+ reason) then
  let activeSessions := Map_delete (id socket) activeSessions in
  let* r := read_rooms in
  await leave_all socket (rooms_of socket r) then
  ret activeSessions.

(** [getActiveSessionsCount] *)
Definition getActiveSessionsCount (activeSessions : Sessions) : nat :=
  length activeSessions.

(** [getUserSessions] *)
Definition getUserSessions (activeSessions : Sessions) (userId : string)
  : list string :=
  fst <$> List.filter (fun kv => bool_decide (kv.2 = userId)) activeSessions.

(** [broadcastToUser] *)
Definition broadcastToUser (activeSessions : Sessions) (userId : string)
  (ev : Event) : M unit :=
  foldr (fun socketId rest => await io_to_emit socketId ev then rest) (ret tt)
    (getUserSessions activeSessions userId).

End SocketService.

(** ** Definitions used to state the properties *)


(** What [findOne({ _id, userId, isActive: true })] finds in a store. *)
Definition found (st : Store) (chatId userId : string) : option Document.t :=
  match chats st !! chatId with
  | Some d =>
      if bool_decide (IChat.userId d = userId) && IChat.isActive d
      then Some (ChatModel.hydrate chatId d)
      else None
  | None => None
  end.

(** The store once [save] has written a document. *)
Definition with_chat (id : string) (d : IChat.t) (st : Store) : Store :=
  {| chats := <[id := d]> (chats st); rooms := rooms st; reads := reads st;
     ids := ids st; ops := ops st; calls := calls st |}.

(** A run that comes after the effects [tr]. *)
Definition prepend {A : Type} (tr : list Effect) (r : Run A) : Run A :=
  Build_Run (value r) (final r) (tr ++ emitted r).

(** The event a connection gets when the scoped lookup finds nothing. *)
Definition access_denied : Event :=
  EvError "Chat not found or access denied" "CHAT_NOT_FOUND" None.

(** The reading of [Date.now() - startTime] by a backend function entered
    in store [st]. *)
Definition elapsed (env : Env) (st : Store) : Z :=
  clock env (S (reads st)) - clock env (reads st).

(** The lines [generateAIResponse] logs before and after the call of the
    selected backend. *)
Definition attempt_line (m : AIModel) (prompt : string) : Effect :=
  Console ("Attempting to use " +:+ AIModel_value m +:+ " for prompt: "
           +:+ Js.prefix 50 prompt +:+ "...").

Definition verdict_lines (m : AIModel) (resp : AIResponse.t) : list Effect :=
  if AIResponse.success resp then
    [Console (AIModel_value m +:+ " responded successfully in "
              +:+ from_option pretty "undefined" (AIResponse.responseTime resp)
              +:+ "ms")]
  else
    [Console (AIModel_value m +:+ " failed, no fallback available");
     Console "AI model failed"].

(** [lastMessageAt] is the timestamp of the last message, if there is one. *)
Definition last_message_at (d : IChat.t) : Prop :=
  forall m, last (IChat.messages d) = Some m ->
            IChat.lastMessageAt d = IChatMessage.timestamp m.


(** The effects of the chat store and of the console. *)
Definition allows_store (P : Effect -> Prop) : Prop :=
  (forall c u, P (DbFindOne c u)) /\
  (forall c, P (DbSave c)) /\
  (forall l, P (Console l)).

(** The text passes the two checks of the [message] handler. *)
Definition acceptable (text : string) : bool :=
  negb (negb (Js.truthy text) || (String.length (Js.trim text) =? 0)%nat)
  && negb (5000 <? String.length text)%nat.

(** An effect of a handler that neither consults the session memory nor
    sends the backend anything but [text]. *)
Definition bypasses_memory (text : string) (e : Effect) : Prop :=
  match e with
  | DbFindById _ => False
  | ApiRequest _ _ userPrompt => userPrompt = text
  | _ => True
  end.

(** An effect other than the write of a [save]. *)
Definition no_write (e : Effect) : Prop :=
  match e with
  | DbSave _ => False
  | _ => True
  end.

(** The failure of the validator of the [messages] path. *)
Definition limit_failure : Js.Path * string :=
  (Js.PMessages, "Chat cannot have more than 1000 messages").

(** The timestamps of a message list do not decrease along the list. *)
Definition non_decreasing (ms : list IChatMessage.t) : Prop :=
  forall i j mi mj,
    (i <= j)%nat -> ms !! i = Some mi -> ms !! j = Some mj ->
    IChatMessage.timestamp mi <= IChatMessage.timestamp mj.


(** What reaches a client: [socket.emit] and [io.to(room).emit]. *)
Definition is_visible (e : Effect) : bool :=
  match e with
  | Emit _ _ | Broadcast _ _ => true
  | _ => false
  end.

Definition visible (tr : list Effect) : list Effect :=
  List.filter is_visible tr.

Definition quiet (e : Effect) : Prop := is_visible e = false.

Definition is_error_event (e : Effect) : bool :=
  match e with
  | Emit _ (EvError _ _ _) | Broadcast _ (EvError _ _ _) => true
  | _ => false
  end.

(** The router as the specification words it: the preferred backend, then
    the remaining enumerated backends in their declared order, the first
    success returned; when all fail, the fallback text with the reason of
    the last failure. *)
Module RouterSpec.

Definition enumerated : list AIModel := [GPT4; CLAUDE3; MISTRAL; COMPOSIO].

Definition AIModel_eqb (a b : AIModel) : bool :=
  match a, b with
  | GPT4, GPT4 | CLAUDE3, CLAUDE3 | MISTRAL, MISTRAL | COMPOSIO, COMPOSIO => true
  | _, _ => false
  end.

Fixpoint first_success (backends : list AIModel) (prompt : string)
  (topics : list ChatTopic) (last : AIResponse.t) : M AIResponse.t :=
  match backends with
  | [] =>
      ret (AIResponse.make AIService.fallback_text (AIResponse.model last)
             false (AIResponse.error last) None None)
  | b :: rest =>
      let* response := AIService.modelFunctions b prompt topics in
      if AIResponse.success response then ret response
      else first_success rest prompt topics response
  end.

Definition generate (prompt : string) (topics : list ChatTopic)
  (preferredModel : option AIModel) : M AIResponse.t :=
  let primary := default (AIService.selectModel topics) preferredModel in
  let* response := AIService.modelFunctions primary prompt topics in
  if AIResponse.success response then ret response
  else
    first_success
      (List.filter (fun b => negb (AIModel_eqb b primary)) enumerated)
      prompt topics response.

End RouterSpec.

(** The assembled context as the specification words it: the known user
    facts, then the session-context entries, then the last five messages,
    every section left out when it has nothing to show. *)
Module ContextSpec.

Definition nl : string := SessionMemoryService.nl.

Definition fact (label : string) (shown : bool) (body : string) : list string :=
  if shown then [label +:+ body +:+ nl] else [].

Definition facts (userInfo : option IUserInfo.t) : list string :=
  match userInfo with
  | None => []
  | Some u =>
      let name := default EmptyString (IUserInfo.name u) in
      let interests := default [] (IUserInfo.interests u) in
      let goals := default [] (IUserInfo.goals u) in
      let preferences := default [] (IUserInfo.preferences u) in
      fact "User's name: " (Js.truthy name) name
      ++ fact "User's interests: " (negb (bool_decide (interests = [])))
           (Js.join ", " interests)
      ++ fact "User's goals: " (negb (bool_decide (goals = [])))
           (Js.join ", " goals)
      ++ fact "User's preferences: " (negb (bool_decide (preferences = [])))
           (Js.join ", " (map (fun kv => fst kv +:+ ": " +:+ snd kv) preferences))
  end.

Definition session (sessionContext : option (list (string * string)))
  : list string :=
  match default [] sessionContext with
  | [] => []
  | entries =>
      ("Session context:" +:+ nl)
      :: map (fun kv => "- " +:+ fst kv +:+ ": " +:+ snd kv +:+ nl) entries
  end.

Definition recent (messages : list IChatMessage.t) : list string :=
  match messages with
  | [] => []
  | _ =>
      (nl +:+ "Recent conversation:" +:+ nl)
      :: map (fun m => Sender_value (IChatMessage.sender m) +:+ ": "
                       +:+ IChatMessage.text m +:+ nl)
           (Js.slice_last 5 messages)
  end.

Definition sections (chat : Document.t) : list string :=
  facts (Document.userInfo chat)
  ++ session (Document.sessionContext chat)
  ++ recent (IChat.messages (Document.fields chat)).

Definition assembleContext (chat : Document.t) : string :=
  Js.trim (fold_right String.append EmptyString (sections chat)).

End ContextSpec.

(** ** The statements that the code does not meet, as propositions *)

(** A failed save of the user's message is answered by an error event to
    the connection that sent it. *)
Definition save_failure_reported (env : Env) (st : Store)
  (socket : SocketService.AuthenticatedSocket) (text chatId : string) : Prop :=
  forall U e,
    SocketService.authenticated socket = Some U ->
    acceptable text = true ->
    value (ChatService.addMessageToChat chatId U
             (Draft.make (Js.trim text) user None) env (after_db_op st))
    = Throw e ->
    exists message code cid,
      Emit (SocketService.id socket) (EvError message code cid)
      ∈ emitted (SocketService.on_message socket text chatId env st).


(** What a caller can tell from a result: its tag, its text and its reason. *)
Definition outcome (r : result AIResponse.t)
  : option (bool * string * option string) :=
  match r with
  | Ok a => Some (AIResponse.success a, AIResponse.text a, AIResponse.error a)
  | Throw _ => None
  end.

(** [generateAIResponse] answers as the fallback chain of the specification
    does. *)
Definition falls_back (env : Env) (st : Store) (prompt : string)
  (topics : list ChatTopic) (preferredModel : option AIModel) : Prop :=
  outcome (value (AIService.generateAIResponse prompt topics None
                    preferredModel env st))
  = outcome (value (RouterSpec.generate prompt topics preferredModel env st)).

(** The [message] handler consults the session memory of the chat (both
    [extractAndStoreUserInfo] and [buildContextForAI] start with
    [Chat.findById(chatId)]) and the prompt that reaches the backend carries
    the assembled context [ctx] in front of the text. *)
Definition memory_consulted (env : Env) (st : Store)
  (socket : SocketService.AuthenticatedSocket) (text chatId ctx : string)
  : Prop :=
  let tr := emitted (SocketService.on_message socket text chatId env st) in
  DbFindById chatId ∈ tr /\
  forall model sys prompt,
    ApiRequest model sys prompt ∈ tr ->
    prompt = "Context from previous conversation:" +:+ SessionMemoryService.nl
             +:+ ctx +:+ SessionMemoryService.nl +:+ SessionMemoryService.nl
             +:+ "Current message: " +:+ text.

(** ** A server, a chat and a connection to run the handlers on *)

Module Scenario.

Definition socket : SocketService.AuthenticatedSocket :=
  {| SocketService.id := "s1";
     SocketService.userId := Some "u1";
     SocketService.email := Some "sam@example.org" |}.

Definition stranger : SocketService.AuthenticatedSocket :=
  {| SocketService.id := "s2";
     SocketService.userId := Some "u2";
     SocketService.email := Some "kim@example.org" |}.

Definition said (text : string) (t : Z) : IChatMessage.t :=
  IChatMessage.make text user t None (Some ("m" +:+ pretty t)).

Definition chat_with (messages : list IChatMessage.t) : IChat.t :=
  IChat.make "u1" "health Chat" [HEALTH] messages true
    (default 900 (IChatMessage.timestamp <$> last messages)).

Definition store_with (messages : list IChatMessage.t) : Store :=
  {| chats := {[ "c1" := chat_with messages ]}; rooms := ∅;
     reads := 0; ids := 0; ops := 0; calls := 0 |}.

(** A server where everything works: the clock advances by one
    millisecond per reading and the backend answers. *)
Definition healthy : Env :=
  {| clock := fun n => 1000 + Z.of_nat n;
     objectId := fun n => "oid" +:+ pretty n;
     db_fault := fun _ => None;
     openai := fun _ _ _ => Resolved (Some "Drink water.") (Some 42) |}.

(** The same server, whose k-th database operation is lost. *)
Definition db_lost_at (k : nat) : Env :=
  {| clock := clock healthy;
     objectId := objectId healthy;
     db_fault := fun n =>
       if (n =? k)%nat then Some (Js.Error "connection lost") else None;
     openai := openai healthy |}.

(** The same server, whose backend times out. *)
Definition backend_down : Env :=
  {| clock := clock healthy;
     objectId := objectId healthy;
     db_fault := fun _ => None;
     openai := fun _ _ _ => Rejected (Js.Error "Request timed out") |}.

Definition draft (text : string) : Draft.t := Draft.make text user None.


End Scenario.

(** ** Properties of computations *)

(** A computation that never throws. *)
Definition total {A : Type} (m : M A) : Prop :=
  forall env st, exists a, value (m env st) = Ok a.

(** A computation all of whose effects satisfy [P]. *)
Definition emits {A : Type} (P : Effect -> Prop) (m : M A) : Prop :=
  forall env st, Forall P (emitted (m env st)).

(** A computation that leaves a component of the store as it found it,
    whether it returns or throws. *)
Definition keeps {A X : Type} (f : Store -> X) (m : M A) : Prop :=
  forall env st, f (final (m env st)) = f st.

(** The concatenation of a list of strings. *)
Abbreviation cat := (fold_right String.append EmptyString).

Create HintDb total discriminated.
Create HintDb emits discriminated.
Create HintDb keeps discriminated.

(** ** Definitions used to state the further properties *)

(** A string that does not start with white space. *)
Definition starts_clean (s : string) : Prop :=
  match s with
  | EmptyString => True
  | String c _ => Js.is_space c = false
  end.

(** The count a breakdown gives a topic: [topicBreakdown[topic] || 0]. *)
Fixpoint tally (topic : ChatTopic) (breakdown : list (ChatTopic * nat)) : nat :=
  match breakdown with
  | [] => 0%nat
  | (t, n) :: rest => if ChatTopic_eqb t topic then n else tally topic rest
  end.

(** How many times a topic occurs among the topics of the chats. *)
Definition occurrences (topic : ChatTopic) (chats : list IChat.t) : nat :=
  length (List.filter (fun t => ChatTopic_eqb t topic)
            (concat (map IChat.topics chats))).

(** The API requests of a trace. *)
Definition is_request (e : Effect) : bool :=
  match e with
  | ApiRequest _ _ _ => true
  | _ => false
  end.

Definition requests (tr : list Effect) : list Effect :=
  List.filter is_request tr.

(** A message that passes the validators of [ChatMessageSchema]: a text
    of 1 to 5000 characters, and a model of the enumeration, which only a
    message of the user may lack. *)
Definition well_formed (m : IChatMessage.t) : Prop :=
  (0 < String.length (IChatMessage.text m) <= 5000)%nat /\
  match IChatMessage.aiModel m with
  | Some v => v ∈ ChatModel.aiModel_enum
  | None => IChatMessage.sender m = user
  end.

(** A chat that passes the validators of [ChatSchema] and whose
    [lastMessageAt] follows its last message. *)
Definition schema_valid (d : IChat.t) : Prop :=
  Js.truthy (IChat.userId d) = true /\
  (String.length (IChat.title d) <= 100)%nat /\
  (0 < length (IChat.topics d) <= 2)%nat /\
  (length (IChat.messages d) <= 1000)%nat /\
  Forall well_formed (IChat.messages d) /\
  last_message_at d.

(** A computation that leaves every chat of the collection with the
    property [I], when it finds the collection so. *)
Definition preserves {A : Type} (I : IChat.t -> Prop) (m : M A) : Prop :=
  forall env st,
    map_Forall (fun _ => I) (chats st) ->
    map_Forall (fun _ => I) (chats (final (m env st))).

Create HintDb preserves discriminated.

(** The chats of [st] are still chats of [st'], with the owner they had and
    with the messages they had as their first messages. *)
Definition extends (st st' : Store) : Prop :=
  forall c d,
    chats st !! c = Some d ->
    exists d',
      chats st' !! c = Some d' /\
      IChat.userId d' = IChat.userId d /\
      IChat.messages d `prefix_of` IChat.messages d'.

(** A computation that only ever adds to the histories of the chats. *)
Definition grows {A : Type} (m : M A) : Prop :=
  forall env st, extends st (final (m env st)).

Create HintDb grows discriminated.

(** * Properties *)

(** ** The monad: values, stores and traces of composed computations *)

Section Runs.
Context {A B : Type}.
Implicit Types (m : M A) (k : A -> M B) (h : Js.exn -> M A).

Lemma value_bind m k env st :
  value (bind m k env st) =
  match value (m env st) with
  | Ok a => value (k a env (final (m env st)))
  | Throw e => Throw e
  end.
Proof. unfold bind. destruct (value (m env st)); reflexivity. Qed.

Lemma final_bind m k env st :
  final (bind m k env st) =
  match value (m env st) with
  | Ok a => final (k a env (final (m env st)))
  | Throw _ => final (m env st)
  end.
Proof. unfold bind. destruct (value (m env st)); reflexivity. Qed.

Lemma emitted_bind m k env st :
  emitted (bind m k env st) =
  emitted (m env st) ++
  match value (m env st) with
  | Ok a => emitted (k a env (final (m env st)))
  | Throw _ => []
  end.
Proof.
  unfold bind. destruct (value (m env st)); simpl; [reflexivity|].
  symmetry. apply app_nil_r.
Qed.

Lemma value_try_catch m h env st :
  value (try_catch m h env st) =
  match value (m env st) with
  | Ok a => Ok a
  | Throw e => value (h e env (final (m env st)))
  end.
Proof. unfold try_catch. destruct (value (m env st)) eqn:E; auto. Qed.

Lemma final_try_catch m h env st :
  final (try_catch m h env st) =
  match value (m env st) with
  | Ok _ => final (m env st)
  | Throw e => final (h e env (final (m env st)))
  end.
Proof. unfold try_catch. destruct (value (m env st)); reflexivity. Qed.

Lemma emitted_try_catch m h env st :
  emitted (try_catch m h env st) =
  emitted (m env st) ++
  match value (m env st) with
  | Ok _ => []
  | Throw e => emitted (h e env (final (m env st)))
  end.
Proof.
  unfold try_catch. destruct (value (m env st)); simpl; [|reflexivity].
  symmetry. apply app_nil_r.
Qed.
End Runs.

Section Total.
Context {A B : Type}.

Lemma total_ret (a : A) : total (ret a).
Proof. intros env st. exists a. reflexivity. Qed.

Lemma total_bind (m : M A) (k : A -> M B) :
  total m -> (forall a, total (k a)) -> total (bind m k).
Proof.
  intros Hm Hk env st. destruct (Hm env st) as [a Ha].
  destruct (Hk a env (final (m env st))) as [b Hb].
  exists b. rewrite value_bind, Ha. exact Hb.
Qed.

Lemma total_try_catch (m : M A) (h : Js.exn -> M A) :
  (forall e, total (h e)) -> total (try_catch m h).
Proof.
  intros Hh env st. rewrite value_try_catch.
  destruct (value (m env st)) as [a|e]; [eauto|apply Hh].
Qed.
End Total.

Lemma total_effect e : total (effect e).
Proof. intros env st. exists tt. reflexivity. Qed.

Lemma total_console l : total (console l).
Proof. apply total_effect. Qed.

Lemma total_now : total now.
Proof. intros env st. eexists. reflexivity. Qed.

Lemma total_new_ObjectId : total new_ObjectId.
Proof. intros env st. eexists. reflexivity. Qed.

Lemma total_read_chats : total read_chats.
Proof. intros env st. eexists. reflexivity. Qed.

Lemma total_read_rooms : total read_rooms.
Proof. intros env st. eexists. reflexivity. Qed.

Lemma total_write_rooms r : total (write_rooms r).
Proof. intros env st. eexists. reflexivity. Qed.

Lemma total_write_chat id d : total (write_chat id d).
Proof. intros env st. eexists. reflexivity. Qed.

#[export] Hint Resolve total_ret total_bind total_try_catch total_effect
  total_console total_now total_new_ObjectId total_read_chats total_read_rooms
  total_write_rooms total_write_chat : total.

Section Emits.
Context {A B : Type} (P : Effect -> Prop).

Lemma emits_ret (a : A) : emits P (ret a).
Proof. intros env st. constructor. Qed.

Lemma emits_throw e : emits P (@throw A e).
Proof. intros env st. constructor. Qed.

Lemma emits_bind (m : M A) (k : A -> M B) :
  emits P m -> (forall a, emits P (k a)) -> emits P (bind m k).
Proof.
  intros Hm Hk env st. rewrite emitted_bind. apply Forall_app. split.
  - apply Hm.
  - destruct (value (m env st)); [apply Hk|constructor].
Qed.

Lemma emits_try_catch (m : M A) (h : Js.exn -> M A) :
  emits P m -> (forall e, emits P (h e)) -> emits P (try_catch m h).
Proof.
  intros Hm Hh env st. rewrite emitted_try_catch. apply Forall_app. split.
  - apply Hm.
  - destruct (value (m env st)); [constructor|apply Hh].
Qed.
End Emits.

Section EmitsPrimitives.
Context (P : Effect -> Prop).

Lemma emits_effect e : P e -> emits P (effect e).
Proof. intros He env st. simpl. repeat constructor. exact He. Qed.

Lemma emits_console l : P (Console l) -> emits P (console l).
Proof. apply emits_effect. Qed.

Lemma emits_now : emits P now.
Proof. intros env st. constructor. Qed.

Lemma emits_new_ObjectId : emits P new_ObjectId.
Proof. intros env st. constructor. Qed.

Lemma emits_read_chats : emits P read_chats.
Proof. intros env st. constructor. Qed.

Lemma emits_write_chat id d : emits P (write_chat id d).
Proof. intros env st. constructor. Qed.

Lemma emits_read_rooms : emits P read_rooms.
Proof. intros env st. constructor. Qed.

Lemma emits_write_rooms r : emits P (write_rooms r).
Proof. intros env st. constructor. Qed.

Lemma emits_db_op q : P q -> emits P (db_op q).
Proof.
  intros Hq env st. unfold db_op.
  destruct (db_fault env (ops st)); simpl; repeat constructor; exact Hq.
Qed.

Lemma emits_openai_create model sys usr :
  P (ApiRequest model sys usr) -> emits P (openai_create model sys usr).
Proof.
  intros Hq env st. unfold openai_create.
  destruct (openai env (calls st) sys usr); simpl; repeat constructor; exact Hq.
Qed.
End EmitsPrimitives.

#[export] Hint Resolve emits_ret emits_throw emits_bind emits_try_catch
  emits_effect emits_console emits_now emits_new_ObjectId emits_read_chats
  emits_write_chat emits_read_rooms emits_write_rooms emits_db_op
  emits_openai_create : emits.

Section Keeps.
Context {A B X : Type} (f : Store -> X).

Lemma keeps_ret (a : A) : keeps f (ret a).
Proof. intros env st. reflexivity. Qed.

Lemma keeps_throw e : keeps f (@throw A e).
Proof. intros env st. reflexivity. Qed.

Lemma keeps_bind (m : M A) (k : A -> M B) :
  keeps f m -> (forall a, keeps f (k a)) -> keeps f (bind m k).
Proof.
  intros Hm Hk env st. rewrite final_bind.
  destruct (value (m env st)); [rewrite Hk|]; apply Hm.
Qed.

Lemma keeps_try_catch (m : M A) (h : Js.exn -> M A) :
  keeps f m -> (forall e, keeps f (h e)) -> keeps f (try_catch m h).
Proof.
  intros Hm Hh env st. rewrite final_try_catch.
  destruct (value (m env st)); [|rewrite Hh]; apply Hm.
Qed.

Lemma keeps_effect e : keeps f (effect e).
Proof. intros env st. reflexivity. Qed.

Lemma keeps_console l : keeps f (console l).
Proof. intros env st. reflexivity. Qed.

Lemma keeps_read_chats : keeps f read_chats.
Proof. intros env st. reflexivity. Qed.

Lemma keeps_read_rooms : keeps f read_rooms.
Proof. intros env st. reflexivity. Qed.
End Keeps.

(** The counters are not the collection. *)
Section KeepsCounters.
Context {X : Type} (f : Store -> X).
Hypothesis f_counters :
  forall c r n1 n2 n3 n4 n1' n2' n3' n4',
    f (Build_Store c r n1 n2 n3 n4) = f (Build_Store c r n1' n2' n3' n4').

Lemma keeps_now : keeps f now.
Proof. intros env [c r n1 n2 n3 n4]. apply f_counters. Qed.

Lemma keeps_new_ObjectId : keeps f new_ObjectId.
Proof. intros env [c r n1 n2 n3 n4]. apply f_counters. Qed.

Lemma keeps_db_op q : keeps f (db_op q).
Proof.
  intros env [c r n1 n2 n3 n4]. unfold db_op. simpl.
  destruct (db_fault env n3); apply f_counters.
Qed.

Lemma keeps_openai_create model sys usr : keeps f (openai_create model sys usr).
Proof.
  intros env [c r n1 n2 n3 n4]. unfold openai_create. simpl.
  destruct (openai env n4 sys usr); apply f_counters.
Qed.
End KeepsCounters.

Lemma chats_counters c r n1 n2 n3 n4 n1' n2' n3' n4' :
  chats (Build_Store c r n1 n2 n3 n4) = chats (Build_Store c r n1' n2' n3' n4').
Proof. reflexivity. Qed.

#[export] Hint Resolve keeps_ret keeps_throw keeps_bind keeps_try_catch
  keeps_effect keeps_console keeps_read_chats keeps_read_rooms : keeps.
Lemma keeps_chats_now : keeps chats now.
Proof. apply keeps_now, chats_counters. Qed.

Lemma keeps_chats_new_ObjectId : keeps chats new_ObjectId.
Proof. apply keeps_new_ObjectId, chats_counters. Qed.

Lemma keeps_chats_db_op q : keeps chats (db_op q).
Proof. apply keeps_db_op, chats_counters. Qed.

Lemma keeps_chats_openai_create model sys usr :
  keeps chats (openai_create model sys usr).
Proof. apply keeps_openai_create, chats_counters. Qed.

#[export] Hint Resolve keeps_chats_now keeps_chats_new_ObjectId
  keeps_chats_db_op keeps_chats_openai_create : keeps.

(** ** Runs of composed computations, as equations *)

Lemma prepend_nil {A} (r : Run A) : prepend [] r = r.
Proof. destruct r. reflexivity. Qed.

Lemma bind_ok {A B} (m : M A) (k : A -> M B) env st a st' tr :
  m env st = Build_Run (Ok a) st' tr ->
  bind m k env st = prepend tr (k a env st').
Proof. intros H. unfold bind. rewrite H. reflexivity. Qed.

Lemma bind_throw {A B} (m : M A) (k : A -> M B) env st e st' tr :
  m env st = Build_Run (Throw e) st' tr ->
  bind m k env st = Build_Run (Throw e) st' tr.
Proof. intros H. unfold bind. rewrite H. reflexivity. Qed.

Lemma try_catch_ok {A} (m : M A) h env st a st' tr :
  m env st = Build_Run (Ok a) st' tr ->
  try_catch m h env st = Build_Run (Ok a) st' tr.
Proof. intros H. unfold try_catch. rewrite H. reflexivity. Qed.

Lemma try_catch_throw {A} (m : M A) h env st e st' tr :
  m env st = Build_Run (Throw e) st' tr ->
  try_catch m h env st = prepend tr (h e env st').
Proof. intros H. unfold try_catch. rewrite H. reflexivity. Qed.

(** ** The model *)

Lemma validate_limit d :
  (1000 < length (IChat.messages d))%nat -> limit_failure ∈ ChatModel.validate d.
Proof.
  intros H. unfold ChatModel.validate.
  destruct (Nat.leb_spec (length (IChat.messages d)) 1000) as [Hle|_]; [lia|].
  rewrite !elem_of_app. do 3 right. left. apply list_elem_of_here.
Qed.

Lemma save_invalid doc env st f :
  f ∈ ChatModel.validate (Document.fields doc) ->
  ChatModel.save doc env st =
  Build_Run (Throw (Js.ValidationError (ChatModel.validate (Document.fields doc)))) st [].
Proof.
  intros Hf. unfold ChatModel.save.
  destruct (ChatModel.validate (Document.fields doc)) as [|x l].
  - inversion Hf.
  - reflexivity.
Qed.

Lemma save_valid doc env st :
  ChatModel.validate (Document.fields doc) = [] ->
  ChatModel.save doc env st =
  match db_fault env (ops st) with
  | Some e => Build_Run (Throw e) (after_db_op st) [DbSave (Document._id doc)]
  | None =>
      Build_Run
        (Ok (Document.make (Document._id doc)
               (ChatModel.pre_save (Document.fields doc))
               (Document.userInfo doc) (Document.sessionContext doc)))
        (with_chat (Document._id doc) (ChatModel.pre_save (Document.fields doc))
           (after_db_op st))
        [DbSave (Document._id doc)]
  end.
Proof.
  intros Hv. unfold ChatModel.save. rewrite Hv.
  unfold bind, db_op. destruct (db_fault env (ops st)); reflexivity.
Qed.

Lemma findOne_run env st c u :
  ChatModel.findOne c u env st =
  Build_Run
    (match db_fault env (ops st) with
     | Some e => Throw e
     | None => Ok (found st c u)
     end)
    (after_db_op st) [DbFindOne c u].
Proof.
  unfold ChatModel.findOne, bind, db_op, read_chats, found.
  destruct (db_fault env (ops st)); simpl; [reflexivity|].
  destruct (chats st !! c) as [d|]; simpl; [|reflexivity].
  destruct (bool_decide (IChat.userId d = u) && IChat.isActive d); reflexivity.
Qed.

Lemma findById_run env st c :
  ChatModel.findById c env st =
  Build_Run
    (match db_fault env (ops st) with
     | Some e => Throw e
     | None => Ok (ChatModel.hydrate c <$> chats st !! c)
     end)
    (after_db_op st) [DbFindById c].
Proof.
  unfold ChatModel.findById, bind, db_op, read_chats.
  destruct (db_fault env (ops st)); reflexivity.
Qed.

Lemma addMessage_run doc draft env st :
  ChatModel.addMessage doc draft env st =
  ChatModel.save
    (Document.make (Document._id doc)
       (ChatModel.push (Document.fields doc) draft
          (clock env (reads st)) (objectId env (ids st)))
       (Document.userInfo doc) (Document.sessionContext doc))
    env (after_id (after_now st)).
Proof.
  unfold ChatModel.addMessage.
  erewrite bind_ok by reflexivity. erewrite bind_ok by reflexivity.
  rewrite !prepend_nil. reflexivity.
Qed.

Lemma found_Some st c u doc :
  found st c u = Some doc ->
  exists d, chats st !! c = Some d /\ IChat.userId d = u /\
            IChat.isActive d = true /\ doc = ChatModel.hydrate c d.
Proof.
  unfold found. destruct (chats st !! c) as [d|]; [|discriminate].
  destruct (bool_decide (IChat.userId d = u)) eqn:Hu; [|discriminate].
  destruct (IChat.isActive d) eqn:Ha; [|discriminate].
  intros [= <-]. exists d. apply bool_decide_eq_true_1 in Hu. auto.
Qed.

Lemma found_owner st c u d :
  chats st !! c = Some d -> IChat.userId d = u -> IChat.isActive d = true ->
  found st c u = Some (ChatModel.hydrate c d).
Proof.
  intros Hd Hu Ha. unfold found. rewrite Hd, Ha.
  rewrite bool_decide_eq_true_2 by exact Hu. reflexivity.
Qed.

(** The run of [addMessageToChat], case by case. *)
Lemma addMessageToChat_run c u draft env st :
  ChatService.addMessageToChat c u draft env st =
  let report e :=
    [Console ("Error adding message to chat: " +:+ Js.describe e)] in
  match db_fault env (ops st) with
  | Some e => Build_Run (Throw e) (after_db_op st) (DbFindOne c u :: report e)
  | None =>
      match found st c u with
      | None =>
          let e := Js.Error "Chat not found or access denied" in
          Build_Run (Throw e) (after_db_op st) (DbFindOne c u :: report e)
      | Some doc =>
          let st1 := after_id (after_now (after_db_op st)) in
          let d := ChatModel.push (Document.fields doc) draft
                     (clock env (reads st)) (objectId env (ids st)) in
          match ChatModel.validate d with
          | [] =>
              match db_fault env (ops st1) with
              | Some e =>
                  Build_Run (Throw e) (after_db_op st1)
                    (DbFindOne c u :: DbSave (Document._id doc) :: report e)
              | None =>
                  Build_Run
                    (Ok (Document.make (Document._id doc) (ChatModel.pre_save d)
                           (Document.userInfo doc) (Document.sessionContext doc)))
                    (with_chat (Document._id doc) (ChatModel.pre_save d)
                       (after_db_op st1))
                    [DbFindOne c u; DbSave (Document._id doc)]
              end
          | failures =>
              let e := Js.ValidationError failures in
              Build_Run (Throw e) st1 (DbFindOne c u :: report e)
          end
      end
  end.
Proof.
  unfold ChatService.addMessageToChat. cbv zeta.
  destruct (db_fault env (ops st)) as [e|] eqn:Hfault.
  { erewrite try_catch_throw.
    2:{ erewrite bind_throw; [reflexivity|]. rewrite findOne_run, Hfault. reflexivity. }
    reflexivity. }
  destruct (found st c u) as [doc|] eqn:Hfound.
  2:{ erewrite try_catch_throw.
      2:{ erewrite bind_ok; [|rewrite findOne_run, Hfault, Hfound; reflexivity].
          cbv beta iota.
          reflexivity. }
      reflexivity. }
  destruct (ChatModel.validate _) as [|f fs] eqn:Hv.
  - destruct (db_fault env (ops (after_id (after_now (after_db_op st))))) as [e|] eqn:Hfault2.
    + erewrite try_catch_throw.
      2:{ erewrite bind_ok; [|rewrite findOne_run, Hfault, Hfound; reflexivity].
          cbv beta iota.
          rewrite addMessage_run, save_valid by exact Hv.
          cbn [reads ids after_db_op] in *. rewrite Hfault2. reflexivity. }
      reflexivity.
    + erewrite try_catch_ok; [reflexivity|].
      erewrite bind_ok; [|rewrite findOne_run, Hfault, Hfound; reflexivity].
          cbv beta iota.
      rewrite addMessage_run, save_valid by exact Hv.
      cbn [reads ids after_db_op] in *. rewrite Hfault2. reflexivity.
  - erewrite try_catch_throw.
    2:{ erewrite bind_ok; [|rewrite findOne_run, Hfault, Hfound; reflexivity].
          cbv beta iota.
        rewrite addMessage_run.
        erewrite save_invalid; [|cbn [Document.fields reads ids after_db_op]; rewrite Hv; apply list_elem_of_here].
        cbn [Document.fields reads ids after_db_op]. rewrite Hv. reflexivity. }
    reflexivity.
Qed.

(** C6.  Appending to a chat that already holds 1000 messages fails, and
    the collection is left exactly as it was: the stored messages, their
    order and [lastMessageAt] are those of before the call.  When the
    scoped lookup reaches the chat (the database answers, the caller owns
    the chat, the chat is active), the failure is the validation error of
    [save], and it carries the failure of the limit on the [messages]
    path. *)
Theorem append_at_limit env st chatId userId draft d :
  chats st !! chatId = Some d ->
  length (IChat.messages d) = 1000%nat ->
  let r := ChatService.addMessageToChat chatId userId draft env st in
  (exists e, value r = Throw e) /\
  chats (final r) = chats st /\
  (db_fault env (ops st) = None -> IChat.userId d = userId ->
   IChat.isActive d = true ->
   exists failures,
     value r = Throw (Js.ValidationError failures) /\
     limit_failure ∈ failures).
Proof.
  intros Hd Hlen r. subst r. rewrite addMessageToChat_run. cbv zeta.
  destruct (db_fault env (ops st)) as [e|] eqn:Hfault.
  { cbn. split; [eauto|]. split; [reflexivity|]. intros; discriminate. }
  destruct (found st chatId userId) as [doc|] eqn:Hfound.
  2:{ cbn. split; [eauto|]. split; [reflexivity|]. intros _ Hu Ha.
      rewrite (found_owner _ _ _ _ Hd Hu Ha) in Hfound. discriminate. }
  apply found_Some in Hfound as (d' & Hd' & _ & _ & ->).
  assert (d' = d) as -> by congruence.
  pose proof (validate_limit
    (ChatModel.push d draft (clock env (reads st)) (objectId env (ids st)))) as Hin.
  cbn [Document.fields ChatModel.hydrate] in *.
  destruct (ChatModel.validate _) as [|f fs] eqn:Hv.
  { exfalso. eapply not_elem_of_nil. apply Hin.
    unfold ChatModel.push. cbn [IChat.messages]. rewrite length_app, Hlen. cbn. lia. }
  cbn. split; [eauto|]. split; [reflexivity|]. intros _ _ _.
  eexists. split; [reflexivity|]. apply Hin.
  unfold ChatModel.push. cbn [IChat.messages]. rewrite length_app, Hlen. cbn. lia.
Qed.

(** ** Sequences of appends *)



Lemma pre_save_push d draft t id :
  ChatModel.pre_save (ChatModel.push d draft t id) = ChatModel.push d draft t id.
Proof.
  unfold ChatModel.pre_save, ChatModel.push. cbn [IChat.messages].
  rewrite last_snoc. reflexivity.
Qed.





(** ** The join handler *)

Lemma getChatById_run c u env st :
  ChatService.getChatById c u env st =
  match db_fault env (ops st) with
  | Some e =>
      Build_Run (Ok None) (after_db_op st)
        [DbFindOne c u; Console ("Error fetching chat: " +:+ Js.describe e)]
  | None => Build_Run (Ok (found st c u)) (after_db_op st) [DbFindOne c u]
  end.
Proof.
  unfold ChatService.getChatById, ChatModel.findChatWithMessages.
  destruct (db_fault env (ops st)) as [e|] eqn:Hfault.
  - erewrite try_catch_throw; [|rewrite findOne_run, Hfault; reflexivity].
    reflexivity.
  - erewrite try_catch_ok; [|rewrite findOne_run, Hfault]; reflexivity.
Qed.

Lemma lookup_chat_run u c line topics env st :
  SocketService.lookup_chat u c line topics env st =
  match db_fault env (ops st) with
  | Some e =>
      Build_Run (Ok None) (after_db_op st)
        [DbFindOne c u; Console ("Error fetching chat: " +:+ Js.describe e)]
  | None =>
      Build_Run (Ok (SocketService.Found <$> found st c u)) (after_db_op st)
        [DbFindOne c u]
  end.
Proof.
  unfold SocketService.lookup_chat.
  destruct (db_fault env (ops st)) as [e|] eqn:Hfault.
  - erewrite try_catch_ok; [reflexivity|].
    erewrite bind_ok; [|rewrite getChatById_run, Hfault; reflexivity].
    reflexivity.
  - erewrite try_catch_ok; [reflexivity|].
    erewrite bind_ok; [|rewrite getChatById_run, Hfault; reflexivity].
    reflexivity.
Qed.

Lemma found_None st c u :
  (forall d, chats st !! c = Some d ->
             IChat.userId d <> u \/ IChat.isActive d = false) ->
  found st c u = None.
Proof.
  intros H. destruct (found st c u) as [doc|] eqn:Hf; [|reflexivity].
  apply found_Some in Hf as (d & Hd & Hu & Ha & _).
  destruct (H d Hd) as [Hne|Hi]; congruence.
Qed.

(** C7.  A connection authenticated as [U] that sends [join_chat] for a
    chat that does not exist, is not owned by [U] or is inactive gets the
    error event CHAT_NOT_FOUND and nothing else, and the room table is left
    as it was: the connection is not subscribed.  The one query the handler
    sends carries both the chat id and the id of the requesting user. *)
Theorem join_denied env st socket chatId U :
  SocketService.authenticated socket = Some U ->
  (forall d, chats st !! chatId = Some d ->
             IChat.userId d <> U \/ IChat.isActive d = false) ->
  let r := SocketService.on_join_chat socket chatId env st in
  value r = Ok tt /\
  rooms (final r) = rooms st /\
  visible (emitted r) = [Emit (SocketService.id socket) access_denied] /\
  head (emitted r) = Some (DbFindOne chatId U).
Proof.
  intros Hauth Hdenied r. subst r.
  unfold SocketService.on_join_chat. rewrite Hauth.
  apply found_None in Hdenied.
  destruct (db_fault env (ops st)) as [e|] eqn:Hfault.
  - erewrite try_catch_ok.
    2:{ erewrite bind_ok; [|rewrite lookup_chat_run, Hfault; reflexivity].
        reflexivity. }
    cbn. auto.
  - erewrite try_catch_ok.
    2:{ erewrite bind_ok; [|rewrite lookup_chat_run, Hfault, Hdenied; reflexivity].
        reflexivity. }
    cbn. auto.
Qed.

(** ** The model router *)

Lemma buildContextForAI_run c env st :
  SessionMemoryService.buildContextForAI c env st =
  match db_fault env (ops st) with
  | Some e =>
      Build_Run (Ok EmptyString) (after_db_op st)
        [DbFindById c;
         Console ("Error building context for AI: " +:+ Js.describe e)]
  | None =>
      Build_Run
        (Ok (match chats st !! c with
             | Some d => SessionMemoryService.render (ChatModel.hydrate c d)
             | None => EmptyString
             end))
        (after_db_op st) [DbFindById c]
  end.
Proof.
  unfold SessionMemoryService.buildContextForAI.
  destruct (db_fault env (ops st)) as [e|] eqn:Hfault.
  - erewrite try_catch_throw.
    2:{ erewrite bind_throw; [reflexivity|]. rewrite findById_run, Hfault. reflexivity. }
    reflexivity.
  - erewrite try_catch_ok; [reflexivity|].
    erewrite bind_ok; [|rewrite findById_run, Hfault; reflexivity].
    destruct (chats st !! c); reflexivity.
Qed.

Lemma total_buildContextForAI c : total (SessionMemoryService.buildContextForAI c).
Proof.
  intros env st. rewrite buildContextForAI_run.
  destruct (db_fault env (ops st)); eexists; reflexivity.
Qed.

Lemma total_enhance prompt chatId : total (AIService.enhance prompt chatId).
Proof.
  unfold AIService.enhance. destruct chatId as [c|]; [|apply total_ret].
  destruct (Js.truthy c); [|apply total_ret].
  apply total_bind; [apply total_buildContextForAI|].
  intros ctx. destruct (Js.truthy ctx); auto with total.
Qed.

Lemma calls_enhance prompt chatId env st :
  calls (final (AIService.enhance prompt chatId env st)) = calls st.
Proof.
  unfold AIService.enhance. destruct chatId as [c|]; [|reflexivity].
  destruct (Js.truthy c); [|reflexivity].
  rewrite final_bind, buildContextForAI_run.
  destruct (db_fault env (ops st)); cbn [value final].
  - reflexivity.
  - destruct (Js.truthy _); reflexivity.
Qed.

Lemma callGPT4_run prompt topics env st :
  AIService.callGPT4 prompt topics env st =
  let sys := AIService.generateSystemPrompt topics in
  match openai env (calls st) sys prompt with
  | Resolved content tokens =>
      Build_Run
        (Ok (AIResponse.make (Js.or_else content "No response generated") GPT4
               true None tokens (Some (elapsed env st))))
        (after_now (after_request (after_now st)))
        [ApiRequest "gpt-4" sys prompt]
  | Rejected e =>
      Build_Run
        (Ok (AIResponse.make EmptyString GPT4 false
               (Some (if Js.instanceof_Error e then Js.message_of e
                      else "GPT-4 API error"))
               None (Some (elapsed env st))))
        (after_now (after_request (after_now st)))
        [ApiRequest "gpt-4" sys prompt;
         Console ("GPT-4 API error: " +:+ Js.message_of e)]
  end.
Proof.
  unfold AIService.callGPT4, bind, try_catch, openai_create, now. cbn.
  destruct (openai env (calls st) _ prompt); reflexivity.
Qed.

Lemma total_modelFunctions m prompt topics :
  total (AIService.modelFunctions m prompt topics).
Proof.
  intros env st. destruct m; cbn [AIService.modelFunctions].
  - rewrite callGPT4_run. cbv zeta.
    destruct (openai env (calls st) _ prompt); eexists; reflexivity.
  - eexists; reflexivity.
  - eexists; reflexivity.
  - eexists; reflexivity.
Qed.

(** A backend that answers [success] was asked and did answer. *)
Lemma modelFunctions_failure m prompt topics env st resp :
  (forall sys usr, exists e, openai env (calls st) sys usr = Rejected e) ->
  value (AIService.modelFunctions m prompt topics env st) = Ok resp ->
  AIResponse.success resp = false.
Proof.
  intros Hdown. destruct m; cbn [AIService.modelFunctions].
  - rewrite callGPT4_run. cbv zeta.
    destruct (Hdown (AIService.generateSystemPrompt topics) prompt) as [e ->].
    intros [= <-]. reflexivity.
  - intros [= <-]. reflexivity.
  - intros [= <-]. reflexivity.
  - intros [= <-]. reflexivity.
Qed.

Lemma generateAIResponse_run prompt topics chatId pm env st p resp :
  let sel := default (AIService.selectModel topics) pm in
  let e := AIService.enhance prompt chatId env st in
  let b := AIService.modelFunctions sel p topics env (final e) in
  value e = Ok p ->
  value b = Ok resp ->
  AIService.generateAIResponse prompt topics chatId pm env st =
  Build_Run
    (Ok (if AIResponse.success resp then resp else AIService.unavailable))
    (final b)
    (emitted e ++ attempt_line sel p :: emitted b ++ verdict_lines sel resp).
Proof.
  intros sel e b He Hb. subst e b.
  unfold AIService.generateAIResponse.
  destruct (AIService.enhance prompt chatId env st) as [v1 st1 tr1] eqn:E1.
  cbn [value final emitted] in *. subst v1.
  erewrite bind_ok by exact E1.
  erewrite bind_ok by reflexivity.
  fold sel.
  destruct (AIService.modelFunctions sel p topics env st1) as [v2 st2 tr2] eqn:E2.
  cbn [value final emitted] in *. subst v2.
  erewrite bind_ok by exact E2.
  unfold verdict_lines, attempt_line.
  destruct (AIResponse.success resp).
  - erewrite bind_ok by reflexivity. reflexivity.
  - erewrite bind_ok by reflexivity. erewrite bind_ok by reflexivity.
    reflexivity.
Qed.

(** C5.  [generateAIResponse] never throws: for every prompt, topic list,
    chat id and preferred model it returns a result.  When the OpenAI
    endpoint rejects the request, whatever the reason, the result is tagged
    [success = false], its text is the fallback message and its error
    reason is not empty. *)
Theorem generate_never_throws env st prompt topics chatId preferredModel :
  exists r,
    value (AIService.generateAIResponse prompt topics chatId preferredModel env st)
    = Ok r /\
    ((forall sys usr, exists e, openai env (calls st) sys usr = Rejected e) ->
     AIResponse.success r = false /\
     AIResponse.text r = AIService.fallback_text /\
     exists reason, AIResponse.error r = Some reason /\ reason <> EmptyString).
Proof.
  destruct (total_enhance prompt chatId env st) as [p Hp].
  destruct (total_modelFunctions
              (default (AIService.selectModel topics) preferredModel) p topics env
              (final (AIService.enhance prompt chatId env st))) as [resp Hresp].
  rewrite (generateAIResponse_run _ _ _ _ _ _ p resp Hp Hresp).
  eexists. split; [reflexivity|].
  intros Hdown.
  assert (AIResponse.success resp = false) as ->.
  { eapply modelFunctions_failure; [|exact Hresp].
    rewrite calls_enhance. exact Hdown. }
  cbn. repeat split. eexists. split; [reflexivity|discriminate].
Qed.

(** C2, as the code has it.  When the backend that was selected fails,
    [generateAIResponse] calls no other backend: it ends in the store in
    which the selected backend ended, its effects are those of the prompt
    assembly and of that one backend between its own console lines, and it
    returns the fallback message with the model [gpt-4] and the fixed
    reason [AI model unavailable]. *)
Theorem no_fallback_chain env st prompt topics chatId preferredModel p resp :
  let sel := default (AIService.selectModel topics) preferredModel in
  let e := AIService.enhance prompt chatId env st in
  let b := AIService.modelFunctions sel p topics env (final e) in
  let r := AIService.generateAIResponse prompt topics chatId preferredModel env st in
  value e = Ok p ->
  value b = Ok resp ->
  AIResponse.success resp = false ->
  value r = Ok AIService.unavailable /\
  final r = final b /\
  emitted r =
    emitted e ++ attempt_line sel p :: emitted b
    ++ [Console (AIModel_value sel +:+ " failed, no fallback available");
        Console "AI model failed"].
Proof.
  intros sel e b r He Hb Hfail. subst r.
  rewrite (generateAIResponse_run _ _ _ _ _ _ p resp He Hb).
  unfold verdict_lines. rewrite Hfail. auto.
Qed.

(** ** What the services emit *)

Ltac emits_step :=
  match goal with
  | |- emits _ (bind _ _) => apply emits_bind; [|intros ?]
  | |- emits _ (try_catch _ _) => apply emits_try_catch; [|intros ?]
  | |- emits _ (ret _) => apply emits_ret
  | |- emits _ (throw _) => apply emits_throw
  | |- emits _ (console _) => apply emits_console
  | |- emits _ (effect _) => apply emits_effect
  | |- emits _ now => apply emits_now
  | |- emits _ new_ObjectId => apply emits_new_ObjectId
  | |- emits _ read_chats => apply emits_read_chats
  | |- emits _ read_rooms => apply emits_read_rooms
  | |- emits _ (write_chat _ _) => apply emits_write_chat
  | |- emits _ (write_rooms _) => apply emits_write_rooms
  | |- emits _ (db_op _) => apply emits_db_op
  | |- emits _ (openai_create _ _ _) => apply emits_openai_create
  | |- emits _ (match ?x with _ => _ end) => destruct x
  end.

Ltac emits_auto := repeat emits_step; auto.

Lemma emits_bind_ret {A B} P (a : A) (k : A -> M B) :
  emits P (k a) -> emits P (bind (ret a) k).
Proof. intros H env st. rewrite emitted_bind. cbn. apply H. Qed.

Section EmitsServices.
Context (P : Effect -> Prop).
Hypothesis HP : allows_store P.

Lemma emits_findOne c u : emits P (ChatModel.findOne c u).
Proof. destruct HP as (? & ? & ?). unfold ChatModel.findOne. emits_auto. Qed.

Lemma emits_save doc : emits P (ChatModel.save doc).
Proof. destruct HP as (? & ? & ?). unfold ChatModel.save. emits_auto. Qed.

Lemma emits_addMessage doc draft : emits P (ChatModel.addMessage doc draft).
Proof.
  unfold ChatModel.addMessage. emits_auto. apply emits_save.
Qed.

Lemma emits_getChatById c u : emits P (ChatService.getChatById c u).
Proof.
  destruct HP as (? & ? & ?).
  unfold ChatService.getChatById, ChatModel.findChatWithMessages.
  emits_auto. apply emits_findOne.
Qed.

Lemma emits_addMessageToChat c u draft :
  emits P (ChatService.addMessageToChat c u draft).
Proof.
  destruct HP as (? & ? & ?). unfold ChatService.addMessageToChat.
  emits_auto; [apply emits_findOne|apply emits_addMessage].
Qed.

Lemma emits_lookup_chat u c line topics :
  emits P (SocketService.lookup_chat u c line topics).
Proof.
  destruct HP as (? & ? & ?). unfold SocketService.lookup_chat.
  emits_auto. apply emits_getChatById.
Qed.

Lemma emits_try_save c u draft line :
  emits P (SocketService.try_save c u draft line).
Proof.
  destruct HP as (? & ? & ?). unfold SocketService.try_save.
  emits_auto. apply emits_addMessageToChat.
Qed.

Lemma emits_with_timestamp draft : emits P (SocketService.with_timestamp draft).
Proof. unfold SocketService.with_timestamp. emits_auto. Qed.

Lemma emits_modelFunctions m prompt topics :
  (forall sys, P (ApiRequest "gpt-4" sys prompt)) ->
  emits P (AIService.modelFunctions m prompt topics).
Proof.
  intros Hreq. destruct HP as (? & ? & ?).
  destruct m; cbn [AIService.modelFunctions];
    unfold AIService.callGPT4, AIService.callClaude3,
      AIService.callMistral, AIService.callComposio, AIService.disabled;
    emits_auto.
Qed.

(** Without a chat id, the router sends the prompt as it got it. *)
Lemma emits_generate_plain prompt topics pm :
  (forall sys, P (ApiRequest "gpt-4" sys prompt)) ->
  emits P (AIService.generateAIResponse prompt topics None pm).
Proof.
  intros Hreq. destruct HP as (? & ? & ?).
  unfold AIService.generateAIResponse, AIService.enhance.
  apply emits_bind_ret.
  emits_auto. apply emits_modelFunctions. exact Hreq.
Qed.
End EmitsServices.

Lemma allows_store_quiet : allows_store quiet.
Proof. repeat split. Qed.

Lemma visible_app tr1 tr2 : visible (tr1 ++ tr2) = visible tr1 ++ visible tr2.
Proof. apply List.filter_app. Qed.

Lemma visible_quiet tr : Forall quiet tr -> visible tr = [].
Proof.
  induction 1 as [|e tr He _ IH]; [reflexivity|].
  unfold visible in *. cbn. rewrite He. exact IH.
Qed.

(** ** The message handler *)

Lemma try_save_run c u draft line env st :
  SocketService.try_save c u draft line env st =
  let a := ChatService.addMessageToChat c u draft env st in
  Build_Run (Ok tt) (final a)
    (emitted a ++
     match value a with
     | Ok _ => []
     | Throw e => [Console (line +:+ " " +:+ Js.describe e)]
     end).
Proof.
  unfold SocketService.try_save. cbv zeta.
  destruct (ChatService.addMessageToChat c u draft env st) as [[doc|e] st' tr] eqn:E.
  - erewrite try_catch_ok; [reflexivity|].
    erewrite bind_ok by exact E. reflexivity.
  - erewrite try_catch_throw; [reflexivity|].
    erewrite bind_throw by exact E. reflexivity.
Qed.

Lemma with_timestamp_run draft env st :
  SocketService.with_timestamp draft env st =
  Build_Run
    (Ok (IChatMessage.make (Draft.text draft) (Draft.sender draft)
           (clock env (reads st)) (Draft.aiModel draft)
           (Some (pretty (clock env (S (reads st)))))))
    (after_now (after_now st)) [].
Proof. reflexivity. Qed.

Lemma deliver_run socket u c resp env st :
  SocketService.deliver socket u c resp env st =
  if AIResponse.success resp && Js.truthy (AIResponse.text resp) then
    let aiMessage :=
      Draft.make (AIResponse.text resp) ai
        (Some (AIModel_value (AIResponse.model resp))) in
    let s := SocketService.try_save c u aiMessage SocketService.ai_save_failed
               env st in
    let am :=
      IChatMessage.make (AIResponse.text resp) ai (clock env (reads (final s)))
        (Some (AIModel_value (AIResponse.model resp)))
        (Some (pretty (clock env (S (reads (final s)))))) in
    Build_Run (Ok tt) (after_now (after_now (final s)))
      (emitted s ++
       [Broadcast c (EvMessage am c);
        Console ("AI response sent in chat " +:+ c +:+ " using "
                 +:+ AIModel_value (AIResponse.model resp))])
  else
    Build_Run (Ok tt) st
      [Emit (SocketService.id socket)
         (EvError (Js.or_else (AIResponse.error resp)
                     "AI response generation failed")
            "AI_ERROR" (Some c))].
Proof.
  unfold SocketService.deliver.
  destruct (AIResponse.success resp && Js.truthy (AIResponse.text resp));
    [|reflexivity].
  cbv zeta.
  match goal with |- context [SocketService.try_save ?a ?b ?d ?l env st] =>
    destruct (SocketService.try_save a b d l env st) as [v st' tr] eqn:E;
    pose proof (f_equal value E) as Ev; rewrite try_save_run in Ev;
    cbn [value] in Ev; subst v
  end.
  erewrite bind_ok by exact E.
  erewrite bind_ok by (rewrite with_timestamp_run; reflexivity).
  erewrite bind_ok by reflexivity.
  reflexivity.
Qed.

Lemma on_message_accepted env st socket text c U doc resp :
  let userMessage := Draft.make (Js.trim text) user None in
  let s := SocketService.try_save c U userMessage SocketService.user_save_failed
             env (after_db_op st) in
  let um :=
    IChatMessage.make (Js.trim text) user (clock env (reads (final s))) None
      (Some (pretty (clock env (S (reads (final s)))))) in
  let g := AIService.generateAIResponse text (IChat.topics (Document.fields doc))
             None None env (after_now (after_now (final s))) in
  let d := SocketService.deliver socket U c resp env (final g) in
  SocketService.authenticated socket = Some U ->
  acceptable text = true ->
  db_fault env (ops st) = None ->
  found st c U = Some doc ->
  value g = Ok resp ->
  SocketService.on_message socket text c env st =
  Build_Run (Ok tt) (final d)
    (DbFindOne c U :: emitted s
     ++ Broadcast c (EvMessage um c)
        :: Console ("Message sent in chat " +:+ c +:+ ": "
                    +:+ Js.prefix 50 text +:+ "...")
        :: Emit (SocketService.id socket)
             (EvAiThinking c "AI is generating response...")
        :: emitted g ++ emitted d).
Proof.
  intros userMessage s um g d Hauth Hacc Hfault Hfound Hg.
  unfold SocketService.on_message. rewrite Hauth.
  unfold acceptable in Hacc. apply andb_true_iff in Hacc as [H1 H2].
  apply negb_true_iff in H1, H2. rewrite H1, H2.
  assert (value d = Ok tt) as Hd.
  { unfold d. rewrite deliver_run.
    destruct (AIResponse.success resp && Js.truthy (AIResponse.text resp));
      reflexivity. }
  assert (s = Build_Run (Ok tt) (final s) (emitted s)) as Es.
  { unfold s. rewrite try_save_run. reflexivity. }
  assert (g = Build_Run (Ok resp) (final g) (emitted g)) as Eg.
  { destruct g as [vg stg trg]. cbn in Hg. subst vg. reflexivity. }
  assert (d = Build_Run (Ok tt) (final d) (emitted d)) as Ed.
  { destruct d as [vd std trd]. cbn in Hd. subst vd. reflexivity. }
  erewrite try_catch_ok; [reflexivity|].
  erewrite bind_ok; [|rewrite lookup_chat_run, Hfault, Hfound; reflexivity].
  cbn [fmap option_fmap option_map]. cbv beta iota.
  erewrite bind_ok by exact Es.
  erewrite bind_ok; [|rewrite with_timestamp_run; reflexivity].
  erewrite bind_ok by reflexivity.
  erewrite bind_ok by reflexivity.
  erewrite bind_ok by reflexivity.
  erewrite bind_ok by exact Eg.
  fold d. rewrite Ed.
  reflexivity.
Qed.

Lemma visible_try_save c u draft line env st :
  visible (emitted (SocketService.try_save c u draft line env st)) = [].
Proof. apply visible_quiet, emits_try_save, allows_store_quiet. Qed.

Lemma visible_generate_plain prompt topics pm env st :
  visible (emitted (AIService.generateAIResponse prompt topics None pm env st)) = [].
Proof.
  apply visible_quiet, emits_generate_plain; [apply allows_store_quiet|].
  intros sys. reflexivity.
Qed.

Lemma visible_deliver socket u c resp env st :
  visible (emitted (SocketService.deliver socket u c resp env st)) =
  if AIResponse.success resp && Js.truthy (AIResponse.text resp) then
    let s := SocketService.try_save c u
               (Draft.make (AIResponse.text resp) ai
                  (Some (AIModel_value (AIResponse.model resp))))
               SocketService.ai_save_failed env st in
    [Broadcast c
       (EvMessage
          (IChatMessage.make (AIResponse.text resp) ai
             (clock env (reads (final s)))
             (Some (AIModel_value (AIResponse.model resp)))
             (Some (pretty (clock env (S (reads (final s)))))))
          c)]
  else
    [Emit (SocketService.id socket)
       (EvError (Js.or_else (AIResponse.error resp)
                   "AI response generation failed")
          "AI_ERROR" (Some c))].
Proof.
  rewrite deliver_run.
  destruct (AIResponse.success resp && Js.truthy (AIResponse.text resp));
    [|reflexivity].
  cbv zeta. cbn [emitted]. rewrite visible_app, visible_try_save. reflexivity.
Qed.

Lemma total_on_message socket text c :
  total (SocketService.on_message socket text c).
Proof.
  unfold SocketService.on_message. apply total_try_catch.
  intros e. apply total_bind; [apply total_console|].
  intros _. apply total_effect.
Qed.

Lemma value_on_message socket text c env st :
  value (SocketService.on_message socket text c env st) = Ok tt.
Proof.
  destruct (total_on_message socket text c env st) as [[] H]. exact H.
Qed.

Lemma total_generate prompt topics chatId pm :
  total (AIService.generateAIResponse prompt topics chatId pm).
Proof.
  intros env st.
  destruct (total_enhance prompt chatId env st) as [p Hp].
  destruct (total_modelFunctions
              (default (AIService.selectModel topics) pm) p topics env
              (final (AIService.enhance prompt chatId env st))) as [resp Hresp].
  rewrite (generateAIResponse_run _ _ _ _ _ _ p resp Hp Hresp).
  eexists. reflexivity.
Qed.

(** An event that is not accepted is answered by one error event, and by
    nothing else. *)
Lemma on_message_rejected env st socket text c :
  match SocketService.authenticated socket with
  | None => True
  | Some U =>
      acceptable text = false \/
      db_fault env (ops st) <> None \/
      found st c U = None
  end ->
  exists message code,
    visible (emitted (SocketService.on_message socket text c env st)) =
    [Emit (SocketService.id socket) (EvError message code None)].
Proof.
  intros H. unfold SocketService.on_message.
  destruct (SocketService.authenticated socket) as [U|].
  2:{ erewrite try_catch_ok by reflexivity. cbn. eauto. }
  destruct (negb (Js.truthy text) || (String.length (Js.trim text) =? 0)%nat)
    eqn:H1.
  { erewrite try_catch_ok by reflexivity. cbn. eauto. }
  destruct (5000 <? String.length text)%nat eqn:H2.
  { erewrite try_catch_ok by reflexivity. cbn. eauto. }
  destruct H as [H|[H|H]].
  { unfold acceptable in H. rewrite H1, H2 in H. discriminate. }
  - destruct (db_fault env (ops st)) as [e|] eqn:Hfault; [|congruence].
    erewrite try_catch_ok.
    2:{ erewrite bind_ok; [|rewrite lookup_chat_run, Hfault; reflexivity].
        reflexivity. }
    cbn. eauto.
  - destruct (db_fault env (ops st)) as [e|] eqn:Hfault.
    + erewrite try_catch_ok.
      2:{ erewrite bind_ok; [|rewrite lookup_chat_run, Hfault; reflexivity].
          reflexivity. }
      cbn. eauto.
    + erewrite try_catch_ok.
      2:{ erewrite bind_ok; [|rewrite lookup_chat_run, Hfault, H; reflexivity].
          reflexivity. }
      cbn. eauto.
Qed.

Section EmitsHandlers.
Context (P : Effect -> Prop).
Hypothesis HP : allows_store P.
Hypothesis Hemit : forall sid ev, P (Emit sid ev).
Hypothesis Hbroadcast : forall room ev, P (Broadcast room ev).

Lemma emits_emit socket ev : emits P (SocketService.emit socket ev).
Proof. apply emits_effect, Hemit. Qed.

Lemma emits_io_to_emit room ev : emits P (SocketService.io_to_emit room ev).
Proof. apply emits_effect, Hbroadcast. Qed.

Lemma emits_deliver socket u c resp :
  emits P (SocketService.deliver socket u c resp).
Proof.
  destruct HP as (? & ? & ?). unfold SocketService.deliver.
  emits_auto;
    auto using emits_try_save, emits_with_timestamp, emits_emit,
      emits_io_to_emit.
Qed.

Lemma emits_on_message socket text c :
  (forall sys, P (ApiRequest "gpt-4" sys text)) ->
  emits P (SocketService.on_message socket text c).
Proof.
  intros Hreq. destruct HP as (? & ? & ?). unfold SocketService.on_message.
  emits_auto;
    auto using emits_try_save, emits_with_timestamp, emits_emit,
      emits_io_to_emit, emits_lookup_chat, emits_generate_plain,
      emits_deliver.
Qed.
End EmitsHandlers.

Lemma elem_of_visible e tr : e ∈ tr -> is_visible e = true -> e ∈ visible tr.
Proof.
  intros Hin Hv. apply list_elem_of_In, List.filter_In. split; [|exact Hv].
  apply list_elem_of_In, Hin.
Qed.

(** ** The trace of the message handler *)

Lemma requests_app tr1 tr2 : requests (tr1 ++ tr2) = requests tr1 ++ requests tr2.
Proof. apply List.filter_app. Qed.

Lemma requests_none tr :
  Forall (fun e => is_request e = false) tr -> requests tr = [].
Proof.
  induction 1 as [|e tr He _ IH]; [reflexivity|].
  unfold requests in *. cbn [List.filter]. rewrite He. exact IH.
Qed.

Lemma allows_store_no_request : allows_store (fun e => is_request e = false).
Proof. repeat split. Qed.

Lemma requests_addMessageToChat c u draft env st :
  requests (emitted (ChatService.addMessageToChat c u draft env st)) = [].
Proof.
  apply requests_none, emits_addMessageToChat, allows_store_no_request.
Qed.

(** Without a chat id and without a preferred model, the router sends one
    request: the prompt as it got it, to gpt-4, with the system prompt of
    the topics. *)
Lemma requests_generate_plain prompt topics env st :
  requests (emitted (AIService.generateAIResponse prompt topics None None env st))
  = [ApiRequest "gpt-4" (AIService.generateSystemPrompt topics) prompt].
Proof.
  destruct (total_modelFunctions GPT4 prompt topics env st) as [resp Hresp].
  rewrite (generateAIResponse_run prompt topics None None env st prompt resp);
    [|reflexivity|exact Hresp].
  cbn [emitted final default from_option AIService.enhance ret app id].
  unfold AIService.selectModel.
  change (requests (attempt_line GPT4 prompt :: ?l)) with (requests l).
  rewrite requests_app.
  assert (requests (verdict_lines GPT4 resp) = []) as ->
    by (unfold verdict_lines; destruct (AIResponse.success resp); reflexivity).
  rewrite app_nil_r. cbn [AIService.modelFunctions].
  rewrite callGPT4_run. cbv zeta.
  destruct (openai env _ _ prompt); reflexivity.
Qed.

(** What follows the generation, effect by effect. *)
Lemma deliver_trace socket U c resp env st :
  emitted (SocketService.deliver socket U c resp env st) =
  if AIResponse.success resp && Js.truthy (AIResponse.text resp) then
    let a :=
      ChatService.addMessageToChat c U
        (Draft.make (AIResponse.text resp) ai
           (Some (AIModel_value (AIResponse.model resp)))) env st in
    let am :=
      IChatMessage.make (AIResponse.text resp) ai (clock env (reads (final a)))
        (Some (AIModel_value (AIResponse.model resp)))
        (Some (pretty (clock env (S (reads (final a)))))) in
    emitted a
    ++ match value a with
       | Ok _ => []
       | Throw e =>
           [Console (SocketService.ai_save_failed +:+ " " +:+ Js.describe e)]
       end
    ++ [Broadcast c (EvMessage am c);
        Console ("AI response sent in chat " +:+ c +:+ " using "
                 +:+ AIModel_value (AIResponse.model resp))]
  else
    [Emit (SocketService.id socket)
       (EvError (Js.or_else (AIResponse.error resp)
                   "AI response generation failed")
          "AI_ERROR" (Some c))].
Proof.
  rewrite deliver_run.
  destruct (AIResponse.success resp && Js.truthy (AIResponse.text resp));
    [|reflexivity].
  cbv zeta. cbn [emitted]. rewrite try_save_run. cbn [emitted final].
  rewrite <- app_assoc. reflexivity.
Qed.

(** The whole trace of a [message] event whose text passes the checks and
    whose chat is found: the lookup, the append of the user's message and
    the line of its [catch] block, the broadcast, [ai_thinking], the
    generation, and what follows it. *)
Lemma on_message_trace env st socket text c U doc :
  let a := ChatService.addMessageToChat c U
             (Draft.make (Js.trim text) user None) env (after_db_op st) in
  let um :=
    IChatMessage.make (Js.trim text) user (clock env (reads (final a))) None
      (Some (pretty (clock env (S (reads (final a)))))) in
  let g := AIService.generateAIResponse text (IChat.topics (Document.fields doc))
             None None env (after_now (after_now (final a))) in
  SocketService.authenticated socket = Some U ->
  acceptable text = true ->
  db_fault env (ops st) = None ->
  found st c U = Some doc ->
  exists resp,
    value g = Ok resp /\
    emitted (SocketService.on_message socket text c env st) =
    DbFindOne c U :: emitted a
    ++ match value a with
       | Ok _ => []
       | Throw e =>
           [Console (SocketService.user_save_failed +:+ " " +:+ Js.describe e)]
       end
    ++ Broadcast c (EvMessage um c)
       :: Console ("Message sent in chat " +:+ c +:+ ": "
                   +:+ Js.prefix 50 text +:+ "...")
       :: Emit (SocketService.id socket)
            (EvAiThinking c "AI is generating response...")
       :: emitted g
       ++ emitted (SocketService.deliver socket U c resp env (final g)).
Proof.
  intros a um g Hauth Hacc Hfault Hfound.
  assert (final (SocketService.try_save c U (Draft.make (Js.trim text) user None)
                   SocketService.user_save_failed env (after_db_op st))
          = final a) as Hfinal by (rewrite try_save_run; reflexivity).
  destruct (total_generate text (IChat.topics (Document.fields doc)) None None
              env (after_now (after_now (final a)))) as [resp Hresp].
  exists resp. split; [exact Hresp|].
  rewrite (on_message_accepted env st socket text c U doc resp
             Hauth Hacc Hfault Hfound);
    [|rewrite Hfinal; exact Hresp].
  cbn [emitted]. rewrite Hfinal. rewrite try_save_run. cbn [emitted].
  fold a. rewrite <- app_assoc. reflexivity.
Qed.

(** The store operations of an append: the scoped lookup first, and the
    write when the append returns. *)
Lemma addMessageToChat_trace c u draft env st :
  exists rest,
    emitted (ChatService.addMessageToChat c u draft env st)
    = DbFindOne c u :: rest /\
    (forall doc,
       value (ChatService.addMessageToChat c u draft env st) = Ok doc ->
       rest = [DbSave c]).
Proof.
  rewrite addMessageToChat_run. cbv zeta.
  destruct (db_fault env (ops st)); [eexists; split; [reflexivity|discriminate]|].
  destruct (found st c u) as [doc|] eqn:Hfound;
    [|eexists; split; [reflexivity|discriminate]].
  apply found_Some in Hfound as (d & _ & _ & _ & ->).
  cbn [Document._id Document.fields ChatModel.hydrate].
  destruct (ChatModel.validate _);
    [|eexists; split; [reflexivity|discriminate]].
  destruct (db_fault env _); eexists; (split; [reflexivity|]);
    [discriminate|reflexivity].
Qed.

(** An event that is not handled leaves the collection alone. *)
Lemma on_message_refused env st socket text c :
  match SocketService.authenticated socket with
  | None => True
  | Some U =>
      acceptable text = false \/
      db_fault env (ops st) <> None \/
      found st c U = None
  end ->
  chats (final (SocketService.on_message socket text c env st)) = chats st.
Proof.
  intros H. unfold SocketService.on_message.
  destruct (SocketService.authenticated socket) as [U|].
  2:{ erewrite try_catch_ok by reflexivity. reflexivity. }
  destruct (negb (Js.truthy text) || (String.length (Js.trim text) =? 0)%nat)
    eqn:H1.
  { erewrite try_catch_ok by reflexivity. reflexivity. }
  destruct (5000 <? String.length text)%nat eqn:H2.
  { erewrite try_catch_ok by reflexivity. reflexivity. }
  destruct H as [H|[H|H]].
  { unfold acceptable in H. rewrite H1, H2 in H. discriminate. }
  - destruct (db_fault env (ops st)) as [e|] eqn:Hfault; [|congruence].
    erewrite try_catch_ok.
    2:{ erewrite bind_ok; [|rewrite lookup_chat_run, Hfault; reflexivity].
        reflexivity. }
    reflexivity.
  - destruct (db_fault env (ops st)) as [e|] eqn:Hfault.
    + erewrite try_catch_ok.
      2:{ erewrite bind_ok; [|rewrite lookup_chat_run, Hfault; reflexivity].
          reflexivity. }
      reflexivity.
    + erewrite try_catch_ok.
      2:{ erewrite bind_ok; [|rewrite lookup_chat_run, Hfault, H; reflexivity].
          reflexivity. }
      reflexivity.
Qed.

Lemma visible_addMessageToChat c u draft env st :
  visible (emitted (ChatService.addMessageToChat c u draft env st)) = [].
Proof. apply visible_quiet, emits_addMessageToChat, allows_store_quiet. Qed.

Lemma visible_cons_quiet e tr : is_visible e = false -> visible (e :: tr) = visible tr.
Proof. intros He. unfold visible. cbn [List.filter]. rewrite He. reflexivity. Qed.

(** The events that reach a client from the trace of a handled [message]
    event. *)
Lemma visible_handled {A} c U line (a : Run A) um thinking rest1 rest2 console_line :
  visible (emitted a) = [] ->
  visible rest1 = [] ->
  visible
    (DbFindOne c U :: emitted a
     ++ match value a with
        | Ok _ => []
        | Throw e => [Console (line +:+ " " +:+ Js.describe e)]
        end
     ++ Broadcast c um :: Console console_line :: Emit thinking.1 thinking.2
        :: rest1 ++ rest2)
  = Broadcast c um :: Emit thinking.1 thinking.2 :: visible rest2.
Proof.
  intros Ha H1.
  rewrite visible_cons_quiet by reflexivity.
  rewrite !visible_app, Ha.
  assert (visible match value a with
                  | Ok _ => []
                  | Throw e => [Console (line +:+ " " +:+ Js.describe e)]
                  end = []) as -> by (destruct (value a); reflexivity).
  cbn [app]. unfold visible at 1. cbn [List.filter is_visible].
  fold (visible (rest1 ++ rest2)). rewrite visible_app, H1. reflexivity.
Qed.

(** C9.  A [message] event always ends normally.  An event is handled
    when the connection is authenticated, the text passes the checks, the
    database answers the lookup and the chat is an active chat of the
    user.  An event that is not handled is answered by a single error
    event; nothing is broadcast and the collection is left as it was.  For
    an event that is handled, the trace is, in this order: the lookup;
    the append of the user's message, which queries the collection and,
    when it returns, has written the chat (and which leaves one console
    line when it throws); the broadcast of the user's message to the room;
    [ai_thinking] to the origin connection; the generation; and then,
    when the generation returned a success with a text, the append and
    the broadcast of the AI message, and otherwise an AI_ERROR event to
    the origin connection and no broadcast. *)
Theorem message_order env st socket text chatId :
  let r := SocketService.on_message socket text chatId env st in
  let sid := SocketService.id socket in
  let handled :=
    exists U d,
      SocketService.authenticated socket = Some U /\
      acceptable text = true /\
      db_fault env (ops st) = None /\
      chats st !! chatId = Some d /\
      IChat.userId d = U /\ IChat.isActive d = true in
  value r = Ok tt /\
  (~ handled ->
   chats (final r) = chats st /\
   exists message code,
     visible (emitted r) = [Emit sid (EvError message code None)]) /\
  (forall U d,
     SocketService.authenticated socket = Some U ->
     acceptable text = true ->
     db_fault env (ops st) = None ->
     chats st !! chatId = Some d ->
     IChat.userId d = U -> IChat.isActive d = true ->
     let a := ChatService.addMessageToChat chatId U
                (Draft.make (Js.trim text) user None) env (after_db_op st) in
     let um :=
       IChatMessage.make (Js.trim text) user (clock env (reads (final a)))
         None (Some (pretty (clock env (S (reads (final a)))))) in
     let g := AIService.generateAIResponse text (IChat.topics d) None None env
                (after_now (after_now (final a))) in
     exists resp written reply,
       value g = Ok resp /\
       emitted a = DbFindOne chatId U :: written /\
       (forall doc, value a = Ok doc -> written = [DbSave chatId]) /\
       emitted r =
         DbFindOne chatId U :: emitted a
         ++ match value a with
            | Ok _ => []
            | Throw e =>
                [Console (SocketService.user_save_failed +:+ " "
                          +:+ Js.describe e)]
            end
         ++ Broadcast chatId (EvMessage um chatId)
            :: Console ("Message sent in chat " +:+ chatId +:+ ": "
                        +:+ Js.prefix 50 text +:+ "...")
            :: Emit sid (EvAiThinking chatId "AI is generating response...")
            :: emitted g ++ reply /\
       visible (emitted r) =
         Broadcast chatId (EvMessage um chatId)
         :: Emit sid (EvAiThinking chatId "AI is generating response...")
         :: visible reply /\
       if AIResponse.success resp && Js.truthy (AIResponse.text resp) then
         let a' :=
           ChatService.addMessageToChat chatId U
             (Draft.make (AIResponse.text resp) ai
                (Some (AIModel_value (AIResponse.model resp)))) env (final g) in
         let am :=
           IChatMessage.make (AIResponse.text resp) ai
             (clock env (reads (final a')))
             (Some (AIModel_value (AIResponse.model resp)))
             (Some (pretty (clock env (S (reads (final a')))))) in
         reply =
           emitted a'
           ++ match value a' with
              | Ok _ => []
              | Throw e =>
                  [Console (SocketService.ai_save_failed +:+ " "
                            +:+ Js.describe e)]
              end
           ++ [Broadcast chatId (EvMessage am chatId);
               Console ("AI response sent in chat " +:+ chatId +:+ " using "
                        +:+ AIModel_value (AIResponse.model resp))] /\
         visible reply = [Broadcast chatId (EvMessage am chatId)]
       else
         reply =
           [Emit sid
              (EvError (Js.or_else (AIResponse.error resp)
                          "AI response generation failed")
                 "AI_ERROR" (Some chatId))]).
Proof.
  intros r sid handled. split; [apply value_on_message|]. split.
  - intros Hnot.
    assert (match SocketService.authenticated socket with
            | None => True
            | Some U =>
                acceptable text = false \/
                db_fault env (ops st) <> None \/
                found st chatId U = None
            end) as Hrefused.
    { destruct (SocketService.authenticated socket) as [U|] eqn:Hauth;
        [|exact I].
      destruct (acceptable text) eqn:Hacc; [|auto].
      destruct (db_fault env (ops st)) as [e|] eqn:Hfault;
        [right; left; discriminate|].
      destruct (found st chatId U) as [doc|] eqn:Hfound; [|auto].
      exfalso. apply Hnot.
      apply found_Some in Hfound as (d & Hd & Hu & Ha & _).
      exists U, d. repeat split; assumption. }
    split; [apply on_message_refused, Hrefused
           |apply on_message_rejected, Hrefused].
  - intros U d Hauth Hacc Hfault Hd Hu Ha a um g.
    destruct (on_message_trace env st socket text chatId U
                (ChatModel.hydrate chatId d) Hauth Hacc Hfault
                (found_owner st chatId U d Hd Hu Ha)) as (resp & Hresp & Htrace).
    cbn [Document.fields ChatModel.hydrate] in Hresp, Htrace.
    fold a um g in Hresp, Htrace.
    destruct (addMessageToChat_trace chatId U
                (Draft.make (Js.trim text) user None) env (after_db_op st))
      as (written & Hwritten & Hsaved).
    fold a in Hwritten, Hsaved.
    exists resp, written,
      (emitted (SocketService.deliver socket U chatId resp env (final g))).
    split; [exact Hresp|]. split; [exact Hwritten|]. split; [exact Hsaved|].
    split; [exact Htrace|]. split.
    + unfold r. rewrite Htrace.
      apply (visible_handled chatId U SocketService.user_save_failed a
               (EvMessage um chatId)
               (sid, EvAiThinking chatId "AI is generating response...")).
      * apply visible_addMessageToChat.
      * apply visible_generate_plain.
    + rewrite deliver_trace.
      destruct (AIResponse.success resp && Js.truthy (AIResponse.text resp));
        [|reflexivity].
      cbv zeta. split; [reflexivity|].
      rewrite !visible_app, visible_addMessageToChat.
      match goal with |- context [match ?v with Ok _ => _ | Throw _ => _ end] =>
        destruct v
      end; reflexivity.
Qed.

(** C1, as the code has it.  For a [message] event of an authenticated
    connection whose text passes the checks and whose chat is found, the
    handler calls [addMessageToChat] on the trimmed text before it sends
    anything.  When that call throws, the handler writes one line to the
    server console and goes on: the user's message is broadcast, the
    [ai_thinking] notice is sent, and the AI step runs: the generation is
    called on the text and the topics of the chat, sends its one request
    to the backend and returns, and its result is answered by the
    broadcast of the AI message or by an AI_ERROR event, which is the
    only error event the handler can emit. *)
Theorem save_failure_is_logged env st socket text chatId U doc :
  let a := ChatService.addMessageToChat chatId U
             (Draft.make (Js.trim text) user None) env (after_db_op st) in
  let r := SocketService.on_message socket text chatId env st in
  let g := AIService.generateAIResponse text
             (IChat.topics (Document.fields doc)) None None env
             (after_now (after_now (final a))) in
  SocketService.authenticated socket = Some U ->
  acceptable text = true ->
  db_fault env (ops st) = None ->
  found st chatId U = Some doc ->
  value r = Ok tt /\
  (exists um resp reply,
     emitted r =
       DbFindOne chatId U :: emitted a
       ++ match value a with
          | Ok _ => []
          | Throw e =>
              [Console (SocketService.user_save_failed +:+ " " +:+ Js.describe e)]
          end
       ++ Broadcast chatId (EvMessage um chatId)
          :: Console ("Message sent in chat " +:+ chatId +:+ ": "
                      +:+ Js.prefix 50 text +:+ "...")
          :: Emit (SocketService.id socket)
               (EvAiThinking chatId "AI is generating response...")
          :: emitted g ++ reply /\
     IChatMessage.sender um = user /\
     IChatMessage.text um = Js.trim text /\
     value g = Ok resp /\
     requests (emitted g)
     = [ApiRequest "gpt-4"
          (AIService.generateSystemPrompt (IChat.topics (Document.fields doc)))
          text] /\
     if AIResponse.success resp && Js.truthy (AIResponse.text resp) then
       exists am,
         visible reply = [Broadcast chatId (EvMessage am chatId)] /\
         IChatMessage.sender am = ai /\
         IChatMessage.text am = AIResponse.text resp
     else
       reply =
         [Emit (SocketService.id socket)
            (EvError (Js.or_else (AIResponse.error resp)
                        "AI response generation failed")
               "AI_ERROR" (Some chatId))]) /\
  (forall sid message code cid,
     Emit sid (EvError message code cid) ∈ emitted r -> code = "AI_ERROR").
Proof.
  intros a r g Hauth Hacc Hfault Hfound.
  split; [apply value_on_message|].
  destruct (on_message_trace env st socket text chatId U doc
              Hauth Hacc Hfault Hfound) as (resp & Hresp & Htrace).
  fold a g in Hresp, Htrace.
  split.
  - eexists _, resp,
      (emitted (SocketService.deliver socket U chatId resp env (final g))).
    split; [exact Htrace|]. split; [reflexivity|]. split; [reflexivity|].
    split; [exact Hresp|]. split; [apply requests_generate_plain|].
    pose proof (visible_deliver socket U chatId resp env (final g)) as Hvis.
    rewrite deliver_trace.
    rewrite deliver_trace in Hvis.
    destruct (AIResponse.success resp && Js.truthy (AIResponse.text resp));
      [|reflexivity].
    cbv zeta in *. eexists. split; [exact Hvis|]. split; reflexivity.
  - intros sid message code cid Hin.
    apply elem_of_visible in Hin; [|reflexivity].
    unfold r in Hin. rewrite Htrace in Hin.
    rewrite (visible_handled chatId U SocketService.user_save_failed a
               (EvMessage _ chatId)
               (SocketService.id socket,
                EvAiThinking chatId "AI is generating response...")) in Hin.
    + rewrite visible_deliver in Hin.
      apply elem_of_cons in Hin as [Hin|Hin]; [discriminate|].
      apply elem_of_cons in Hin as [Hin|Hin]; [discriminate|].
      destruct (AIResponse.success resp && Js.truthy (AIResponse.text resp));
        apply list_elem_of_singleton in Hin; [discriminate|].
      injection Hin as _ _ <- _. reflexivity.
    + apply visible_addMessageToChat.
    + apply visible_generate_plain.
Qed.

Lemma on_message_bypasses_memory env st socket text chatId :
  Forall (bypasses_memory text)
    (emitted (SocketService.on_message socket text chatId env st)).
Proof.
  apply emits_on_message; try (intros; exact I).
  - repeat split.
  - intros sys. reflexivity.
Qed.

Lemma requests_deliver socket U c resp env st :
  requests (emitted (SocketService.deliver socket U c resp env st)) = [].
Proof.
  apply requests_none, emits_deliver;
    [apply allows_store_no_request|reflexivity|reflexivity].
Qed.

(** C3, as the code has it.  The [message] handler never consults the
    session memory (no [Chat.findById] is sent, while both
    [extractAndStoreUserInfo] and [buildContextForAI] start with one), and
    every prompt it has the backend receive is the text of the event, as
    it came.  For an event that it handles (the connection is
    authenticated, the text passes the checks, the database answers the
    lookup and the chat is an active chat of the user) it calls
    [generateAIResponse] once, with the text, the topics of the chat, no
    chat id and no preferred model, and the backend receives exactly one
    request: the text, under the system prompt of these topics. *)
Theorem prompt_without_memory env st socket text chatId :
  let tr := emitted (SocketService.on_message socket text chatId env st) in
  (forall c, DbFindById c ∉ tr) /\
  (forall model sys prompt, ApiRequest model sys prompt ∈ tr -> prompt = text) /\
  (forall U d,
     SocketService.authenticated socket = Some U ->
     acceptable text = true ->
     db_fault env (ops st) = None ->
     chats st !! chatId = Some d ->
     IChat.userId d = U -> IChat.isActive d = true ->
     (exists before st' after,
        tr = before
             ++ emitted (AIService.generateAIResponse text (IChat.topics d)
                           None None env st')
             ++ after /\
        requests before = [] /\ requests after = []) /\
     requests tr
     = [ApiRequest "gpt-4" (AIService.generateSystemPrompt (IChat.topics d))
          text]).
Proof.
  intros tr.
  pose proof (on_message_bypasses_memory env st socket text chatId) as H.
  rewrite Forall_forall in H. split; [|split].
  - intros c Hin. exact (H _ Hin).
  - intros model sys prompt Hin. exact (H _ Hin).
  - intros U d Hauth Hacc Hfault Hd Hu Ha.
    destruct (on_message_trace env st socket text chatId U
                (ChatModel.hydrate chatId d) Hauth Hacc Hfault
                (found_owner st chatId U d Hd Hu Ha)) as (resp & Hresp & Htrace).
    cbn [Document.fields ChatModel.hydrate] in Hresp, Htrace.
    set (a := ChatService.addMessageToChat chatId U
                (Draft.make (Js.trim text) user None) env (after_db_op st))
      in *.
    set (g := AIService.generateAIResponse text (IChat.topics d) None None env
                (after_now (after_now (final a)))) in *.
    set (before :=
           DbFindOne chatId U :: emitted a
           ++ match value a with
              | Ok _ => []
              | Throw e =>
                  [Console (SocketService.user_save_failed +:+ " "
                            +:+ Js.describe e)]
              end
           ++ [Broadcast chatId
                 (EvMessage
                    (IChatMessage.make (Js.trim text) user
                       (clock env (reads (final a))) None
                       (Some (pretty (clock env (S (reads (final a)))))))
                    chatId);
               Console ("Message sent in chat " +:+ chatId +:+ ": "
                        +:+ Js.prefix 50 text +:+ "...");
               Emit (SocketService.id socket)
                 (EvAiThinking chatId "AI is generating response...")]).
    assert (tr = before ++ emitted g
                 ++ emitted (SocketService.deliver socket U chatId resp env
                               (final g))) as Htr.
    { unfold tr. rewrite Htrace. unfold before. cbn [app].
      rewrite <- !app_assoc. reflexivity. }
    assert (requests before = []) as Hbefore.
    { unfold before.
      change (requests (DbFindOne chatId U :: ?l)) with (requests l).
      rewrite !requests_app. unfold a at 1. rewrite requests_addMessageToChat.
      destruct (value a); reflexivity. }
    split.
    + exists before, (after_now (after_now (final a))),
        (emitted (SocketService.deliver socket U chatId resp env (final g))).
      split; [exact Htr|]. split; [exact Hbefore|apply requests_deliver].
    + rewrite Htr, !requests_app, Hbefore, requests_deliver, app_nil_r.
      apply requests_generate_plain.
Qed.

(** ** The assembled context *)

Lemma append_nil_r s : s +:+ "" = s.
Proof.
  induction s as [|c s IH]; [reflexivity|].
  change (String c (s +:+ "") = String c s). f_equal. exact IH.
Qed.

Lemma append_assoc s1 s2 s3 : (s1 +:+ s2) +:+ s3 = s1 +:+ s2 +:+ s3.
Proof.
  induction s1 as [|c s1 IH]; [reflexivity|].
  change (String c ((s1 +:+ s2) +:+ s3) = String c (s1 +:+ s2 +:+ s3)).
  f_equal. exact IH.
Qed.

Lemma cat_app l1 l2 : cat (l1 ++ l2) = cat l1 +:+ cat l2.
Proof.
  induction l1 as [|x l1 IH]; cbn [fold_right app]; [reflexivity|].
  rewrite IH, append_assoc. reflexivity.
Qed.

Lemma fold_left_cat {X} (f : X -> string) l acc :
  fold_left (fun context x => context +:+ f x) l acc = acc +:+ cat (map f l).
Proof.
  revert acc. induction l as [|x l IH]; intros acc; cbn [fold_left map fold_right].
  - symmetry. apply append_nil_r.
  - rewrite IH, append_assoc. reflexivity.
Qed.

Lemma cat_fact label shown body :
  cat (ContextSpec.fact label shown body) =
  if shown then label +:+ body +:+ ContextSpec.nl else EmptyString.
Proof.
  unfold ContextSpec.fact. destruct shown; cbn [fold_right]; [|reflexivity].
  rewrite !append_assoc, append_nil_r. reflexivity.
Qed.

Lemma nonempty_length {X} `{EqDecision X} (l : list X) :
  (0 <? length l)%nat = negb (bool_decide (l = [])).
Proof. destruct l; reflexivity. Qed.

Lemma add_user_information_spec context chat :
  SessionMemoryService.add_user_information context chat =
  context +:+ cat (ContextSpec.facts (Document.userInfo chat)).
Proof.
  unfold SessionMemoryService.add_user_information, ContextSpec.facts.
  destruct (Document.userInfo chat) as [[name interests goals preferences]|];
    [|symmetry; apply append_nil_r].
  cbn [IUserInfo.name IUserInfo.interests IUserInfo.goals IUserInfo.preferences].
  rewrite !cat_app, !cat_fact, <- !nonempty_length. fold ContextSpec.nl.
  unfold ContextSpec.nl.
  destruct name as [name|]; cbn [default from_option id Js.truthy];
    [destruct (Js.truthy name)|];
    (destruct interests as [[|i interests]|];
     (destruct goals as [[|g goals]|];
      (destruct preferences as [[|p preferences]|];
       cbn [default from_option id length Nat.ltb Nat.leb];
       rewrite ?append_assoc, ?append_nil_r; try reflexivity))).
Qed.

Lemma add_session_context_spec context chat :
  SessionMemoryService.add_session_context context chat =
  context +:+ cat (ContextSpec.session (Document.sessionContext chat)).
Proof.
  unfold SessionMemoryService.add_session_context, ContextSpec.session.
  destruct (Document.sessionContext chat) as [[|kv entries]|];
    cbn [default from_option id length Nat.ltb Nat.leb];
    try (symmetry; apply append_nil_r).
  rewrite (fold_left_cat
             (fun kv => "- " +:+ fst kv +:+ ": " +:+ snd kv
                        +:+ SessionMemoryService.nl)).
  cbn [fold_right]. rewrite !append_assoc. reflexivity.
Qed.

Lemma add_recent_conversation_spec context chat :
  SessionMemoryService.add_recent_conversation context chat =
  context +:+ cat (ContextSpec.recent (IChat.messages (Document.fields chat))).
Proof.
  unfold SessionMemoryService.add_recent_conversation, ContextSpec.recent.
  destruct (IChat.messages (Document.fields chat)) as [|m ms];
    cbn [length Nat.ltb Nat.leb]; [symmetry; apply append_nil_r|].
  rewrite (fold_left_cat
             (fun msg => Sender_value (IChatMessage.sender msg) +:+ ": "
                         +:+ IChatMessage.text msg +:+ SessionMemoryService.nl)).
  cbn [fold_right]. unfold ContextSpec.nl. rewrite !append_assoc. reflexivity.
Qed.

Lemma render_spec chat :
  SessionMemoryService.render chat = ContextSpec.assembleContext chat.
Proof.
  unfold SessionMemoryService.render, ContextSpec.assembleContext,
    ContextSpec.sections.
  cbv zeta.
  rewrite add_recent_conversation_spec, add_session_context_spec,
    add_user_information_spec.
  rewrite !cat_app, !append_assoc. reflexivity.
Qed.

Lemma slice_last_spec {X} (n : nat) (l : list X) :
  l = take (length l - n) l ++ Js.slice_last n l /\
  length (Js.slice_last n l) = Nat.min n (length l).
Proof.
  unfold Js.slice_last. split.
  - symmetry. apply take_drop.
  - rewrite length_drop. lia.
Qed.

(** C10.  The context that [buildContextForAI] assembles from a chat
    document is the trimmed concatenation of, in this order, the lines of
    the known user facts (name, interests, goals, preferences), the
    session-context entries under their heading, and the last five
    messages, each as [sender: text], under theirs; a section whose data is
    missing or empty contributes nothing.  It is a function of the document
    alone. *)
Theorem context_sections chat :
  SessionMemoryService.render chat = ContextSpec.assembleContext chat /\
  (forall messages : list IChatMessage.t,
     messages = take (length messages - 5) messages ++ Js.slice_last 5 messages /\
     length (Js.slice_last 5 messages) = Nat.min 5 (length messages)) /\
  (forall env st c d,
     db_fault env (ops st) = None ->
     chats st !! c = Some d ->
     value (SessionMemoryService.buildContextForAI c env st)
     = Ok (ContextSpec.assembleContext (ChatModel.hydrate c d))).
Proof.
  split; [apply render_spec|].
  split; [intros messages; apply slice_last_spec|].
  intros env st c d Hfault Hd.
  rewrite buildContextForAI_run, Hfault, Hd. cbn [value].
  rewrite render_spec. reflexivity.
Qed.

(** ** The session memory over the chat schema *)

Ltac keeps_step :=
  match goal with
  | |- keeps _ (bind _ _) => apply keeps_bind; [|intros ?]
  | |- keeps _ (try_catch _ _) => apply keeps_try_catch; [|intros ?]
  | |- keeps _ (match ?x with _ => _ end) => destruct x
  | |- keeps _ _ => solve [auto with keeps]
  end.

(** The effects of a computation that sends no write to the database. *)
Lemma keeps_chats_findById c : keeps chats (ChatModel.findById c).
Proof. unfold ChatModel.findById. repeat keeps_step. Qed.

Lemma emits_findById P c :
  P (DbFindById c) -> emits P (ChatModel.findById c).
Proof. intros H. unfold ChatModel.findById. emits_auto. Qed.

Lemma total_extractAndStoreUserInfo c message sender :
  total (SessionMemoryService.extractAndStoreUserInfo c message sender).
Proof.
  unfold SessionMemoryService.extractAndStoreUserInfo.
  destruct sender; [|apply total_ret].
  apply total_try_catch. intros e. apply total_console.
Qed.

Lemma keeps_chats_extractAndStoreUserInfo c message sender :
  keeps chats (SessionMemoryService.extractAndStoreUserInfo c message sender).
Proof.
  unfold SessionMemoryService.extractAndStoreUserInfo,
    SessionMemoryService.call_undefined.
  destruct sender; repeat keeps_step. apply keeps_chats_findById.
Qed.

Lemma emits_extractAndStoreUserInfo P c message sender :
  P (DbFindById c) -> (forall l, P (Console l)) ->
  emits P (SessionMemoryService.extractAndStoreUserInfo c message sender).
Proof.
  intros Hq Hl.
  unfold SessionMemoryService.extractAndStoreUserInfo,
    SessionMemoryService.call_undefined.
  destruct sender; emits_auto. apply emits_findById, Hq.
Qed.

Lemma total_storeContext c key val :
  total (SessionMemoryService.storeContext c key val).
Proof.
  unfold SessionMemoryService.storeContext.
  apply total_try_catch. intros e. apply total_console.
Qed.

Lemma keeps_chats_storeContext c key val :
  keeps chats (SessionMemoryService.storeContext c key val).
Proof.
  unfold SessionMemoryService.storeContext, SessionMemoryService.call_undefined.
  repeat keeps_step. apply keeps_chats_findById.
Qed.

Lemma emits_storeContext P c key val :
  P (DbFindById c) -> (forall l, P (Console l)) ->
  emits P (SessionMemoryService.storeContext c key val).
Proof.
  intros Hq Hl.
  unfold SessionMemoryService.storeContext, SessionMemoryService.call_undefined.
  emits_auto. apply emits_findById, Hq.
Qed.

Lemma getContext_null c key env st :
  value (SessionMemoryService.getContext c key env st)
  = Ok SessionMemoryService.null.
Proof.
  unfold SessionMemoryService.getContext.
  rewrite value_try_catch, value_bind, final_bind, findById_run.
  cbn [value final].
  destruct (db_fault env (ops st)); [reflexivity|].
  destruct (chats st !! c); reflexivity.
Qed.

Lemma getUserInfo_null c env st :
  value (SessionMemoryService.getUserInfo c env st) = Ok None.
Proof.
  unfold SessionMemoryService.getUserInfo.
  rewrite value_try_catch, value_bind, final_bind, findById_run.
  cbn [value final].
  destruct (db_fault env (ops st)); [reflexivity|].
  destruct (chats st !! c); reflexivity.
Qed.

(** C4.  [ChatSchema] has no path [userInfo] or [sessionContext] and no
    method [updateUserInfo] or [updateSessionContext].  So, for every store
    and every input, [extractAndStoreUserInfo] and [storeContext] return
    without throwing, leave the collection as it was and send no write;
    [getContext] and [getUserInfo] return [null]; and what
    [buildContextForAI] returns is the trimmed recent-conversation section
    of some message list, with no other section. *)
Theorem memory_is_inert env st chatId message sender key val :
  (("userInfo" ∉ ChatModel.ChatSchema_paths) /\
   ("sessionContext" ∉ ChatModel.ChatSchema_paths) /\
   ("updateUserInfo" ∉ ChatModel.ChatSchema_methods) /\
   ("updateSessionContext" ∉ ChatModel.ChatSchema_methods)) /\
  (let r := SessionMemoryService.extractAndStoreUserInfo chatId message sender
              env st in
   value r = Ok tt /\ chats (final r) = chats st /\
   forall id, DbSave id ∉ emitted r) /\
  (let r := SessionMemoryService.storeContext chatId key val env st in
   value r = Ok tt /\ chats (final r) = chats st /\
   forall id, DbSave id ∉ emitted r) /\
  value (SessionMemoryService.getContext chatId key env st)
  = Ok SessionMemoryService.null /\
  value (SessionMemoryService.getUserInfo chatId env st) = Ok None /\
  exists messages,
    value (SessionMemoryService.buildContextForAI chatId env st)
    = Ok (Js.trim (cat (ContextSpec.recent messages))).
Proof.
  split.
  { repeat split; intros H; apply list_elem_of_In in H; cbn in H;
      intuition discriminate. }
  split.
  { cbv zeta. split; [|split].
    - destruct (total_extractAndStoreUserInfo chatId message sender env st)
        as [[] H]. exact H.
    - apply keeps_chats_extractAndStoreUserInfo.
    - intros id Hin.
      pose proof (emits_extractAndStoreUserInfo no_write chatId message sender
                    I (fun _ => I) env st) as H.
      rewrite Forall_forall in H. exact (H _ Hin). }
  split.
  { cbv zeta. split; [|split].
    - destruct (total_storeContext chatId key val env st) as [[] H]. exact H.
    - apply keeps_chats_storeContext.
    - intros id Hin.
      pose proof (emits_storeContext no_write chatId key val
                    I (fun _ => I) env st) as H.
      rewrite Forall_forall in H. exact (H _ Hin). }
  split; [apply getContext_null|].
  split; [apply getUserInfo_null|].
  rewrite buildContextForAI_run.
  destruct (db_fault env (ops st)).
  { exists []. reflexivity. }
  destruct (chats st !! chatId) as [d|].
  - exists (IChat.messages d). cbn [value]. rewrite render_spec. reflexivity.
  - exists []. reflexivity.
Qed.

(** ** Runs of the scenario *)

Example trim_spaces : Js.trim "  a b  " = "a b".
Proof. reflexivity. Qed.

Example extract_facts :
  SessionMemoryService.extractUserInfoFromMessage
    "Hi, my name is Sam. I like chess, and I want to win."
  = IUserInfo.make (Some "Sam") (Some ["chess"]) (Some ["win"]) None.
Proof. vm_compute. reflexivity. Qed.

Example extract_nothing :
  SessionMemoryService.has_keys
    (SessionMemoryService.extractUserInfoFromMessage "What is a vitamin?")
  = false.
Proof. vm_compute. reflexivity. Qed.

(** The scenario of the specification: a name, one interest, six
    messages, no session context. *)
Example context_of_sam :
  let six := map (fun n => Scenario.said ("message " +:+ pretty n) n)
               [1; 2; 3; 4; 5; 6] in
  let chat :=
    Document.make "c1" (Scenario.chat_with six)
      (Some (IUserInfo.make (Some "Sam") (Some ["chess"]) None None)) None in
  SessionMemoryService.render chat =
  Js.join SessionMemoryService.nl
    ["User's name: Sam";
     "User's interests: chess";
     "";
     "Recent conversation:";
     "user: message 2";
     "user: message 3";
     "user: message 4";
     "user: message 5";
     "user: message 6"].
Proof. vm_compute. reflexivity. Qed.

(** The same chat read from the collection: the document has the paths of
    the schema only, and the context is the recent conversation. *)
Example context_of_stored_chat :
  value (SessionMemoryService.buildContextForAI "c1" Scenario.healthy
           (Scenario.store_with [Scenario.said "I like running" 950]))
  = Ok (Js.join SessionMemoryService.nl
          ["Recent conversation:"; "user: I like running"]).
Proof. vm_compute. reflexivity. Qed.

Example owner_joins :
  let r := SocketService.on_join_chat Scenario.socket "c1" Scenario.healthy
             (Scenario.store_with []) in
  rooms (final r) = {[ ("s1", "c1") ]} /\
  visible (emitted r)
  = [Emit "s1" (EvJoinedChat "c1" "Successfully joined chat")].
Proof. split; vm_compute; reflexivity. Qed.

Lemma append_at_limit_witness :
  let st := Scenario.store_with (replicate 1000 (Scenario.said "hi" 900)) in
  let d := Scenario.chat_with (replicate 1000 (Scenario.said "hi" 900)) in
  let r := ChatService.addMessageToChat "c1" "u1" (Scenario.draft "one more")
             Scenario.healthy st in
  chats st !! "c1" = Some d /\
  length (IChat.messages d) = 1000%nat /\
  (exists e, value r = Throw e) /\
  chats (final r) = chats st /\
  (exists failures,
     value r = Throw (Js.ValidationError failures) /\
     limit_failure ∈ failures).
Proof.
  intros st d r.
  assert (chats st !! "c1" = Some d) as Hd by apply lookup_singleton_eq.
  assert (length (IChat.messages d) = 1000%nat) as Hlen by (vm_compute; reflexivity).
  destruct (append_at_limit Scenario.healthy st "c1" "u1"
              (Scenario.draft "one more") d Hd Hlen) as (Ht & Hc & Hv).
  repeat split; try assumption.
  apply Hv; reflexivity.
Defined.

Lemma join_denied_witness :
  let st := Scenario.store_with [] in
  let r := SocketService.on_join_chat Scenario.stranger "c1" Scenario.healthy st in
  SocketService.authenticated Scenario.stranger = Some "u2" /\
  (forall d, chats st !! "c1" = Some d ->
             IChat.userId d <> "u2" \/ IChat.isActive d = false) /\
  value r = Ok tt /\
  rooms (final r) = rooms st /\
  visible (emitted r) = [Emit "s2" access_denied] /\
  head (emitted r) = Some (DbFindOne "c1" "u2").
Proof.
  intros st r.
  assert (forall d, chats st !! "c1" = Some d ->
                    IChat.userId d <> "u2" \/ IChat.isActive d = false) as Hd.
  { intros d H. unfold st, Scenario.store_with in H. cbn [chats] in H.
    rewrite lookup_singleton_eq in H. injection H as <-. left. discriminate. }
  split; [reflexivity|]. split; [exact Hd|].
  exact (join_denied Scenario.healthy st Scenario.stranger "c1" "u2" eq_refl Hd).
Defined.



Lemma generate_never_throws_witness :
  let env := Scenario.backend_down in
  let st := Scenario.store_with [] in
  (forall sys usr, exists e, openai env (calls st) sys usr = Rejected e) /\
  exists r,
    value (AIService.generateAIResponse "hello" [HEALTH] None None env st)
    = Ok r /\
    AIResponse.success r = false /\
    AIResponse.text r = AIService.fallback_text /\
    exists reason, AIResponse.error r = Some reason /\ reason <> EmptyString.
Proof.
  intros env st.
  assert (forall sys usr, exists e, openai env (calls st) sys usr = Rejected e)
    as Hdown by (intros sys usr; eexists; reflexivity).
  split; [exact Hdown|].
  destruct (generate_never_throws env st "hello" [HEALTH] None None)
    as (r & Hr & H).
  exists r. split; [exact Hr|]. exact (H Hdown).
Defined.

Lemma no_fallback_chain_witness :
  let env := Scenario.backend_down in
  let st := Scenario.store_with [] in
  let resp :=
    AIResponse.make "" GPT4 false (Some "Request timed out") None (Some 1) in
  let e := AIService.enhance "hello" None env st in
  let b := AIService.modelFunctions GPT4 "hello" [HEALTH] env (final e) in
  let r := AIService.generateAIResponse "hello" [HEALTH] None None env st in
  value e = Ok "hello" /\
  value b = Ok resp /\
  AIResponse.success resp = false /\
  value r = Ok AIService.unavailable /\
  final r = final b /\
  emitted r =
    emitted e ++ attempt_line GPT4 "hello" :: emitted b
    ++ [Console (AIModel_value GPT4 +:+ " failed, no fallback available");
        Console "AI model failed"].
Proof.
  intros env st resp e b r.
  assert (value e = Ok "hello") as He by reflexivity.
  assert (value b = Ok resp) as Hb by (vm_compute; reflexivity).
  split; [exact He|]. split; [exact Hb|]. split; [reflexivity|].
  exact (no_fallback_chain env st "hello" [HEALTH] None None "hello" resp
           He Hb eq_refl).
Defined.

Lemma save_failure_is_logged_witness :
  let env := Scenario.db_lost_at 1 in
  let st := Scenario.store_with [] in
  let doc := ChatModel.hydrate "c1" (Scenario.chat_with []) in
  let a := ChatService.addMessageToChat "c1" "u1"
             (Draft.make (Js.trim "hello") user None) env (after_db_op st) in
  let r := SocketService.on_message Scenario.socket "hello" "c1" env st in
  SocketService.authenticated Scenario.socket = Some "u1" /\
  acceptable "hello" = true /\
  db_fault env (ops st) = None /\
  found st "c1" "u1" = Some doc /\
  value a = Throw (Js.Error "connection lost") /\
  value r = Ok tt /\
  (exists before after,
     emitted r
     = before
       ++ Emit "s1" (EvAiThinking "c1" "AI is generating response...")
       :: emitted (AIService.generateAIResponse "hello" [HEALTH] None None env
                     (after_now (after_now (final a))))
       ++ after /\
     requests
       (emitted (AIService.generateAIResponse "hello" [HEALTH] None None env
                   (after_now (after_now (final a)))))
     = [ApiRequest "gpt-4" (AIService.generateSystemPrompt [HEALTH]) "hello"]) /\
  (forall sid message code cid,
     Emit sid (EvError message code cid) ∈ emitted r -> code = "AI_ERROR").
Proof.
  intros env st doc a r.
  assert (found st "c1" "u1" = Some doc) as Hfound by (vm_compute; reflexivity).
  destruct (save_failure_is_logged env st Scenario.socket "hello" "c1" "u1" doc
              eq_refl eq_refl eq_refl Hfound)
    as (Hv & (um & resp & reply & Htrace & _ & _ & _ & Hrequests & _) & Herr).
  split; [reflexivity|]. split; [reflexivity|]. split; [reflexivity|].
  split; [exact Hfound|]. split; [reflexivity|]. split; [exact Hv|].
  split; [|exact Herr].
  eexists _, reply. split; [|exact Hrequests].
  fold r a in Htrace. rewrite Htrace.
  change (DbFindOne "c1" "u1" :: ?l) with ([DbFindOne "c1" "u1"] ++ l).
  change (Broadcast "c1" ?ev :: ?c :: ?l) with ([Broadcast "c1" ev; c] ++ l).
  rewrite !app_assoc. reflexivity.
Defined.

Lemma prompt_without_memory_witness :
  let st := Scenario.store_with [Scenario.said "I like running" 950] in
  let tr := emitted (SocketService.on_message Scenario.socket "hello" "c1"
                       Scenario.healthy st) in
  SocketService.authenticated Scenario.socket = Some "u1" /\
  acceptable "hello" = true /\
  (DbFindById "c1" ∉ tr) /\
  requests tr
  = [ApiRequest "gpt-4" (AIService.generateSystemPrompt [HEALTH]) "hello"].
Proof.
  intros st tr.
  destruct (prompt_without_memory Scenario.healthy st Scenario.socket "hello"
              "c1") as (Hno & _ & Hcall).
  destruct (Hcall "u1"
              (Scenario.chat_with [Scenario.said "I like running" 950])
              eq_refl eq_refl eq_refl (lookup_singleton_eq _ _) eq_refl eq_refl)
    as [_ Hrequests].
  split; [reflexivity|]. split; [reflexivity|].
  split; [apply Hno|exact Hrequests].
Defined.

Lemma message_order_witness :
  let st := Scenario.store_with [] in
  let r := SocketService.on_message Scenario.socket " hello " "c1"
             Scenario.healthy st in
  let um := IChatMessage.make "hello" user 1001 None (Some "1002") in
  let am := IChatMessage.make "Drink water." ai 1006 (Some "gpt-4")
              (Some "1007") in
  visible (emitted r)
  = [Broadcast "c1" (EvMessage um "c1");
     Emit "s1" (EvAiThinking "c1" "AI is generating response...");
     Broadcast "c1" (EvMessage am "c1")] /\
  (exists before after,
     emitted r
     = DbFindOne "c1" "u1" :: DbFindOne "c1" "u1" :: DbSave "c1"
       :: Broadcast "c1" (EvMessage um "c1") :: before
       ++ Emit "s1" (EvAiThinking "c1" "AI is generating response...")
       :: after).
Proof.
  intros st r um am.
  destruct (message_order Scenario.healthy st Scenario.socket " hello " "c1")
    as (_ & _ & Hhandled).
  destruct (Hhandled "u1" (Scenario.chat_with []) eq_refl eq_refl eq_refl
              (lookup_singleton_eq _ _) eq_refl eq_refl)
    as (resp & written & reply & Hresp & Hwritten & Hsaved & Htrace & Hvisible
        & Hreply).
  vm_compute in Hresp. injection Hresp as <-.
  cbn [AIResponse.success AIResponse.text Js.truthy andb] in Hreply.
  cbv zeta in Hreply. destruct Hreply as [_ Hreply].
  split.
  - fold r in Hvisible. rewrite Hvisible, Hreply. vm_compute. reflexivity.
  - fold r in Htrace. rewrite Htrace.
    rewrite Hwritten, (Hsaved (ChatModel.hydrate "c1"
                                 (ChatModel.push (Scenario.chat_with [])
                                    (Draft.make "hello" user None) 1000 "oid0")))
      by (vm_compute; reflexivity).
    eexists [_], _. vm_compute. reflexivity.
Defined.

(** ** Where the code departs from the specification *)

Lemma user_message_dropped_silently :
  let env := Scenario.db_lost_at 1 in
  let st := Scenario.store_with [] in
  let r := SocketService.on_message Scenario.socket "hello" "c1" env st in
  value (ChatService.addMessageToChat "c1" "u1"
           (Draft.make (Js.trim "hello") user None) env (after_db_op st))
  = Throw (Js.Error "connection lost") /\
  List.filter is_error_event (emitted r) = [] /\
  (IChatMessage.sender <$>
   default [] (IChat.messages <$> chats (final r) !! "c1")) = [ai] /\
  ~ save_failure_reported env st Scenario.socket "hello" "c1".
Proof.
  intros env st r.
  assert (List.filter is_error_event (emitted r) = []) as Hnone
    by (vm_compute; reflexivity).
  split; [vm_compute; reflexivity|]. split; [exact Hnone|].
  split; [vm_compute; reflexivity|].
  intros H.
  destruct (H "u1" (Js.Error "connection lost")) as (m & code & cid & Hin);
    [reflexivity|reflexivity|vm_compute; reflexivity|].
  apply list_elem_of_In in Hin.
  assert (In (Emit (SocketService.id Scenario.socket) (EvError m code cid))
            (List.filter is_error_event (emitted r))) as Hin'.
  { apply List.filter_In. split; [exact Hin|reflexivity]. }
  fold r in Hnone. rewrite Hnone in Hin'. exact Hin'.
Qed.


Lemma primary_failure_is_final :
  let env := Scenario.backend_down in
  let st := Scenario.store_with [] in
  outcome (value (AIService.generateAIResponse "hello" [HEALTH] None None env st))
  = Some (false, AIService.fallback_text, Some "AI model unavailable") /\
  outcome (value (RouterSpec.generate "hello" [HEALTH] None env st))
  = Some (false, AIService.fallback_text, Some "Composio API key not configured") /\
  ~ falls_back env st "hello" [HEALTH] None.
Proof.
  intros env st.
  split; [vm_compute; reflexivity|]. split; [vm_compute; reflexivity|].
  unfold falls_back. vm_compute. discriminate.
Qed.

Lemma prompt_sent_without_context :
  let env := Scenario.healthy in
  let st := Scenario.store_with [Scenario.said "I like running" 950] in
  let ctx := "Recent conversation:" +:+ SessionMemoryService.nl
             +:+ "user: I like running" in
  let tr := emitted (SocketService.on_message Scenario.socket "hello" "c1" env st) in
  value (SessionMemoryService.buildContextForAI "c1" env st) = Ok ctx /\
  (DbFindById "c1" ∉ tr) /\
  (ApiRequest "gpt-4" (AIService.generateSystemPrompt [HEALTH]) "hello" ∈ tr) /\
  ~ memory_consulted env st Scenario.socket "hello" "c1" ctx.
Proof.
  intros env st ctx tr.
  assert (DbFindById "c1" ∉ tr) as Hno.
  { intros Hin.
    pose proof (on_message_bypasses_memory env st Scenario.socket "hello" "c1")
      as H.
    rewrite Forall_forall in H. exact (H _ Hin). }
  split; [vm_compute; reflexivity|]. split; [exact Hno|].
  split.
  { apply list_elem_of_In. vm_compute. do 7 right. left. reflexivity. }
  intros [Hin _]. exact (Hno Hin).
Qed.

(** * Further properties of the code *)

(** ** [String.prototype.trim] *)

Lemma trimStart_length s :
  (String.length (Js.trimStart s) <= String.length s)%nat.
Proof.
  induction s as [|c s IH]; cbn [Js.trimStart]; [lia|].
  destruct (Js.is_space c); cbn [String.length] in *; lia.
Qed.

Lemma trimEnd_length s :
  (String.length (Js.trimEnd s) <= String.length s)%nat.
Proof.
  induction s as [|c s IH]; cbn [Js.trimEnd]; [lia|].
  destruct (Js.trimEnd s) as [|c' r].
  - destruct (Js.is_space c); cbn [String.length] in *; lia.
  - cbn [String.length] in *. lia.
Qed.

Lemma trim_length s : (String.length (Js.trim s) <= String.length s)%nat.
Proof.
  unfold Js.trim. etransitivity; [apply trimEnd_length|apply trimStart_length].
Qed.

Lemma trimStart_clean s : starts_clean (Js.trimStart s).
Proof.
  induction s as [|c s IH]; cbn [Js.trimStart]; [exact I|].
  destruct (Js.is_space c) eqn:Hc; [exact IH|exact Hc].
Qed.

Lemma trimStart_id s : starts_clean s -> Js.trimStart s = s.
Proof. destruct s as [|c s]; cbn; [reflexivity|]. intros ->. reflexivity. Qed.

Lemma trimEnd_clean s : starts_clean s -> starts_clean (Js.trimEnd s).
Proof.
  destruct s as [|c s]; cbn [Js.trimEnd starts_clean]; [auto|].
  intros Hc. destruct (Js.trimEnd s); [rewrite Hc|]; exact Hc.
Qed.

Lemma trimEnd_idempotent s : Js.trimEnd (Js.trimEnd s) = Js.trimEnd s.
Proof.
  induction s as [|c s IH]; [reflexivity|]. cbn [Js.trimEnd].
  destruct (Js.trimEnd s) as [|c' r] eqn:E.
  - destruct (Js.is_space c) eqn:Hc; [reflexivity|].
    cbn [Js.trimEnd]. rewrite Hc. reflexivity.
  - cbn [Js.trimEnd]. cbn [Js.trimEnd] in IH.
    destruct (Js.trimEnd r) as [|c'' r'] eqn:E'.
    + destruct (Js.is_space c'); [discriminate|]. f_equal. exact IH.
    + rewrite IH. reflexivity.
Qed.

Lemma trim_idempotent s : Js.trim (Js.trim s) = Js.trim s.
Proof.
  unfold Js.trim.
  rewrite (trimStart_id (Js.trimEnd (Js.trimStart s))).
  - apply trimEnd_idempotent.
  - apply trimEnd_clean, trimStart_clean.
Qed.

(** ** [Array.prototype.slice] and [Array.prototype.sort] *)

Lemma slice_from_suffix {A} (start : Z) (l : list A) :
  exists older, l = older ++ Js.slice_from start l.
Proof.
  unfold Js.slice_from. eexists. symmetry. apply take_drop.
Qed.

Lemma slice_from_zero {A} (l : list A) : Js.slice_from (- 0) l = l.
Proof.
  unfold Js.slice_from. cbn [Z.opp Z.ltb Z.compare].
  rewrite Z.min_l by lia. reflexivity.
Qed.

Lemma slice_from_last {A} (n : nat) (l : list A) :
  (0 < n)%nat -> Js.slice_from (- Z.of_nat n) l = Js.slice_last n l.
Proof.
  intros Hn. unfold Js.slice_from, Js.slice_last.
  destruct (Z.ltb_spec (- Z.of_nat n) 0) as [_|H]; [|lia].
  f_equal. lia.
Qed.

Lemma slice_from_length {A} (limit : Z) (l : list A) :
  0 < limit ->
  Z.of_nat (length (Js.slice_from (- limit) l)) = Z.min limit (Z.of_nat (length l)).
Proof.
  intros Hl. unfold Js.slice_from.
  destruct (Z.ltb_spec (- limit) 0) as [_|H]; [|lia].
  rewrite length_drop. lia.
Qed.

Section Sort.
Context {A : Type} (key : A -> Z).

Lemma insert_by_perm x l : Js.insert_by key x l ≡ₚ x :: l.
Proof.
  induction l as [|y l IH]; cbn [Js.insert_by]; [reflexivity|].
  destruct (key x <=? key y); [reflexivity|].
  rewrite IH. apply Permutation_swap.
Qed.

Lemma sort_by_perm l : Js.sort_by key l ≡ₚ l.
Proof.
  induction l as [|x l IH]; [reflexivity|].
  unfold Js.sort_by in *. cbn [foldr]. rewrite insert_by_perm, IH. reflexivity.
Qed.

Lemma insert_by_sorted x l :
  StronglySorted (fun a b => key a <= key b) l ->
  StronglySorted (fun a b => key a <= key b) (Js.insert_by key x l).
Proof.
  induction 1 as [|y l Hl IH Hy]; cbn [Js.insert_by].
  - repeat constructor.
  - destruct (Z.leb_spec (key x) (key y)) as [Hxy|Hxy].
    + constructor; [constructor; assumption|].
      constructor; [exact Hxy|].
      eapply Forall_impl; [exact Hy|]. cbn. intros; lia.
    + constructor; [exact IH|].
      rewrite insert_by_perm. constructor; [lia|exact Hy].
Qed.

Lemma sort_by_sorted l :
  StronglySorted (fun a b => key a <= key b) (Js.sort_by key l).
Proof.
  induction l as [|x l IH]; [constructor|].
  unfold Js.sort_by in *. cbn [foldr]. apply insert_by_sorted, IH.
Qed.

(** A stable sort leaves a sorted array as it is. *)
Lemma sort_by_id l :
  StronglySorted (fun a b => key a <= key b) l -> Js.sort_by key l = l.
Proof.
  induction 1 as [|x l Hl IH Hx]; [reflexivity|].
  unfold Js.sort_by in *. cbn [foldr]. rewrite IH.
  destruct Hx as [|y l' Hxy _]; cbn [Js.insert_by]; [reflexivity|].
  destruct (Z.leb_spec (key x) (key y)); [reflexivity|lia].
Qed.
End Sort.

Lemma non_decreasing_sorted ms :
  non_decreasing ms <->
  StronglySorted (fun a b => IChatMessage.timestamp a <= IChatMessage.timestamp b) ms.
Proof.
  split.
  - induction ms as [|m ms IH]; intros H; [constructor|].
    constructor.
    + apply IH. intros i j mi mj Hij Hi Hj.
      apply (H (S i) (S j) mi mj); [lia|exact Hi|exact Hj].
    + apply Forall_forall. intros m' Hin.
      apply list_elem_of_lookup in Hin as [j Hj].
      apply (H 0%nat (S j) m m'); [lia|reflexivity|exact Hj].
  - induction 1 as [|m ms Hs IH Hm]; intros i j mi mj Hij Hi Hj.
    + rewrite lookup_nil in Hi. discriminate.
    + destruct j as [|j].
      * assert (i = 0%nat) as -> by lia. cbn in Hi, Hj.
        assert (mi = mj) as -> by congruence. lia.
      * destruct i as [|i].
        -- cbn in Hi, Hj. injection Hi as <-.
           rewrite Forall_forall in Hm. apply Hm.
           eapply list_elem_of_lookup_2, Hj.
        -- cbn in Hi, Hj. apply (IH i j mi mj); [lia|exact Hi|exact Hj].
Qed.

Lemma non_decreasing_suffix older ms :
  non_decreasing (older ++ ms) -> non_decreasing ms.
Proof.
  intros H i j mi mj Hij Hi Hj.
  apply (H (length older + i)%nat (length older + j)%nat mi mj); [lia| |].
  - rewrite lookup_app_r by lia. rewrite <- Hi. f_equal. lia.
  - rewrite lookup_app_r by lia. rewrite <- Hj. f_equal. lia.
Qed.

(** ** The history of a chat *)

Lemma getChatHistory_run c u limit env st :
  ChatService.getChatHistory c u limit env st =
  let report e :=
    [Console ("Error fetching chat history: " +:+ Js.describe e)] in
  match db_fault env (ops st) with
  | Some e => Build_Run (Throw e) (after_db_op st) (DbFindOne c u :: report e)
  | None =>
      match found st c u with
      | None =>
          let e := Js.Error "Chat not found or access denied" in
          Build_Run (Throw e) (after_db_op st) (DbFindOne c u :: report e)
      | Some doc =>
          Build_Run (Ok (ChatModel.getMessageHistory doc limit))
            (after_db_op st) [DbFindOne c u]
      end
  end.
Proof.
  unfold ChatService.getChatHistory. cbv zeta.
  destruct (db_fault env (ops st)) as [e|] eqn:Hfault.
  { erewrite try_catch_throw.
    2:{ erewrite bind_throw; [reflexivity|].
        rewrite findOne_run, Hfault. reflexivity. }
    reflexivity. }
  destruct (found st c u) as [doc|] eqn:Hfound.
  - erewrite try_catch_ok; [reflexivity|].
    erewrite bind_ok; [|rewrite findOne_run, Hfault, Hfound; reflexivity].
    reflexivity.
  - erewrite try_catch_throw.
    2:{ erewrite bind_ok; [|rewrite findOne_run, Hfault, Hfound; reflexivity].
        reflexivity. }
    reflexivity.
Qed.

(** X1.  What [getChatHistory] returns is read from a chat that the caller
    owns and that is active; it is a rearrangement of the messages that
    [slice(-limit)] keeps, by non-decreasing timestamp; for a positive
    limit it has [min(limit, count)] messages; and the call changes
    nothing in the store but the count of database operations. *)
Theorem history_is_scoped_and_sorted env st chatId userId limit h :
  value (ChatService.getChatHistory chatId userId limit env st) = Ok h ->
  exists d,
    chats st !! chatId = Some d /\
    IChat.userId d = userId /\ IChat.isActive d = true /\
    non_decreasing h /\
    h ≡ₚ Js.slice_from (- default 50 limit) (IChat.messages d) /\
    (0 < default 50 limit ->
     Z.of_nat (length h)
     = Z.min (default 50 limit) (Z.of_nat (length (IChat.messages d)))) /\
    final (ChatService.getChatHistory chatId userId limit env st)
    = after_db_op st.
Proof.
  rewrite getChatHistory_run. cbv zeta.
  destruct (db_fault env (ops st)); [discriminate|].
  destruct (found st chatId userId) as [doc|] eqn:Hfound; [|discriminate].
  apply found_Some in Hfound as (d & Hd & Hu & Ha & ->).
  cbn [value final]. intros [= <-]. exists d.
  unfold ChatModel.getMessageHistory. cbn [Document.fields ChatModel.hydrate].
  repeat split; try assumption.
  - apply non_decreasing_sorted, sort_by_sorted.
  - apply sort_by_perm.
  - intros Hl. rewrite sort_by_perm. apply slice_from_length, Hl.
Qed.

(** X2.  On a chat whose stored timestamps do not decrease, the history is
    the stored suffix itself, in stored order: the last [limit] messages
    for a positive limit, and every message for the limit 0. *)
Theorem history_of_ordered_chat (doc : Document.t) (limit : nat) :
  non_decreasing (IChat.messages (Document.fields doc)) ->
  ChatModel.getMessageHistory doc (Some (Z.of_nat limit)) =
  match limit with
  | O => IChat.messages (Document.fields doc)
  | S _ => Js.slice_last limit (IChat.messages (Document.fields doc))
  end.
Proof.
  intros Hs. unfold ChatModel.getMessageHistory. cbn [default from_option id].
  assert (forall start,
            Js.sort_by IChatMessage.timestamp
              (Js.slice_from start (IChat.messages (Document.fields doc)))
            = Js.slice_from start (IChat.messages (Document.fields doc))) as Hid.
  { intros start. apply sort_by_id, non_decreasing_sorted.
    destruct (slice_from_suffix start (IChat.messages (Document.fields doc)))
      as [older Ho].
    rewrite Ho in Hs. eapply non_decreasing_suffix, Hs. }
  rewrite Hid. destruct limit as [|n].
  - apply slice_from_zero.
  - apply slice_from_last. lia.
Qed.

(** ** Creating a chat *)

Lemma truthy_length s : Js.truthy s = true <-> (0 < String.length s)%nat.
Proof. destruct s; cbn; split; intros; try lia; try discriminate; reflexivity. Qed.

Lemma length_append s1 s2 :
  String.length (s1 +:+ s2) = (String.length s1 + String.length s2)%nat.
Proof.
  induction s1 as [|c s1 IH]; [reflexivity|].
  change (String c s1 +:+ s2) with (String c (s1 +:+ s2)).
  cbn [String.length]. rewrite IH. reflexivity.
Qed.

Lemma default_title_truthy topics :
  Js.truthy (ChatService.default_title topics) = true.
Proof.
  apply truthy_length. unfold ChatService.default_title.
  rewrite length_append. cbn. lia.
Qed.

Lemma or_else_truthy a b : Js.truthy b = true -> Js.truthy (Js.or_else a b) = true.
Proof.
  intros Hb. unfold Js.or_else. destruct a as [s|]; [|exact Hb].
  destruct (Js.truthy s) eqn:Hs; [exact Hs|exact Hb].
Qed.

Lemma or_else_Some s b : Js.truthy s = true -> Js.or_else (Some s) b = s.
Proof. intros Hs. unfold Js.or_else. rewrite Hs. reflexivity. Qed.

Lemma ChatTopic_of_value_inv topic t :
  ChatTopic_of_value topic = Some t -> ChatTopic_value t = topic.
Proof.
  unfold ChatTopic_of_value.
  destruct (bool_decide (topic = "health")) eqn:H1.
  { apply bool_decide_eq_true_1 in H1. intros [= <-]. symmetry. exact H1. }
  destruct (bool_decide (topic = "education")) eqn:H2; [|discriminate].
  apply bool_decide_eq_true_1 in H2. intros [= <-]. symmetry. exact H2.
Qed.

(** The topics of a request are all members of [ChatTopic]. *)
Lemma first_invalid_None topics :
  ChatService.first_invalid topics = None <->
  map ChatTopic_value (omap ChatTopic_of_value topics) = topics.
Proof.
  unfold ChatService.first_invalid.
  induction topics as [|topic topics IH]; [split; reflexivity|].
  cbn [find omap list_omap].
  destruct (ChatTopic_of_value topic) as [t|] eqn:Ht; cbn [Js.defined negb].
  - rewrite IH. cbn [map]. rewrite (ChatTopic_of_value_inv _ _ Ht).
    split; [intros ->; reflexivity|intros [= H]; exact H].
  - split; [discriminate|]. intros H. exfalso.
    destruct (omap ChatTopic_of_value topics) as [|t rest]; [discriminate|].
    injection H as H _. rewrite <- H in Ht. destruct t; discriminate.
Qed.

Lemma first_invalid_errors topics :
  ChatService.first_invalid topics = None <->
  omap (fun topic =>
          if Js.defined (ChatTopic_of_value topic) then None
          else Some ("Invalid topic: " +:+ topic)) topics = [].
Proof.
  unfold ChatService.first_invalid.
  induction topics as [|topic topics IH]; [split; reflexivity|].
  cbn [find omap list_omap].
  destruct (Js.defined (ChatTopic_of_value topic)); cbn [negb].
  - exact IH.
  - split; discriminate.
Qed.

Lemma valid_topics_title topics :
  ChatService.first_invalid topics = None -> (length topics <= 2)%nat ->
  (String.length (ChatService.default_title topics) <= 100)%nat.
Proof.
  intros Hv Hl. apply first_invalid_None in Hv. rewrite <- Hv.
  destruct (omap ChatTopic_of_value topics) as [|[] [|[] [|? ?]]];
    try (vm_compute; lia).
  all: rewrite <- Hv in Hl; cbn [map length] in Hl; lia.
Qed.

Lemma createNewChat_run u topics title env st :
  ChatModel.createNewChat u topics title env st =
  ChatModel.save
    (ChatModel.hydrate (objectId env (ids st))
       (IChat.make u
          (Js.trim
             (Js.or_else title
                (Js.join " & " (map ChatTopic_value topics) +:+ " Chat")))
          topics [] true (clock env (reads (after_id st)))))
    env (after_now (after_id st)).
Proof.
  unfold ChatModel.createNewChat.
  erewrite bind_ok by reflexivity. erewrite bind_ok by reflexivity.
  rewrite !prepend_nil. reflexivity.
Qed.

(** The document that [createChat] builds from a request whose topics are
    [topics]. *)
Lemma createChat_run userId chatData env st :
  ChatService.createChat userId chatData env st =
  let report e := [Console ("Error creating chat: " +:+ Js.describe e)] in
  let fail e := Build_Run (Throw e) st (report e) in
  match ChatService.topics chatData with
  | None | Some [] => fail (Js.Error "At least one topic is required")
  | Some topics =>
      if (2 <? length topics)%nat then
        fail (Js.Error "Maximum 2 topics allowed per chat")
      else
        match ChatService.first_invalid topics with
        | Some topic => fail (Js.Error ("Invalid topic: " +:+ topic))
        | None =>
            let id := objectId env (ids st) in
            let d :=
              IChat.make userId
                (Js.trim (Js.or_else (ChatService.title chatData)
                            (ChatService.default_title topics)))
                (omap ChatTopic_of_value topics) [] true
                (clock env (reads st)) in
            let st1 := after_now (after_id st) in
            match ChatModel.validate d with
            | [] =>
                match db_fault env (ops st1) with
                | Some e =>
                    Build_Run (Throw e) (after_db_op st1)
                      (DbSave id :: report e)
                | None =>
                    Build_Run (Ok (ChatModel.hydrate id d))
                      (with_chat id d (after_db_op st1))
                      [DbSave id;
                       Console ("New chat created for user: " +:+ userId
                                +:+ ", topics: " +:+ Js.join ", " topics)]
                end
            | failures =>
                Build_Run (Throw (Js.ValidationError failures)) st1
                  (report (Js.ValidationError failures))
            end
        end
  end.
Proof.
  unfold ChatService.createChat. cbv zeta.
  destruct (ChatService.topics chatData) as [[|t0 ts]|] eqn:Htopics;
    try (erewrite try_catch_throw by reflexivity; reflexivity).
  set (topics := t0 :: ts).
  destruct (2 <? length topics)%nat;
    [erewrite try_catch_throw by reflexivity; reflexivity|].
  destruct (ChatService.first_invalid topics) as [bad|] eqn:Hbad;
    [erewrite try_catch_throw by reflexivity; reflexivity|].
  set (title' := Js.or_else (ChatService.title chatData)
                   (ChatService.default_title topics)).
  set (d := IChat.make userId (Js.trim title') (omap ChatTopic_of_value topics)
              [] true (clock env (reads st))).
  assert (ChatModel.createNewChat userId (omap ChatTopic_of_value topics)
            (Some title') env st
          = ChatModel.save (ChatModel.hydrate (objectId env (ids st)) d)
              env (after_now (after_id st))) as Hnew.
  { rewrite createNewChat_run. rewrite or_else_Some; [reflexivity|].
    apply or_else_truthy, default_title_truthy. }
  destruct (ChatModel.validate d) as [|f fs] eqn:Hv.
  - assert (ChatModel.pre_save d = d) as Hpre by reflexivity.
    destruct (db_fault env (ops (after_now (after_id st)))) as [e|] eqn:Hfault.
    + erewrite try_catch_throw.
      2:{ erewrite bind_throw; [reflexivity|].
          rewrite Hnew, save_valid by exact Hv. rewrite Hfault. reflexivity. }
      reflexivity.
    + erewrite try_catch_ok; [reflexivity|].
      erewrite bind_ok.
      2:{ rewrite Hnew, save_valid by exact Hv. rewrite Hfault.
          reflexivity. }
      reflexivity.
  - erewrite try_catch_throw.
    2:{ erewrite bind_throw; [reflexivity|].
        rewrite Hnew. erewrite save_invalid.
        - cbn [Document.fields ChatModel.hydrate]. rewrite Hv. reflexivity.
        - cbn [Document.fields ChatModel.hydrate]. rewrite Hv.
          apply list_elem_of_here. }
    reflexivity.
Qed.

Lemma validate_new_chat userId title topics t :
  ChatModel.validate (IChat.make userId title topics [] true t) =
  (if Js.truthy userId then []
   else [(Js.PUserId, "Path `userId` is required.")])
  ++ (if (100 <? String.length title)%nat
      then [(Js.PTitle, "Chat title cannot exceed 100 characters")]
      else [])
  ++ (if (0 <? length topics)%nat && (length topics <=? 2)%nat
      then []
      else [(Js.PTopics, "Chat must have at least 1 and at most 2 topics")]).
Proof.
  unfold ChatModel.validate. cbn [IChat.userId IChat.title IChat.topics
    IChat.messages length ChatModel.validate_messages].
  cbn [Nat.leb]. rewrite !app_nil_r. reflexivity.
Qed.

Lemma length_valid_topics topics :
  ChatService.first_invalid topics = None ->
  length (omap ChatTopic_of_value topics) = length topics.
Proof.
  intros H. apply first_invalid_None in H.
  rewrite <- H at 2. rewrite length_map. reflexivity.
Qed.

(** What [validateChatData] accepts. *)
Lemma isValid_true chatData :
  ChatService.isValid chatData = true ->
  exists topics,
    ChatService.topics chatData = Some topics /\
    (0 < length topics <= 2)%nat /\
    ChatService.first_invalid topics = None /\
    (String.length
       (Js.trim (Js.or_else (ChatService.title chatData)
                   (ChatService.default_title topics))) <= 100)%nat.
Proof.
  unfold ChatService.isValid, ChatService.validateChatData.
  intros H. apply bool_decide_eq_true_1 in H.
  apply app_eq_nil in H as [Htopics Htitle].
  destruct (ChatService.topics chatData) as [topics|]; [|discriminate].
  apply app_eq_nil in Htopics as [Hlen Hvalues].
  apply first_invalid_errors in Hvalues.
  assert (0 < length topics <= 2)%nat as Hl.
  { destruct (Nat.eqb_spec (length topics) 0); [discriminate|].
    destruct (Nat.ltb_spec 2 (length topics)); [discriminate|]. lia. }
  exists topics. repeat split; try assumption; try lia.
  assert (String.length (Js.trim (ChatService.default_title topics)) <= 100)%nat
    as Hdefault.
  { etransitivity; [apply trim_length|].
    apply valid_topics_title; [exact Hvalues|lia]. }
  unfold Js.or_else.
  destruct (ChatService.title chatData) as [title|]; [|exact Hdefault].
  destruct (Js.truthy title); [|exact Hdefault].
  cbn [andb] in Htitle.
  destruct (Nat.ltb_spec 100 (String.length (Js.trim title)));
    [discriminate|lia].
Qed.

(** X3.  A request that [validateChatData] accepts is one that [createChat]
    stores, for a user id that is not empty and a database that answers:
    the chat gets the next object id, is owned by the user, has the topics
    of the request, no message, is active, and its title is the trimmed
    title of the request or, without one, the topics joined by [" & "]
    followed by [" Chat"].  Nothing else of the collection changes. *)
Theorem createChat_stores_valid_request env st userId chatData :
  ChatService.isValid chatData = true ->
  Js.truthy userId = true ->
  db_fault env (ops st) = None ->
  exists doc topics,
    value (ChatService.createChat userId chatData env st) = Ok doc /\
    ChatService.topics chatData = Some topics /\
    Document._id doc = objectId env (ids st) /\
    chats (final (ChatService.createChat userId chatData env st))
    = <[Document._id doc := Document.fields doc]> (chats st) /\
    IChat.userId (Document.fields doc) = userId /\
    map ChatTopic_value (IChat.topics (Document.fields doc)) = topics /\
    IChat.messages (Document.fields doc) = [] /\
    IChat.isActive (Document.fields doc) = true /\
    IChat.title (Document.fields doc)
    = Js.trim (Js.or_else (ChatService.title chatData)
                 (Js.join " & " topics +:+ " Chat")).
Proof.
  intros Hvalid Hu Hdb.
  apply isValid_true in Hvalid as (topics & Htopics & Hl & Hv & Ht).
  rewrite createChat_run. cbv zeta. rewrite Htopics.
  destruct topics as [|t0 ts]; [cbn in Hl; lia|].
  destruct (Nat.ltb_spec 2 (length (t0 :: ts))) as [Hgt|_]; [lia|].
  rewrite Hv, validate_new_chat, Hu, length_valid_topics by exact Hv.
  destruct (Nat.ltb_spec 100 (String.length
              (Js.trim (Js.or_else (ChatService.title chatData)
                          (ChatService.default_title (t0 :: ts))))))
    as [Hgt|_]; [lia|].
  destruct (Nat.ltb_spec 0 (length (t0 :: ts))) as [_|Hz]; [|lia].
  destruct (Nat.leb_spec (length (t0 :: ts)) 2) as [_|Hgt]; [|lia].
  cbn [app andb]. change (ops (after_now (after_id st))) with (ops st).
  rewrite Hdb. eexists _, (t0 :: ts).
  cbn [value final Document._id Document.fields ChatModel.hydrate with_chat
       chats IChat.userId IChat.topics IChat.messages IChat.isActive
       IChat.title after_db_op after_now after_id].
  repeat split. apply first_invalid_None, Hv.
Qed.

(** X4.  A request that [validateChatData] rejects is one that [createChat]
    rejects too: it throws, writes nothing to the collection and issues no
    database operation; all that goes out is the line on the console. *)
Theorem createChat_rejects_invalid_request env st userId chatData :
  ChatService.isValid chatData = false ->
  exists e,
    value (ChatService.createChat userId chatData env st) = Throw e /\
    chats (final (ChatService.createChat userId chatData env st)) = chats st /\
    emitted (ChatService.createChat userId chatData env st)
    = [Console ("Error creating chat: " +:+ Js.describe e)].
Proof.
  intros Hinvalid. rewrite createChat_run. cbv zeta.
  destruct (ChatService.topics chatData) as [[|t0 ts]|] eqn:Htopics;
    try (eexists; repeat split; fail).
  set (topics := t0 :: ts) in *.
  destruct (Nat.ltb_spec 2 (length topics)) as [Hgt|Hle];
    [eexists; repeat split|].
  destruct (ChatService.first_invalid topics) as [bad|] eqn:Hbad;
    [eexists; repeat split|].
  rewrite validate_new_chat, length_valid_topics by exact Hbad.
  destruct (Nat.ltb_spec 100 (String.length
              (Js.trim (Js.or_else (ChatService.title chatData)
                          (ChatService.default_title topics)))))
    as [Hgt|Hok].
  { destruct (Js.truthy userId); cbn [app]; eexists; repeat split. }
  exfalso. unfold ChatService.isValid in Hinvalid.
  apply bool_decide_eq_false_1 in Hinvalid. apply Hinvalid.
  unfold ChatService.validateChatData. rewrite Htopics.
  apply first_invalid_errors in Hbad. fold topics. rewrite Hbad.
  destruct (Nat.eqb_spec (length topics) 0) as [Hz|_]; [discriminate|].
  destruct (Nat.ltb_spec 2 (length topics)) as [Hgt|_]; [lia|].
  cbn [app]. unfold Js.or_else in Hok.
  destruct (ChatService.title chatData) as [title|]; [|reflexivity].
  destruct (Js.truthy title); [|reflexivity]. cbn [andb].
  destruct (Nat.ltb_spec 100 (String.length (Js.trim title))); [lia|reflexivity].
Qed.

(** ** The validators of the schema *)

Lemma validate_message_nil i m :
  ChatModel.validate_message i m = [] <-> well_formed m.
Proof.
  unfold ChatModel.validate_message, well_formed. split.
  - intros H. apply app_eq_nil in H as [Htext Hmodel]. split.
    + destruct (Js.truthy (IChatMessage.text m)) eqn:Ht; [|discriminate].
      cbn [negb] in Htext. apply truthy_length in Ht.
      destruct (Nat.ltb_spec 5000 (String.length (IChatMessage.text m)));
        [discriminate|lia].
    + destruct (IChatMessage.aiModel m) as [v|].
      * destruct (bool_decide (v ∈ ChatModel.aiModel_enum)) eqn:Hv;
          [|discriminate].
        apply bool_decide_eq_true_1 in Hv. exact Hv.
      * destruct (IChatMessage.sender m); [reflexivity|discriminate].
  - intros [[Hpos Hmax] Hmodel].
    assert (Js.truthy (IChatMessage.text m) = true) as ->
      by (apply truthy_length; lia).
    cbn [negb].
    destruct (Nat.ltb_spec 5000 (String.length (IChatMessage.text m))); [lia|].
    destruct (IChatMessage.aiModel m) as [v|].
    + rewrite bool_decide_eq_true_2 by exact Hmodel. reflexivity.
    + rewrite Hmodel. reflexivity.
Qed.

Lemma validate_messages_nil i ms :
  ChatModel.validate_messages i ms = [] <-> Forall well_formed ms.
Proof.
  revert i. induction ms as [|m ms IH]; intros i; cbn [ChatModel.validate_messages].
  - split; [constructor|reflexivity].
  - rewrite Forall_cons, <- (IH (S i)), <- (validate_message_nil i).
    split.
    + intros H. apply app_eq_nil in H. exact H.
    + intros [-> ->]. reflexivity.
Qed.

Lemma validate_nil d :
  ChatModel.validate d = [] <->
  Js.truthy (IChat.userId d) = true /\
  (String.length (IChat.title d) <= 100)%nat /\
  (0 < length (IChat.topics d) <= 2)%nat /\
  (length (IChat.messages d) <= 1000)%nat /\
  Forall well_formed (IChat.messages d).
Proof.
  unfold ChatModel.validate. rewrite <- (validate_messages_nil 0). split.
  - intros H.
    apply app_eq_nil in H as [Hu H]. apply app_eq_nil in H as [Ht H].
    apply app_eq_nil in H as [Hp H]. apply app_eq_nil in H as [Hm H].
    destruct (Js.truthy (IChat.userId d)); [|discriminate].
    destruct (Nat.ltb_spec 100 (String.length (IChat.title d))); [discriminate|].
    destruct (Nat.ltb_spec 0 (length (IChat.topics d)));
      destruct (Nat.leb_spec (length (IChat.topics d)) 2); try discriminate.
    destruct (Nat.leb_spec (length (IChat.messages d)) 1000); [|discriminate].
    repeat split; try assumption; lia.
  - intros (-> & Ht & Hp & Hm & ->).
    destruct (Nat.ltb_spec 100 (String.length (IChat.title d))); [lia|].
    destruct (Nat.ltb_spec 0 (length (IChat.topics d))); [|lia].
    destruct (Nat.leb_spec (length (IChat.topics d)) 2); [|lia].
    destruct (Nat.leb_spec (length (IChat.messages d)) 1000); [|lia].
    reflexivity.
Qed.

(** What [save] writes passes the validators, with [lastMessageAt] set by
    the hook. *)
Lemma pre_save_valid d :
  ChatModel.validate d = [] -> schema_valid (ChatModel.pre_save d).
Proof.
  intros H. apply validate_nil in H as (Hu & Ht & Hp & Hm & Hw).
  unfold schema_valid, ChatModel.pre_save, last_message_at.
  destruct (last (IChat.messages d)) as [lastMessage|] eqn:Hlast;
    cbn [IChat.userId IChat.title IChat.topics IChat.messages
         IChat.lastMessageAt].
  - repeat split; try assumption; try lia.
    intros m Hm'. rewrite Hlast in Hm'. injection Hm' as <-. reflexivity.
  - repeat split; try assumption; try lia.
    intros m Hm'. rewrite Hlast in Hm'. discriminate.
Qed.

(** ** Invariants of the collection *)

Section Preserves.
Context {A B : Type} (I : IChat.t -> Prop).

Lemma preserves_keeps (m : M A) : keeps chats m -> preserves I m.
Proof. intros Hm env st H. rewrite Hm. exact H. Qed.

Lemma preserves_bind (m : M A) (k : A -> M B) :
  preserves I m -> (forall a, preserves I (k a)) -> preserves I (bind m k).
Proof.
  intros Hm Hk env st H. rewrite final_bind.
  destruct (value (m env st)); [apply Hk|]; apply Hm, H.
Qed.

Lemma preserves_try_catch (m : M A) (h : Js.exn -> M A) :
  preserves I m -> (forall e, preserves I (h e)) -> preserves I (try_catch m h).
Proof.
  intros Hm Hh env st H. rewrite final_try_catch.
  destruct (value (m env st)); [|apply Hh]; apply Hm, H.
Qed.
End Preserves.

Lemma preserves_save doc : preserves schema_valid (ChatModel.save doc).
Proof.
  intros env st H.
  destruct (ChatModel.validate (Document.fields doc)) as [|f fs] eqn:Hv.
  - rewrite save_valid by exact Hv.
    destruct (db_fault env (ops st)); cbn [final]; [exact H|].
    cbn [with_chat chats after_db_op].
    apply map_Forall_insert_2; [apply pre_save_valid, Hv|exact H].
  - erewrite save_invalid; [exact H|]. rewrite Hv. apply list_elem_of_here.
Qed.

#[export] Hint Resolve preserves_save : preserves.

Ltac preserves_step :=
  match goal with
  | |- preserves _ (bind _ _) => apply preserves_bind; [|intros ?]
  | |- preserves _ (try_catch _ _) => apply preserves_try_catch; [|intros ?]
  | |- preserves _ (ChatModel.save _) => apply preserves_save
  | |- preserves _ (match ?x with _ => _ end) => destruct x
  | |- preserves _ (if ?x then _ else _) => destruct x
  | |- preserves _ _ =>
      solve [auto with preserves
            |apply preserves_keeps; repeat keeps_step]
  end.

Lemma preserves_findOne c u : preserves schema_valid (ChatModel.findOne c u).
Proof.
  apply preserves_keeps. unfold ChatModel.findOne. repeat keeps_step.
Qed.

Lemma preserves_addMessage doc draft :
  preserves schema_valid (ChatModel.addMessage doc draft).
Proof. unfold ChatModel.addMessage. repeat preserves_step. Qed.

Lemma preserves_deactivate doc :
  preserves schema_valid (ChatModel.deactivate doc).
Proof. unfold ChatModel.deactivate. cbv zeta. repeat preserves_step. Qed.

Lemma preserves_createNewChat u topics title :
  preserves schema_valid (ChatModel.createNewChat u topics title).
Proof. unfold ChatModel.createNewChat. cbv zeta. repeat preserves_step. Qed.

#[export] Hint Resolve preserves_findOne preserves_addMessage
  preserves_deactivate preserves_createNewChat : preserves.

Lemma preserves_createChat u chatData :
  preserves schema_valid (ChatService.createChat u chatData).
Proof. unfold ChatService.createChat. cbv zeta. repeat preserves_step. Qed.

Lemma preserves_addMessageToChat c u draft :
  preserves schema_valid (ChatService.addMessageToChat c u draft).
Proof. unfold ChatService.addMessageToChat. repeat preserves_step. Qed.

Lemma preserves_deleteChat c u :
  preserves schema_valid (ChatService.deleteChat c u).
Proof. unfold ChatService.deleteChat. repeat preserves_step. Qed.

Lemma preserves_updateChatTitle c u newTitle :
  preserves schema_valid (ChatService.updateChatTitle c u newTitle).
Proof. unfold ChatService.updateChatTitle. cbv zeta. repeat preserves_step. Qed.

Lemma preserves_clearSessionContext c :
  preserves schema_valid (SessionMemoryService.clearSessionContext c).
Proof.
  unfold SessionMemoryService.clearSessionContext, ChatModel.findById.
  repeat preserves_step.
Qed.

#[export] Hint Resolve preserves_addMessageToChat : preserves.

(** ** What leaves the collection alone *)

Lemma keeps_chats_write_rooms r : keeps chats (write_rooms r).
Proof. intros env st. reflexivity. Qed.

#[export] Hint Resolve keeps_chats_write_rooms keeps_chats_findById : keeps.

Lemma keeps_chats_findOne c u : keeps chats (ChatModel.findOne c u).
Proof. unfold ChatModel.findOne. repeat keeps_step. Qed.

#[export] Hint Resolve keeps_chats_findOne : keeps.

Lemma keeps_chats_getChatById c u : keeps chats (ChatService.getChatById c u).
Proof.
  unfold ChatService.getChatById, ChatModel.findChatWithMessages.
  repeat keeps_step.
Qed.

Lemma keeps_chats_buildContextForAI c :
  keeps chats (SessionMemoryService.buildContextForAI c).
Proof. unfold SessionMemoryService.buildContextForAI. repeat keeps_step. Qed.

#[export] Hint Resolve keeps_chats_getChatById keeps_chats_buildContextForAI
  : keeps.

Lemma keeps_chats_enhance prompt chatId :
  keeps chats (AIService.enhance prompt chatId).
Proof.
  unfold AIService.enhance. destruct chatId as [c|]; [|auto with keeps].
  destruct (Js.truthy c); [|auto with keeps].
  apply keeps_bind; [auto with keeps|]. intros context.
  destruct (Js.truthy context); repeat keeps_step.
Qed.

Lemma keeps_chats_modelFunctions m prompt topics :
  keeps chats (AIService.modelFunctions m prompt topics).
Proof.
  destruct m; cbn [AIService.modelFunctions];
    unfold AIService.callGPT4, AIService.callClaude3, AIService.callMistral,
      AIService.callComposio, AIService.disabled; cbv zeta;
    repeat keeps_step.
Qed.

#[export] Hint Resolve keeps_chats_enhance keeps_chats_modelFunctions : keeps.

Lemma keeps_chats_generateAIResponse prompt topics chatId preferredModel :
  keeps chats (AIService.generateAIResponse prompt topics chatId preferredModel).
Proof.
  unfold AIService.generateAIResponse. cbv zeta.
  apply keeps_bind; [auto with keeps|]. intros enhanced.
  apply keeps_bind; [auto with keeps|]. intros _.
  apply keeps_bind; [auto with keeps|]. intros response.
  destruct (AIResponse.success response); repeat keeps_step.
Qed.

Lemma keeps_chats_lookup_chat u c line topics :
  keeps chats (SocketService.lookup_chat u c line topics).
Proof. unfold SocketService.lookup_chat. repeat keeps_step. Qed.

Lemma keeps_chats_with_timestamp draft :
  keeps chats (SocketService.with_timestamp draft).
Proof. unfold SocketService.with_timestamp. repeat keeps_step. Qed.

Lemma keeps_chats_emit socket ev : keeps chats (SocketService.emit socket ev).
Proof. apply keeps_effect. Qed.

Lemma keeps_chats_io_to_emit room ev :
  keeps chats (SocketService.io_to_emit room ev).
Proof. apply keeps_effect. Qed.

Lemma keeps_chats_join socket room : keeps chats (SocketService.join socket room).
Proof. unfold SocketService.join. repeat keeps_step. Qed.

Lemma keeps_chats_leave socket room :
  keeps chats (SocketService.leave socket room).
Proof. unfold SocketService.leave. repeat keeps_step. Qed.

#[export] Hint Resolve keeps_chats_generateAIResponse keeps_chats_lookup_chat
  keeps_chats_with_timestamp keeps_chats_emit keeps_chats_io_to_emit
  keeps_chats_join keeps_chats_leave : keeps.

Lemma preserves_try_save c u draft line :
  preserves schema_valid (SocketService.try_save c u draft line).
Proof. unfold SocketService.try_save. repeat preserves_step. Qed.

#[export] Hint Resolve preserves_try_save : preserves.

Lemma preserves_deliver socket u c resp :
  preserves schema_valid (SocketService.deliver socket u c resp).
Proof. unfold SocketService.deliver. cbv zeta. repeat preserves_step. Qed.

#[export] Hint Resolve preserves_deliver : preserves.

Lemma preserves_on_message socket text c :
  preserves schema_valid (SocketService.on_message socket text c).
Proof. unfold SocketService.on_message. cbv zeta. repeat preserves_step. Qed.

(** X5.  No operation of the chat service, and no [message] event, leaves a
    chat in the collection that fails the validators of the schema: when
    every stored chat has an owner, a title of at most 100 characters, one
    or two topics, at most 1000 messages, each with a text of 1 to 5000
    characters and, for a message of the AI, a model of the enumeration,
    and has [lastMessageAt] equal to the timestamp of its last message,
    then the same holds after [createChat], [addMessageToChat],
    [deleteChat], [updateChatTitle], [clearSessionContext] and the
    [message] handler, whether they return or throw. *)
Theorem collection_stays_valid env st :
  map_Forall (fun _ => schema_valid) (chats st) ->
  let valid_after {A} (m : M A) :=
    map_Forall (fun _ => schema_valid) (chats (final (m env st))) in
  (forall userId chatData,
     valid_after (ChatService.createChat userId chatData)) /\
  (forall chatId userId message,
     valid_after (ChatService.addMessageToChat chatId userId message)) /\
  (forall chatId userId,
     valid_after (ChatService.deleteChat chatId userId)) /\
  (forall chatId userId newTitle,
     valid_after (ChatService.updateChatTitle chatId userId newTitle)) /\
  (forall chatId,
     valid_after (SessionMemoryService.clearSessionContext chatId)) /\
  (forall socket text chatId,
     valid_after (SocketService.on_message socket text chatId)).
Proof.
  intros H valid_after. subst valid_after. cbv beta.
  split; [intros; apply preserves_createChat, H|].
  split; [intros; apply preserves_addMessageToChat, H|].
  split; [intros; apply preserves_deleteChat, H|].
  split; [intros; apply preserves_updateChatTitle, H|].
  split; [intros; apply preserves_clearSessionContext, H|].
  intros; apply preserves_on_message, H.
Qed.

(** ** Looking up what was stored *)

Lemma found_with_chat id d st u :
  found (with_chat id d st) id u =
  if bool_decide (IChat.userId d = u) && IChat.isActive d
  then Some (ChatModel.hydrate id d) else None.
Proof.
  unfold found, with_chat. cbn [chats]. rewrite lookup_insert_eq. reflexivity.
Qed.

(** What a successful [createChat] returns and leaves. *)
Lemma createChat_ok userId chatData env st doc :
  value (ChatService.createChat userId chatData env st) = Ok doc ->
  IChat.userId (Document.fields doc) = userId /\
  IChat.isActive (Document.fields doc) = true /\
  doc = ChatModel.hydrate (Document._id doc) (Document.fields doc) /\
  chats (final (ChatService.createChat userId chatData env st))
  = <[Document._id doc := Document.fields doc]> (chats st).
Proof.
  rewrite createChat_run. cbv zeta.
  destruct (ChatService.topics chatData) as [[|t0 ts]|]; try discriminate.
  destruct (2 <? length (t0 :: ts))%nat; [discriminate|].
  destruct (ChatService.first_invalid (t0 :: ts)); [discriminate|].
  destruct (ChatModel.validate _); [|discriminate].
  destruct (db_fault env _); [discriminate|].
  cbn [value final]. intros [= <-]. repeat split.
Qed.

(** X6.  A chat that [createChat] returned is found again under its id by
    its owner, as the same document, and by nobody else. *)
Theorem created_chat_is_found env st userId chatData doc :
  value (ChatService.createChat userId chatData env st) = Ok doc ->
  let st' := final (ChatService.createChat userId chatData env st) in
  db_fault env (ops st') = None ->
  value (ChatService.getChatById (Document._id doc) userId env st')
  = Ok (Some doc) /\
  forall other,
    other <> userId ->
    value (ChatService.getChatById (Document._id doc) other env st') = Ok None.
Proof.
  intros Hok st' Hdb.
  apply createChat_ok in Hok as (Hu & Ha & Hdoc & Hst).
  assert (forall u, found st' (Document._id doc) u =
                    if bool_decide (userId = u) then Some doc else None) as Hf.
  { intros u. unfold found. fold st' in Hst. rewrite Hst, lookup_insert_eq.
    rewrite Hu, Ha, andb_true_r, <- Hdoc. reflexivity. }
  split.
  - rewrite getChatById_run, Hdb. cbn [value]. rewrite Hf.
    rewrite bool_decide_eq_true_2 by reflexivity. reflexivity.
  - intros other Hother. rewrite getChatById_run, Hdb. cbn [value]. rewrite Hf.
    rewrite bool_decide_eq_false_2 by congruence. reflexivity.
Qed.

(** ** Deleting a chat *)

(** The document [deactivate] saves. *)
Lemma deleteChat_run c u env st :
  ChatService.deleteChat c u env st =
  let report e := Console ("Error deleting chat: " +:+ Js.describe e) in
  match db_fault env (ops st) with
  | Some e => Build_Run (Ok false) (after_db_op st) [DbFindOne c u; report e]
  | None =>
      match found st c u with
      | None => Build_Run (Ok false) (after_db_op st) [DbFindOne c u]
      | Some doc =>
          let d := Document.fields doc in
          let d' :=
            IChat.make (IChat.userId d) (IChat.title d) (IChat.topics d)
              (IChat.messages d) false (IChat.lastMessageAt d) in
          match ChatModel.validate d' with
          | [] =>
              match db_fault env (S (ops st)) with
              | Some e =>
                  Build_Run (Ok false) (after_db_op (after_db_op st))
                    [DbFindOne c u; DbSave (Document._id doc); report e]
              | None =>
                  Build_Run (Ok true)
                    (with_chat (Document._id doc) (ChatModel.pre_save d')
                       (after_db_op (after_db_op st)))
                    [DbFindOne c u; DbSave (Document._id doc);
                     Console ("Chat deleted: " +:+ c +:+ " for user: " +:+ u)]
              end
          | failures =>
              Build_Run (Ok false) (after_db_op st)
                [DbFindOne c u; report (Js.ValidationError failures)]
          end
      end
  end.
Proof.
  unfold ChatService.deleteChat. cbv zeta.
  destruct (db_fault env (ops st)) as [e|] eqn:Hfault.
  { erewrite try_catch_throw.
    2:{ erewrite bind_throw; [reflexivity|].
        rewrite findOne_run, Hfault. reflexivity. }
    reflexivity. }
  destruct (found st c u) as [doc|] eqn:Hfound.
  2:{ erewrite try_catch_ok; [reflexivity|].
      erewrite bind_ok; [|rewrite findOne_run, Hfault, Hfound; reflexivity].
      reflexivity. }
  set (d := Document.fields doc).
  set (d' := IChat.make (IChat.userId d) (IChat.title d) (IChat.topics d)
               (IChat.messages d) false (IChat.lastMessageAt d)).
  assert (forall st0,
            ChatModel.deactivate doc env st0
            = ChatModel.save
                (Document.make (Document._id doc) d' (Document.userInfo doc)
                   (Document.sessionContext doc)) env st0) as Hde
    by reflexivity.
  destruct (ChatModel.validate d') as [|f fs] eqn:Hv.
  - destruct (db_fault env (S (ops st))) as [e|] eqn:Hfault'.
    + erewrite try_catch_throw.
      2:{ erewrite bind_ok; [|rewrite findOne_run, Hfault; reflexivity].
          rewrite Hfound. erewrite bind_throw; [reflexivity|].
          rewrite Hde, save_valid by exact Hv.
          cbn [ops after_db_op]. rewrite Hfault'. reflexivity. }
      reflexivity.
    + erewrite try_catch_ok; [reflexivity|].
      erewrite bind_ok; [|rewrite findOne_run, Hfault; reflexivity].
      rewrite Hfound. erewrite bind_ok.
      2:{ rewrite Hde, save_valid by exact Hv.
          cbn [ops after_db_op]. rewrite Hfault'. reflexivity. }
      reflexivity.
  - erewrite try_catch_throw.
    2:{ erewrite bind_ok; [|rewrite findOne_run, Hfault; reflexivity].
        rewrite Hfound. erewrite bind_throw; [reflexivity|].
        rewrite Hde. erewrite save_invalid.
        - cbn [Document.fields]. rewrite Hv. reflexivity.
        - cbn [Document.fields]. rewrite Hv. apply list_elem_of_here. }
    reflexivity.
Qed.

(** X7.  [deleteChat] never throws; it answers [true] only for a chat that
    the caller owns and that was active, and when it answers [false] the
    collection is as it was. *)
Theorem deleteChat_answers env st chatId userId :
  exists deleted,
    value (ChatService.deleteChat chatId userId env st) = Ok deleted /\
    (deleted = true ->
     exists d, chats st !! chatId = Some d /\ IChat.userId d = userId /\
               IChat.isActive d = true) /\
    (deleted = false ->
     chats (final (ChatService.deleteChat chatId userId env st)) = chats st).
Proof.
  rewrite deleteChat_run. cbv zeta.
  destruct (db_fault env (ops st));
    [exists false; repeat split; discriminate|].
  destruct (found st chatId userId) as [doc|] eqn:Hfound;
    [|exists false; repeat split; discriminate].
  apply found_Some in Hfound as (d & Hd & Hu & Ha & ->).
  destruct (ChatModel.validate _);
    [|exists false; repeat split; discriminate].
  destruct (db_fault env (S (ops st)));
    [exists false; repeat split; discriminate|].
  exists true. split; [reflexivity|]. split; [|discriminate].
  intros _. exists d. auto.
Qed.

(** X8.  The delete is soft: after [deleteChat] answered [true] the chat is
    still stored, with its owner, title, topics and messages, but
    inactive; from then on no lookup finds it for any user, [deleteChat]
    answers [false] and [addMessageToChat] throws, whatever the database
    does. *)
Theorem deleted_chat_is_kept_but_hidden env st chatId userId :
  value (ChatService.deleteChat chatId userId env st) = Ok true ->
  let st' := final (ChatService.deleteChat chatId userId env st) in
  (exists d d',
     chats st !! chatId = Some d /\
     chats st' = <[chatId := d']> (chats st) /\
     IChat.isActive d' = false /\
     IChat.userId d' = IChat.userId d /\ IChat.title d' = IChat.title d /\
     IChat.topics d' = IChat.topics d /\
     IChat.messages d' = IChat.messages d) /\
  forall env' anyone,
    value (ChatService.getChatById chatId anyone env' st') = Ok None /\
    value (ChatService.deleteChat chatId anyone env' st') = Ok false /\
    forall message,
      exists e,
        value (ChatService.addMessageToChat chatId anyone message env' st')
        = Throw e.
Proof.
  intros Hok st'. revert Hok. unfold st'. clear st'.
  rewrite deleteChat_run. cbv zeta.
  destruct (db_fault env (ops st)); [discriminate|].
  destruct (found st chatId userId) as [doc|] eqn:Hfound; [|discriminate].
  apply found_Some in Hfound as (d & Hd & Hu & Ha & ->).
  cbn [Document.fields Document._id ChatModel.hydrate].
  destruct (ChatModel.validate _); [|discriminate].
  destruct (db_fault env (S (ops st))); [discriminate|].
  intros _. cbn [final].
  set (d' := ChatModel.pre_save _).
  assert (IChat.isActive d' = false /\
          IChat.userId d' = IChat.userId d /\ IChat.title d' = IChat.title d /\
          IChat.topics d' = IChat.topics d /\
          IChat.messages d' = IChat.messages d) as Hd'.
  { unfold d', ChatModel.pre_save. cbn [IChat.messages].
    destruct (last (IChat.messages d)); repeat split. }
  split; [exists d, d'; split; [exact Hd|]; split; [reflexivity|exact Hd']|].
  intros env' anyone.
  assert (found (with_chat chatId d' (after_db_op (after_db_op st)))
            chatId anyone = None) as Hnone.
  { rewrite found_with_chat. destruct Hd' as [-> _].
    rewrite andb_false_r. reflexivity. }
  split; [|split].
  - rewrite getChatById_run.
    destruct (db_fault env' _); cbn [value]; [reflexivity|].
    rewrite Hnone. reflexivity.
  - rewrite deleteChat_run. cbv zeta.
    destruct (db_fault env' _); cbn [value]; [reflexivity|].
    rewrite Hnone. reflexivity.
  - intros message. rewrite addMessageToChat_run. cbv zeta.
    destruct (db_fault env' _); [eexists; reflexivity|].
    rewrite Hnone. eexists; reflexivity.
Qed.

(** ** Renaming a chat *)

Lemma updateChatTitle_run c u newTitle env st :
  ChatService.updateChatTitle c u newTitle env st =
  let report e := Console ("Error updating chat title: " +:+ Js.describe e) in
  match db_fault env (ops st) with
  | Some e => Build_Run (Throw e) (after_db_op st) [DbFindOne c u; report e]
  | None =>
      match found st c u with
      | None =>
          let e := Js.Error "Chat not found or access denied" in
          Build_Run (Throw e) (after_db_op st) [DbFindOne c u; report e]
      | Some doc =>
          let d := Document.fields doc in
          let d' :=
            IChat.make (IChat.userId d) (Js.trim newTitle) (IChat.topics d)
              (IChat.messages d) (IChat.isActive d) (IChat.lastMessageAt d) in
          match ChatModel.validate d' with
          | [] =>
              match db_fault env (S (ops st)) with
              | Some e =>
                  Build_Run (Throw e) (after_db_op (after_db_op st))
                    [DbFindOne c u; DbSave (Document._id doc); report e]
              | None =>
                  Build_Run
                    (Ok (Document.make (Document._id doc) (ChatModel.pre_save d')
                           (Document.userInfo doc)
                           (Document.sessionContext doc)))
                    (with_chat (Document._id doc) (ChatModel.pre_save d')
                       (after_db_op (after_db_op st)))
                    [DbFindOne c u; DbSave (Document._id doc);
                     Console ("Chat title updated: " +:+ c +:+ " for user: "
                              +:+ u)]
              end
          | failures =>
              Build_Run (Throw (Js.ValidationError failures)) (after_db_op st)
                [DbFindOne c u; report (Js.ValidationError failures)]
          end
      end
  end.
Proof.
  unfold ChatService.updateChatTitle. cbv zeta. rewrite trim_idempotent.
  destruct (db_fault env (ops st)) as [e|] eqn:Hfault.
  { erewrite try_catch_throw.
    2:{ erewrite bind_throw; [reflexivity|].
        rewrite findOne_run, Hfault. reflexivity. }
    reflexivity. }
  destruct (found st c u) as [doc|] eqn:Hfound.
  2:{ erewrite try_catch_throw.
      2:{ erewrite bind_ok; [|rewrite findOne_run, Hfault, Hfound; reflexivity].
          reflexivity. }
      reflexivity. }
  set (d := Document.fields doc).
  set (d' := IChat.make (IChat.userId d) (Js.trim newTitle) (IChat.topics d)
               (IChat.messages d) (IChat.isActive d) (IChat.lastMessageAt d)).
  destruct (ChatModel.validate d') as [|f fs] eqn:Hv.
  - destruct (db_fault env (S (ops st))) as [e|] eqn:Hfault'.
    + erewrite try_catch_throw.
      2:{ erewrite bind_ok; [|rewrite findOne_run, Hfault; reflexivity].
          rewrite Hfound. erewrite bind_throw; [reflexivity|].
          rewrite save_valid by exact Hv.
          cbn [ops after_db_op]. rewrite Hfault'. reflexivity. }
      reflexivity.
    + erewrite try_catch_ok; [reflexivity|].
      erewrite bind_ok; [|rewrite findOne_run, Hfault; reflexivity].
      rewrite Hfound. erewrite bind_ok.
      2:{ rewrite save_valid by exact Hv.
          cbn [ops after_db_op]. rewrite Hfault'. reflexivity. }
      reflexivity.
  - erewrite try_catch_throw.
    2:{ erewrite bind_ok; [|rewrite findOne_run, Hfault; reflexivity].
        rewrite Hfound. erewrite bind_throw; [reflexivity|].
        erewrite save_invalid.
        - cbn [Document.fields]. fold d d'. rewrite Hv. reflexivity.
        - cbn [Document.fields]. fold d d'. rewrite Hv. apply list_elem_of_here. }
    reflexivity.
Qed.

(** X9.  When [updateChatTitle] returns, the chat is one the caller owns,
    the stored title is the new title without its leading and trailing
    white space, at most 100 characters long, and the owner, the topics,
    the messages and the active flag of the chat are the ones it had. *)
Theorem updateChatTitle_stores_trimmed_title env st chatId userId newTitle doc :
  value (ChatService.updateChatTitle chatId userId newTitle env st) = Ok doc ->
  exists d,
    chats st !! chatId = Some d /\
    IChat.userId d = userId /\ IChat.isActive d = true /\
    chats (final (ChatService.updateChatTitle chatId userId newTitle env st))
    = <[chatId := Document.fields doc]> (chats st) /\
    IChat.title (Document.fields doc) = Js.trim newTitle /\
    (String.length (Js.trim newTitle) <= 100)%nat /\
    IChat.userId (Document.fields doc) = IChat.userId d /\
    IChat.topics (Document.fields doc) = IChat.topics d /\
    IChat.messages (Document.fields doc) = IChat.messages d /\
    IChat.isActive (Document.fields doc) = IChat.isActive d.
Proof.
  rewrite updateChatTitle_run. cbv zeta.
  destruct (db_fault env (ops st)); [discriminate|].
  destruct (found st chatId userId) as [doc'|] eqn:Hfound; [|discriminate].
  apply found_Some in Hfound as (d & Hd & Hu & Ha & ->).
  cbn [Document.fields Document._id ChatModel.hydrate].
  destruct (ChatModel.validate _) eqn:Hv; [|discriminate].
  destruct (db_fault env (S (ops st))); [discriminate|].
  cbn [value final]. intros [= <-]. exists d.
  apply validate_nil in Hv as (_ & Ht & _). cbn [IChat.title] in Ht.
  cbn [Document.fields with_chat chats].
  unfold ChatModel.pre_save. cbn [IChat.messages].
  destruct (last (IChat.messages d)); repeat split; assumption.
Qed.

(** X10.  A new title that is longer than 100 characters once trimmed is
    never stored: [updateChatTitle] throws and the collection is as it
    was. *)
Theorem updateChatTitle_rejects_long_title env st chatId userId newTitle :
  (100 < String.length (Js.trim newTitle))%nat ->
  exists e,
    value (ChatService.updateChatTitle chatId userId newTitle env st) = Throw e /\
    chats (final (ChatService.updateChatTitle chatId userId newTitle env st))
    = chats st.
Proof.
  intros Hlong. rewrite updateChatTitle_run. cbv zeta.
  destruct (db_fault env (ops st)); [eexists; split; reflexivity|].
  destruct (found st chatId userId) as [doc|]; [|eexists; split; reflexivity].
  destruct (ChatModel.validate _) eqn:Hv; [|eexists; split; reflexivity].
  apply validate_nil in Hv as (_ & Ht & _). cbn [IChat.title] in Ht. lia.
Qed.

(** ** Appending to a chat *)

(** X11.  [addMessageToChat] on a chat that does not exist, is owned by
    somebody else or is inactive throws, with the error
    ['Chat not found or access denied'] when the database answered; it
    sends no write and the collection is as it was. *)
Theorem append_denied env st chatId userId message :
  (forall d, chats st !! chatId = Some d ->
             IChat.userId d <> userId \/ IChat.isActive d = false) ->
  let r := ChatService.addMessageToChat chatId userId message env st in
  (exists e, value r = Throw e) /\
  (db_fault env (ops st) = None ->
   value r = Throw (Js.Error "Chat not found or access denied")) /\
  chats (final r) = chats st /\
  Forall no_write (emitted r).
Proof.
  intros Hd r. unfold r. clear r. apply found_None in Hd.
  rewrite addMessageToChat_run. cbv zeta. rewrite Hd.
  destruct (db_fault env (ops st)); cbn [value final emitted].
  - split; [eexists; reflexivity|]. split; [discriminate|].
    split; [reflexivity|]. repeat constructor.
  - split; [eexists; reflexivity|]. split; [reflexivity|].
    split; [reflexivity|]. repeat constructor.
Qed.

(** ** Histories only grow *)

Lemma extends_refl st : extends st st.
Proof. intros c d Hd. exists d. auto. Qed.

Lemma extends_trans st1 st2 st3 :
  extends st1 st2 -> extends st2 st3 -> extends st1 st3.
Proof.
  intros H12 H23 c d Hd.
  destruct (H12 c d Hd) as (d2 & Hd2 & Hu2 & Hp2).
  destruct (H23 c d2 Hd2) as (d3 & Hd3 & Hu3 & Hp3).
  exists d3. split; [exact Hd3|]. split; [congruence|].
  etransitivity; eassumption.
Qed.

Lemma extends_chats st st' : chats st' = chats st -> extends st st'.
Proof. intros H c d Hd. exists d. rewrite H. auto. Qed.

(** Writing a chat back with its owner and with more messages. *)
Lemma extends_with_chat st st0 c d d' :
  chats st0 = chats st ->
  chats st !! c = Some d ->
  IChat.userId d' = IChat.userId d ->
  IChat.messages d `prefix_of` IChat.messages d' ->
  extends st (with_chat c d' st0).
Proof.
  intros H0 Hd Hu Hp c1 d1 Hd1. unfold with_chat. cbn [chats]. rewrite H0.
  destruct (decide (c1 = c)) as [->|Hne].
  - rewrite lookup_insert_eq. exists d'.
    assert (d1 = d) as -> by congruence. auto.
  - rewrite lookup_insert_ne by congruence. exists d1. auto.
Qed.

Lemma pre_save_userId d : IChat.userId (ChatModel.pre_save d) = IChat.userId d.
Proof. unfold ChatModel.pre_save. destruct (last (IChat.messages d)); reflexivity. Qed.

Lemma pre_save_messages d :
  IChat.messages (ChatModel.pre_save d) = IChat.messages d.
Proof. unfold ChatModel.pre_save. destruct (last (IChat.messages d)); reflexivity. Qed.

Section Grows.
Context {A B : Type}.

Lemma grows_keeps (m : M A) : keeps chats m -> grows m.
Proof. intros Hm env st. apply extends_chats, Hm. Qed.

Lemma grows_bind (m : M A) (k : A -> M B) :
  grows m -> (forall a, grows (k a)) -> grows (bind m k).
Proof.
  intros Hm Hk env st. rewrite final_bind.
  destruct (value (m env st)); [|apply Hm].
  eapply extends_trans; [apply Hm|apply Hk].
Qed.

Lemma grows_try_catch (m : M A) (h : Js.exn -> M A) :
  grows m -> (forall e, grows (h e)) -> grows (try_catch m h).
Proof.
  intros Hm Hh env st. rewrite final_try_catch.
  destruct (value (m env st)); [apply Hm|].
  eapply extends_trans; [apply Hm|apply Hh].
Qed.
End Grows.

Lemma grows_addMessageToChat c u draft :
  grows (ChatService.addMessageToChat c u draft).
Proof.
  intros env st. rewrite addMessageToChat_run. cbv zeta.
  destruct (db_fault env (ops st)); [apply extends_chats; reflexivity|].
  destruct (found st c u) as [doc|] eqn:Hfound;
    [|apply extends_chats; reflexivity].
  apply found_Some in Hfound as (d & Hd & _ & _ & ->).
  cbn [Document.fields Document._id ChatModel.hydrate].
  destruct (ChatModel.validate _); [|apply extends_chats; reflexivity].
  destruct (db_fault env _); [apply extends_chats; reflexivity|].
  cbn [final]. eapply extends_with_chat; [reflexivity|exact Hd| |].
  - rewrite pre_save_userId. reflexivity.
  - rewrite pre_save_messages. cbn [ChatModel.push IChat.messages].
    apply prefix_app_r. reflexivity.
Qed.

Lemma grows_deleteChat c u : grows (ChatService.deleteChat c u).
Proof.
  intros env st. rewrite deleteChat_run. cbv zeta.
  destruct (db_fault env (ops st)); [apply extends_chats; reflexivity|].
  destruct (found st c u) as [doc|] eqn:Hfound;
    [|apply extends_chats; reflexivity].
  apply found_Some in Hfound as (d & Hd & _ & _ & ->).
  cbn [Document.fields Document._id ChatModel.hydrate].
  destruct (ChatModel.validate _); [|apply extends_chats; reflexivity].
  destruct (db_fault env _); [apply extends_chats; reflexivity|].
  cbn [final]. eapply extends_with_chat; [reflexivity|exact Hd| |].
  - rewrite pre_save_userId. reflexivity.
  - rewrite pre_save_messages. reflexivity.
Qed.

Lemma grows_updateChatTitle c u newTitle :
  grows (ChatService.updateChatTitle c u newTitle).
Proof.
  intros env st. rewrite updateChatTitle_run. cbv zeta.
  destruct (db_fault env (ops st)); [apply extends_chats; reflexivity|].
  destruct (found st c u) as [doc|] eqn:Hfound;
    [|apply extends_chats; reflexivity].
  apply found_Some in Hfound as (d & Hd & _ & _ & ->).
  cbn [Document.fields Document._id ChatModel.hydrate].
  destruct (ChatModel.validate _); [|apply extends_chats; reflexivity].
  destruct (db_fault env _); [apply extends_chats; reflexivity|].
  cbn [final]. eapply extends_with_chat; [reflexivity|exact Hd| |].
  - rewrite pre_save_userId. reflexivity.
  - rewrite pre_save_messages. reflexivity.
Qed.

Lemma extends_bind {A B} (m : M A) (k : A -> M B) env st st0 :
  extends st (final (m env st0)) ->
  (forall a, value (m env st0) = Ok a ->
             extends st (final (k a env (final (m env st0))))) ->
  extends st (final (bind m k env st0)).
Proof.
  intros Hm Hk. rewrite final_bind.
  destruct (value (m env st0)) as [a|e]; [apply Hk; reflexivity|exact Hm].
Qed.

Lemma extends_save st st0 doc d env :
  chats st0 = chats st ->
  chats st !! Document._id doc = Some d ->
  IChat.userId (Document.fields doc) = IChat.userId d ->
  IChat.messages d `prefix_of` IChat.messages (Document.fields doc) ->
  extends st (final (ChatModel.save doc env st0)).
Proof.
  intros H0 Hd Hu Hp.
  destruct (ChatModel.validate (Document.fields doc)) as [|f fs] eqn:Hv.
  - rewrite save_valid by exact Hv.
    destruct (db_fault env _); [apply extends_chats; exact H0|].
    cbn [final]. eapply extends_with_chat; [exact H0|exact Hd| |].
    + rewrite pre_save_userId. exact Hu.
    + rewrite pre_save_messages. exact Hp.
  - erewrite save_invalid; [apply extends_chats; exact H0|].
    rewrite Hv. apply list_elem_of_here.
Qed.

Lemma grows_clearSessionContext c :
  grows (SessionMemoryService.clearSessionContext c).
Proof.
  intros env st. unfold SessionMemoryService.clearSessionContext.
  rewrite final_try_catch.
  match goal with |- extends _ (match value (?m env st) with _ => _ end) =>
    assert (extends st (final (m env st))) as Hm;
    [|destruct (value (m env st)); exact Hm]
  end.
  apply extends_bind; [apply extends_chats, keeps_chats_findById|].
  intros chat Hchat. rewrite findById_run in *. cbn [value final] in *.
  destruct (db_fault env (ops st)); [discriminate|]. injection Hchat as <-.
  destruct (chats st !! c) as [d|] eqn:Hd;
    cbn [fmap option_fmap option_map]; [|apply extends_chats; reflexivity].
  apply extends_bind; [|intros _ _].
  - eapply extends_save; [reflexivity|exact Hd|reflexivity|reflexivity].
  - eapply extends_save; [reflexivity|exact Hd|reflexivity|reflexivity].
Qed.

#[export] Hint Resolve grows_addMessageToChat : grows.

Ltac grows_step :=
  match goal with
  | |- grows (bind _ _) => apply grows_bind; [|intros ?]
  | |- grows (try_catch _ _) => apply grows_try_catch; [|intros ?]
  | |- grows (match ?x with _ => _ end) => destruct x
  | |- grows (if ?x then _ else _) => destruct x
  | |- grows _ =>
      solve [auto with grows
            |apply grows_keeps; repeat keeps_step]
  end.

Lemma grows_try_save c u draft line :
  grows (SocketService.try_save c u draft line).
Proof. unfold SocketService.try_save. repeat grows_step. Qed.

#[export] Hint Resolve grows_try_save : grows.

Lemma grows_deliver socket u c resp :
  grows (SocketService.deliver socket u c resp).
Proof. unfold SocketService.deliver. cbv zeta. repeat grows_step. Qed.

#[export] Hint Resolve grows_deliver : grows.

Lemma grows_on_message socket text c :
  grows (SocketService.on_message socket text c).
Proof. unfold SocketService.on_message. cbv zeta. repeat grows_step. Qed.

(** X12.  Histories are append-only.  Whatever [addMessageToChat],
    [deleteChat], [updateChatTitle], [clearSessionContext] and the
    [message] handler do, and whether they return or throw, every chat
    that was stored is still stored afterwards, has the owner it had, and
    the messages it had are the first messages it has, unchanged and in
    the same order. *)
Theorem histories_only_grow env st c d :
  chats st !! c = Some d ->
  let kept {A} (m : M A) :=
    exists d',
      chats (final (m env st)) !! c = Some d' /\
      IChat.userId d' = IChat.userId d /\
      IChat.messages d `prefix_of` IChat.messages d' in
  (forall chatId userId message,
     kept (ChatService.addMessageToChat chatId userId message)) /\
  (forall chatId userId, kept (ChatService.deleteChat chatId userId)) /\
  (forall chatId userId newTitle,
     kept (ChatService.updateChatTitle chatId userId newTitle)) /\
  (forall chatId, kept (SessionMemoryService.clearSessionContext chatId)) /\
  (forall socket text chatId,
     kept (SocketService.on_message socket text chatId)).
Proof.
  intros Hd kept. subst kept. cbv beta.
  split; [intros; exact (grows_addMessageToChat _ _ _ env st c d Hd)|].
  split; [intros; exact (grows_deleteChat _ _ env st c d Hd)|].
  split; [intros; exact (grows_updateChatTitle _ _ _ env st c d Hd)|].
  split; [intros; exact (grows_clearSessionContext _ env st c d Hd)|].
  intros; exact (grows_on_message _ _ _ env st c d Hd).
Qed.

(** ** A message that the handler accepts *)

Lemma validate_push d draft t id :
  schema_valid d ->
  (length (IChat.messages d) < 1000)%nat ->
  well_formed
    (IChatMessage.make (Js.trim (Draft.text draft)) (Draft.sender draft) t
       (Draft.aiModel draft) (Some id)) ->
  ChatModel.validate (ChatModel.push d draft t id) = [].
Proof.
  intros (Hu & Ht & Hp & Hm & Hw & _) Hlen Hnew. apply validate_nil.
  unfold ChatModel.push.
  cbn [IChat.userId IChat.title IChat.topics IChat.messages].
  repeat split; try assumption; try lia.
  - rewrite length_app. cbn [length]. lia.
  - apply Forall_app. split; [exact Hw|]. constructor; [exact Hnew|constructor].
Qed.

Lemma append_run_ok c u draft env st d :
  chats st !! c = Some d ->
  IChat.userId d = u -> IChat.isActive d = true ->
  ChatModel.validate
    (ChatModel.push d draft (clock env (reads st)) (objectId env (ids st))) = [] ->
  db_fault env (ops st) = None ->
  db_fault env (S (ops st)) = None ->
  ChatService.addMessageToChat c u draft env st =
  let d' :=
    ChatModel.push d draft (clock env (reads st)) (objectId env (ids st)) in
  Build_Run (Ok (ChatModel.hydrate c d'))
    (with_chat c d' (after_db_op (after_id (after_now (after_db_op st)))))
    [DbFindOne c u; DbSave c].
Proof.
  intros Hd Hu Ha Hv Hdb1 Hdb2. rewrite addMessageToChat_run. cbv zeta.
  rewrite Hdb1, (found_owner st c u d Hd Hu Ha).
  cbn [Document.fields Document._id Document.userInfo Document.sessionContext
       ChatModel.hydrate].
  rewrite Hv. cbn [ops after_id after_now after_db_op]. rewrite Hdb2.
  rewrite pre_save_push. reflexivity.
Qed.

(** The text that the handler lets through, once trimmed, is a text that
    the schema lets through. *)
Lemma acceptable_well_formed text t id :
  acceptable text = true ->
  well_formed (IChatMessage.make (Js.trim (Js.trim text)) user t None id).
Proof.
  unfold acceptable. intros H. apply andb_true_iff in H as [H1 H2].
  apply negb_true_iff, orb_false_iff in H1 as [_ H1].
  apply negb_true_iff in H2.
  apply Nat.eqb_neq in H1. apply Nat.ltb_ge in H2.
  unfold well_formed. cbn [IChatMessage.text IChatMessage.aiModel
    IChatMessage.sender]. rewrite trim_idempotent.
  pose proof (trim_length text). split; [lia|reflexivity].
Qed.

(** X13.  A [message] event of the owner of an active chat whose text the
    handler accepts is stored: when the chat passes the validators of the
    schema, has fewer than 1000 messages, and the three database
    operations of the lookup and of the append succeed, the chat of the
    collection has, after the handler, the messages it had, then the
    trimmed text as a message of the user, stamped with the clock and the
    object id read at the append, and then whatever was stored of the
    answer of the AI. *)
Theorem accepted_message_is_stored env st socket text chatId U d :
  SocketService.authenticated socket = Some U ->
  acceptable text = true ->
  chats st !! chatId = Some d ->
  IChat.userId d = U -> IChat.isActive d = true ->
  schema_valid d ->
  (length (IChat.messages d) < 1000)%nat ->
  (forall n, (n < 3)%nat -> db_fault env (ops st + n)%nat = None) ->
  exists d',
    chats (final (SocketService.on_message socket text chatId env st)) !! chatId
    = Some d' /\
    IChat.userId d' = U /\
    (IChat.messages d
     ++ [IChatMessage.make (Js.trim text) user (clock env (reads st)) None
           (Some (objectId env (ids st)))])
    `prefix_of` IChat.messages d'.
Proof.
  intros Hauth Hacc Hd Hu Ha Hvalid Hlen Hdb.
  assert (db_fault env (ops st) = None) as Hdb0
    by (rewrite <- (Hdb 0%nat) by lia; f_equal; lia).
  assert (db_fault env (S (ops st)) = None) as Hdb1
    by (rewrite <- (Hdb 1%nat) by lia; f_equal; lia).
  assert (db_fault env (S (S (ops st))) = None) as Hdb2
    by (rewrite <- (Hdb 2%nat) by lia; f_equal; lia).
  set (userMessage := Draft.make (Js.trim text) user None).
  set (s := SocketService.try_save chatId U userMessage
              SocketService.user_save_failed env (after_db_op st)).
  set (g := AIService.generateAIResponse text (IChat.topics d) None None env
              (after_now (after_now (final s)))).
  destruct (total_generate text (IChat.topics d) None None env
              (after_now (after_now (final s)))) as [resp Hresp].
  fold g in Hresp.
  rewrite (on_message_accepted env st socket text chatId U
             (ChatModel.hydrate chatId d) resp Hauth Hacc Hdb0
             (found_owner st chatId U d Hd Hu Ha) Hresp).
  cbn [final]. fold userMessage s. cbn [Document.fields ChatModel.hydrate].
  fold g.
  set (m := IChatMessage.make (Js.trim text) user (clock env (reads st)) None
              (Some (objectId env (ids st)))).
  assert (exists d1, chats (final s) !! chatId = Some d1 /\
                     IChat.userId d1 = U /\
                     IChat.messages d1 = IChat.messages d ++ [m])
    as (d1 & Hd1 & Hu1 & Hm1).
  { unfold s. rewrite try_save_run. cbv zeta. cbn [final].
    rewrite (append_run_ok chatId U userMessage env (after_db_op st) d Hd Hu Ha).
    - cbv zeta. cbn [final with_chat chats]. rewrite lookup_insert_eq.
      eexists. split; [reflexivity|]. split; [exact Hu|].
      unfold ChatModel.push, userMessage, m.
      cbn [IChat.messages Draft.text Draft.sender Draft.aiModel reads ids
           after_db_op]. rewrite trim_idempotent. reflexivity.
    - apply validate_push; [exact Hvalid|exact Hlen|].
      unfold userMessage. cbn [Draft.text Draft.sender Draft.aiModel].
      apply acceptable_well_formed, Hacc.
    - exact Hdb1.
    - exact Hdb2. }
  assert (chats (final g) = chats (final s)) as Hg
    by exact (keeps_chats_generateAIResponse text (IChat.topics d) None None
                env (after_now (after_now (final s)))).
  rewrite <- Hg in Hd1.
  destruct (grows_deliver socket U chatId resp env (final g) chatId d1 Hd1)
    as (d' & Hd' & Hu' & Hp').
  exists d'. split; [exact Hd'|]. split; [congruence|].
  rewrite <- Hm1. exact Hp'.
Qed.

(** X14.  When [addMessageToChat] returns, the returned document is what the
    collection holds under the chat id and what the owner's next lookup
    finds; its last message is the draft with the text trimmed, stamped
    with the clock and the object id read at the append, and it passes the
    validators of the message schema; the chat has at most 1000 messages;
    and no other chat of the collection has changed. *)
Theorem appended_message_is_last env st chatId userId message doc :
  value (ChatService.addMessageToChat chatId userId message env st) = Ok doc ->
  let st' := final (ChatService.addMessageToChat chatId userId message env st) in
  let stored :=
    IChatMessage.make (Js.trim (Draft.text message)) (Draft.sender message)
      (clock env (reads st)) (Draft.aiModel message)
      (Some (objectId env (ids st))) in
  chats st' !! chatId = Some (Document.fields doc) /\
  ChatModel.lastMessage doc = Some stored /\
  well_formed stored /\
  (ChatModel.messageCount doc <= 1000)%nat /\
  (forall other, other <> chatId -> chats st' !! other = chats st !! other) /\
  (forall env',
     db_fault env' (ops st') = None ->
     value (ChatService.getChatById chatId userId env' st') = Ok (Some doc)).
Proof.
  intros Hok st' stored. revert Hok. unfold st'. clear st'.
  rewrite addMessageToChat_run. cbv zeta.
  destruct (db_fault env (ops st)); [discriminate|].
  destruct (found st chatId userId) as [doc'|] eqn:Hfound; [|discriminate].
  apply found_Some in Hfound as (d & Hd & Hu & Ha & ->).
  cbn [Document.fields Document._id Document.userInfo Document.sessionContext
       ChatModel.hydrate].
  destruct (ChatModel.validate _) eqn:Hv; [|discriminate].
  destruct (db_fault env _); [discriminate|].
  rewrite pre_save_push. cbn [value final]. intros [= <-].
  apply validate_nil in Hv as (_ & _ & _ & Hm & Hw).
  cbn [ChatModel.push IChat.messages] in Hm, Hw.
  apply Forall_app in Hw as [_ Hw]. apply Forall_inv in Hw.
  cbn [Document.fields with_chat chats].
  split; [apply lookup_insert_eq|].
  split; [unfold ChatModel.lastMessage; cbn [Document.fields ChatModel.push
            IChat.messages]; apply last_snoc|].
  split; [exact Hw|]. split; [exact Hm|].
  split; [intros other Hother; apply lookup_insert_ne; congruence|].
  intros env' Hdb. rewrite getChatById_run, Hdb. cbn [value].
  rewrite found_with_chat. cbn [ChatModel.push IChat.userId IChat.isActive].
  rewrite Ha, bool_decide_eq_true_2 by exact Hu. reflexivity.
Qed.

(** ** The statistics of a user's chats *)

Lemma ChatTopic_eqb_eq a b : ChatTopic_eqb a b = true <-> a = b.
Proof. destruct a, b; cbn; split; intros; congruence. Qed.

Lemma tally_count_topic topic t breakdown :
  tally topic (ChatService.count_topic t breakdown)
  = (tally topic breakdown + if ChatTopic_eqb t topic then 1 else 0)%nat.
Proof.
  induction breakdown as [|[t' n] rest IH]; cbn [ChatService.count_topic tally].
  - destruct (ChatTopic_eqb t topic); reflexivity.
  - destruct (ChatTopic_eqb t' t) eqn:Ht; cbn [tally].
    + apply ChatTopic_eqb_eq in Ht. subst t'.
      destruct (ChatTopic_eqb t topic); lia.
    + destruct (ChatTopic_eqb t' topic) eqn:Ht'; [|exact IH].
      apply ChatTopic_eqb_eq in Ht'. subst t'.
      destruct t, topic; try discriminate; cbn; lia.
Qed.

Lemma keys_count_topic t breakdown x :
  x ∈ map fst (ChatService.count_topic t breakdown) <->
  x = t \/ x ∈ map fst breakdown.
Proof.
  induction breakdown as [|[t' n] rest IH]; cbn [ChatService.count_topic map fst].
  - rewrite list_elem_of_singleton. split; [auto|].
    intros [H|H]; [exact H|inversion H].
  - destruct (ChatTopic_eqb t' t) eqn:Ht; cbn [map fst].
    + apply ChatTopic_eqb_eq in Ht. subst t'. rewrite elem_of_cons. tauto.
    + rewrite !elem_of_cons, IH. tauto.
Qed.

Lemma NoDup_count_topic t breakdown :
  NoDup (map fst breakdown) -> NoDup (map fst (ChatService.count_topic t breakdown)).
Proof.
  induction breakdown as [|[t' n] rest IH]; cbn [ChatService.count_topic map fst];
    intros H.
  - apply NoDup_singleton.
  - destruct (ChatTopic_eqb t' t) eqn:Ht; cbn [map fst]; [exact H|].
    apply NoDup_cons in H as [Hnotin H]. apply NoDup_cons. split; [|apply IH, H].
    rewrite keys_count_topic. intros [->|Hin]; [|contradiction].
    destruct t; discriminate.
Qed.

Lemma positive_count_topic t breakdown :
  Forall (fun e => (0 < snd e)%nat) breakdown ->
  Forall (fun e => (0 < snd e)%nat) (ChatService.count_topic t breakdown).
Proof.
  induction 1 as [|[t' n] rest Hn Hrest IH]; cbn [ChatService.count_topic].
  - repeat constructor.
  - destruct (ChatTopic_eqb t' t); constructor; cbn [snd] in *;
      try assumption; lia.
Qed.

(** The inner loop, over the topics of one chat. *)
Lemma count_topics topics breakdown :
  let counted :=
    fold_left (fun breakdown topic => ChatService.count_topic topic breakdown)
      topics breakdown in
  (forall topic,
     tally topic counted
     = (tally topic breakdown
        + length (List.filter (fun t => ChatTopic_eqb t topic) topics))%nat) /\
  (NoDup (map fst breakdown) -> NoDup (map fst counted)) /\
  (Forall (fun e => (0 < snd e)%nat) breakdown ->
   Forall (fun e => (0 < snd e)%nat) counted).
Proof.
  revert breakdown. induction topics as [|t topics IH]; intros breakdown;
    cbn [fold_left List.filter length].
  - repeat split; auto. 
  - destruct (IH (ChatService.count_topic t breakdown)) as (Ht & Hk & Hp).
    cbv zeta in *. split; [|split].
    + intros topic. rewrite Ht, tally_count_topic.
      destruct (ChatTopic_eqb t topic); cbn [length]; lia.
    + intros H. apply Hk, NoDup_count_topic, H.
    + intros H. apply Hp, positive_count_topic, H.
Qed.

(** The loop over the chats, from any state of its three variables. *)
Lemma count_chats chats totalMessages topicBreakdown recentActivity :
  match fold_left ChatService.count_chat chats
          (totalMessages, topicBreakdown, recentActivity) with
  | (totalMessages', topicBreakdown', recentActivity') =>
      totalMessages'
      = (totalMessages
         + sum_list (map (fun c => length (IChat.messages c)) chats))%nat /\
      (forall topic,
         tally topic topicBreakdown'
         = (tally topic topicBreakdown + occurrences topic chats)%nat) /\
      (NoDup (map fst topicBreakdown) -> NoDup (map fst topicBreakdown')) /\
      (Forall (fun e => (0 < snd e)%nat) topicBreakdown ->
       Forall (fun e => (0 < snd e)%nat) topicBreakdown') /\
      match recentActivity' with
      | None => recentActivity = None /\ chats = []
      | Some t =>
          (recentActivity = Some t \/
           exists c, c ∈ chats /\ IChat.lastMessageAt c = t) /\
          (forall t0, recentActivity = Some t0 -> t0 <= t) /\
          Forall (fun c => IChat.lastMessageAt c <= t) chats
      end
  end.
Proof.
  revert totalMessages topicBreakdown recentActivity.
  induction chats as [|chat chats IH];
    intros totalMessages topicBreakdown recentActivity.
  - cbn [fold_left map sum_list]. unfold occurrences. cbn.
    split; [lia|]. split; [intros; lia|]. split; [auto|]. split; [auto|].
    destruct recentActivity as [t|]; [|auto].
    split; [left; reflexivity|]. split; [|constructor].
    intros t0 [= ->]. lia.
  - cbn [fold_left]. unfold ChatService.count_chat at 2.
    match goal with |- context [fold_left _ chats (?a, ?b, ?c)] =>
      specialize (IH a b c);
      destruct (fold_left ChatService.count_chat chats (a, b, c))
        as [[tm' tb'] ra']
    end.
    destruct IH as (Hm & Ht & Hk & Hp & Hr).
    destruct (count_topics (IChat.topics chat) topicBreakdown)
      as (Ht1 & Hk1 & Hp1). cbv zeta in *.
    split; [|split; [|split; [|split]]].
    + rewrite Hm. cbn [map sum_list_with]. unfold id. lia.
    + intros topic. rewrite Ht, Ht1. unfold occurrences.
      cbn [map concat]. rewrite List.filter_app, length_app. lia.
    + intros H. apply Hk, Hk1, H.
    + intros H. apply Hp, Hp1, H.
    + destruct ra' as [t|].
      * destruct Hr as (Hfrom & Hge & Hall).
        assert (IChat.lastMessageAt chat <= t /\
                forall t0, recentActivity = Some t0 -> t0 <= t) as [Hc Hold].
        { destruct recentActivity as [r|].
          - destruct (Z.ltb_spec r (IChat.lastMessageAt chat)).
            + specialize (Hge _ eq_refl). split; [lia|].
              intros t0 [= <-]. lia.
            + specialize (Hge _ eq_refl). split; [lia|].
              intros t0 [= <-]. lia.
          - specialize (Hge _ eq_refl). split; [lia|discriminate]. }
        split; [|split; [exact Hold|constructor; assumption]].
        destruct Hfrom as [Hfrom|(c & Hc1 & Hc2)].
        -- destruct recentActivity as [r|].
           ++ destruct (Z.ltb_spec r (IChat.lastMessageAt chat)).
              ** injection Hfrom as <-. right. exists chat.
                 split; [apply list_elem_of_here|reflexivity].
              ** left. exact Hfrom.
           ++ injection Hfrom as <-. right. exists chat.
              split; [apply list_elem_of_here|reflexivity].
        -- right. exists c. split; [apply list_elem_of_further, Hc1|exact Hc2].
      * destruct Hr as [Hr _]. destruct recentActivity as [r|].
        -- destruct (r <? IChat.lastMessageAt chat); discriminate.
        -- discriminate.
Qed.

(** X15.  The statistics that [getChatStats] computes from the chats of a
    user: [totalMessages] is the number of messages of the active chats;
    [topicBreakdown] has one key per topic that occurs in an active chat,
    with the number of its occurrences; [recentActivity] is [null]
    exactly when no chat is active, and is otherwise the latest
    [lastMessageAt] of the active chats. *)
Theorem chatStats_counts chats :
  let stats := ChatService.chatStats chats in
  let active := List.filter IChat.isActive chats in
  ChatService.totalMessages stats
  = sum_list (map (fun c => length (IChat.messages c)) active) /\
  (forall topic,
     tally topic (ChatService.topicBreakdown stats) = occurrences topic active) /\
  NoDup (map fst (ChatService.topicBreakdown stats)) /\
  Forall (fun e => (0 < snd e)%nat) (ChatService.topicBreakdown stats) /\
  match ChatService.recentActivity stats with
  | None => active = []
  | Some t =>
      (exists c, c ∈ active /\ IChat.lastMessageAt c = t) /\
      Forall (fun c => IChat.lastMessageAt c <= t) active
  end.
Proof.
  intros stats active. unfold stats, ChatService.chatStats. cbv zeta.
  fold active.
  pose proof (count_chats active 0%nat [] None) as H.
  destruct (fold_left ChatService.count_chat active (0%nat, [], None))
    as [[tm tb] ra].
  destruct H as (Hm & Ht & Hk & Hp & Hr).
  cbn [ChatService.totalMessages ChatService.topicBreakdown
       ChatService.recentActivity].
  split; [rewrite Hm; lia|]. split; [intros topic; rewrite Ht; reflexivity|].
  split; [apply Hk; constructor|]. split; [apply Hp; constructor|].
  destruct ra as [t|].
  - destruct Hr as ([Hr|Hr] & _ & Hall); [discriminate|]. split; assumption.
  - apply Hr.
Qed.

(** ** The health check of the backends *)

Lemma disabled_run m reason env st :
  AIService.disabled m reason env st =
  Build_Run
    (Ok (AIResponse.make EmptyString m false (Some reason) None
           (Some (elapsed env st))))
    (after_now (after_now st)) [].
Proof. reflexivity. Qed.

Lemma probe_run m env st resp st' tr :
  AIService.modelFunctions m AIService.testPrompt AIService.testTopics env st
  = Build_Run (Ok resp) st' tr ->
  AIService.probe m env st =
  Build_Run
    (Ok (AIService.HealthStatus.make (AIResponse.success resp)
           (clock env (reads st')) (AIResponse.error resp)
           (AIResponse.responseTime resp)))
    (after_now st') tr.
Proof.
  intros H. unfold AIService.probe. erewrite bind_ok by exact H.
  erewrite bind_ok by reflexivity. unfold prepend. cbn [value final emitted ret].
  rewrite !app_nil_r. reflexivity.
Qed.

(** The run of the health check, from the run of its one request. *)
Lemma checkAIModelsHealth_run env st resp stg tr :
  AIService.callGPT4 AIService.testPrompt AIService.testTopics env
    (after_now (after_now (after_now (after_now st))))
  = Build_Run (Ok resp) stg tr ->
  exists report st',
    AIService.checkAIModelsHealth env st = Build_Run (Ok report) st' tr /\
    AIService.HealthStatus.available (report GPT4) = AIResponse.success resp /\
    (forall m,
       m <> GPT4 ->
       AIService.HealthStatus.available (report m) = false /\
       AIService.HealthStatus.error (report m)
       = Some (match m with
               | CLAUDE3 => "Claude 3"
               | MISTRAL => "Mistral"
               | _ => "Composio"
               end +:+ " API key not configured")) /\
    chats st' = chats stg /\ rooms st' = rooms stg.
Proof.
  intros Hg. unfold AIService.checkAIModelsHealth.
  do 4 (erewrite bind_ok by reflexivity; rewrite prepend_nil).
  erewrite bind_ok by (apply probe_run; exact Hg).
  erewrite bind_ok
    by (apply probe_run; cbn [AIService.modelFunctions];
        unfold AIService.callClaude3; apply disabled_run).
  erewrite bind_ok
    by (apply probe_run; cbn [AIService.modelFunctions];
        unfold AIService.callMistral; apply disabled_run).
  erewrite bind_ok
    by (apply probe_run; cbn [AIService.modelFunctions];
        unfold AIService.callComposio; apply disabled_run).
  unfold prepend. cbn [value final emitted ret]. rewrite !app_nil_r.
  eexists _, _. split; [reflexivity|]. cbv beta.
  split; [reflexivity|].
  split; [intros [] Hm; try contradiction; split; reflexivity|].
  split; reflexivity.
Qed.

(** X16.  [checkAIModelsHealth] never throws and sends exactly one request,
    the test prompt to gpt-4; gpt-4 is reported available exactly when
    that request resolved, the three other backends are always reported
    unavailable, each with the reason that its API key is not configured;
    the check leaves the collection and the rooms as they were. *)
Theorem health_check_probes_gpt4_only env st :
  let r := AIService.checkAIModelsHealth env st in
  let request :=
    ApiRequest "gpt-4" (AIService.generateSystemPrompt [EDUCATION])
      "Hello, this is a health check." in
  exists report,
    value r = Ok report /\
    (AIService.HealthStatus.available (report GPT4) = true <->
     exists content tokens,
       openai env (calls st) (AIService.generateSystemPrompt [EDUCATION])
         "Hello, this is a health check." = Resolved content tokens) /\
    (forall m,
       m <> GPT4 ->
       AIService.HealthStatus.available (report m) = false /\
       AIService.HealthStatus.error (report m)
       = Some (match m with
               | CLAUDE3 => "Claude 3"
               | MISTRAL => "Mistral"
               | _ => "Composio"
               end +:+ " API key not configured")) /\
    (exists lines,
       emitted r = request :: map Console lines) /\
    chats (final r) = chats st /\ rooms (final r) = rooms st.
Proof.
  set (sys := AIService.generateSystemPrompt [EDUCATION]).
  set (hello := "Hello, this is a health check.").
  pose proof (callGPT4_run hello [EDUCATION] env
                (after_now (after_now (after_now (after_now st))))) as Hrun.
  cbv zeta in Hrun. fold sys in Hrun.
  change (calls (after_now (after_now (after_now (after_now st)))))
    with (calls st) in Hrun.
  destruct (openai env (calls st) sys hello) as [content tokens|e] eqn:Hopen.
  - destruct (checkAIModelsHealth_run env st _ _ _ Hrun)
      as (report & st' & Hr & Hgpt4 & Hothers & Hchats & Hrooms).
    intros r request. unfold r. rewrite Hr. cbn [value final emitted].
    exists report. split; [reflexivity|].
    split; [rewrite Hgpt4; split; [intros _; eauto|reflexivity]|].
    split; [exact Hothers|].
    split; [exists []; reflexivity|].
    rewrite Hchats, Hrooms. split; reflexivity.
  - destruct (checkAIModelsHealth_run env st _ _ _ Hrun)
      as (report & st' & Hr & Hgpt4 & Hothers & Hchats & Hrooms).
    intros r request. unfold r. rewrite Hr. cbn [value final emitted].
    exists report. split; [reflexivity|].
    split; [rewrite Hgpt4; split;
            [discriminate|intros (? & ? & ?); discriminate]|].
    split; [exact Hothers|].
    split; [eexists [_]; reflexivity|].
    rewrite Hchats, Hrooms. split; reflexivity.
Qed.

(** ** Bearer tokens *)

Lemma after_prefix_app p s : Js.after_prefix p (p +:+ s) = Some s.
Proof.
  induction p as [|a p IH]; [destruct s; reflexivity|].
  change (String a p +:+ s) with (String a (p +:+ s)).
  cbn [Js.after_prefix]. rewrite bool_decide_eq_true_2 by reflexivity.
  exact IH.
Qed.

Lemma after_prefix_Some p s rest :
  Js.after_prefix p s = Some rest -> s = p +:+ rest.
Proof.
  revert s. induction p as [|a p IH]; intros s.
  - destruct s; intros [= <-]; reflexivity.
  - destruct s as [|b s]; [discriminate|]. cbn [Js.after_prefix].
    destruct (bool_decide (a = b)) eqn:Hab; [|discriminate].
    apply bool_decide_eq_true_1 in Hab. subst b. intros H.
    change (String a p +:+ rest) with (String a (p +:+ rest)).
    f_equal. apply IH, H.
Qed.

Lemma remove_first_prefix p s :
  p <> EmptyString -> Js.remove_first p (p +:+ s) = s.
Proof.
  intros _. destruct (p +:+ s) eqn:E;
    cbn [Js.remove_first]; rewrite <- E, after_prefix_app; reflexivity.
Qed.

(** X17.  [extractTokenFromHeader] inverts the prefixing of a token with
    ['Bearer ']: it returns the token of a header so built, and whatever
    it returns, prefixed again, is the header it was given.  The
    [replace('Bearer ', '')] of the Socket.IO middleware reads the same
    token from such a header. *)
Theorem bearer_round_trip :
  (forall token,
     Jwt.extractTokenFromHeader (Some ("Bearer " +:+ token)) = Some token /\
     Js.remove_first "Bearer " ("Bearer " +:+ token) = token) /\
  (forall authHeader token,
     Jwt.extractTokenFromHeader authHeader = Some token ->
     authHeader = Some ("Bearer " +:+ token)).
Proof.
  split.
  - intros token. split.
    + apply (after_prefix_app "Bearer " token).
    + apply remove_first_prefix. discriminate.
  - intros [authHeader|] token; [|discriminate].
    cbn [Jwt.extractTokenFromHeader]. intros H.
    f_equal. apply after_prefix_Some, H.
Qed.

(** ** Admission of a connection *)

Lemma validateUserSession_run db userId env st :
  exists session lines,
    AuthService.validateUserSession db userId env st
    = Build_Run (Ok session) st (map Console lines) /\
    forall account, session = Some account -> AuthService._id account = userId.
Proof.
  unfold AuthService.validateUserSession, AuthService.findById.
  destruct (AuthService.fault db) as [e|].
  - exists None, ["Error validating user session: " +:+ Js.describe e].
    split; [reflexivity|discriminate].
  - destruct (AuthService.docs db !! userId) as [[[email name] [|]]|];
      cbn [fmap option_fmap option_map].
    + eexists (Some _), []. split; [reflexivity|].
      intros account [= <-]. reflexivity.
    + exists None, []. split; [reflexivity|discriminate].
    + exists None, []. split; [reflexivity|discriminate].
Qed.

(** The user that the middleware attaches to the socket has the id of the
    token, whatever the [users] collection holds. *)
Lemma attach_user_run db tokenPayload env st :
  exists account lines,
    try_catch
      (let* session :=
         AuthService.validateUserSession db (Jwt.userId tokenPayload) in
       match session with
       | Some account => ret account
       | None =>
           await console
             "Socket.IO: User not found in database, creating mock user for testing" then
           ret (SocketService.mock_user tokenPayload)
       end)
      (fun error =>
         await console
           ("Socket.IO: Database validation failed, using token data for testing: "
            +:+ Js.describe error) then
         ret (SocketService.mock_user tokenPayload)) env st
    = Build_Run (Ok account) st (map Console lines) /\
    AuthService._id account = Jwt.userId tokenPayload.
Proof.
  destruct (validateUserSession_run db (Jwt.userId tokenPayload) env st)
    as (session & lines & Hrun & Hid).
  destruct session as [account|].
  - exists account, lines. split; [|apply Hid; reflexivity].
    erewrite try_catch_ok; [reflexivity|].
    erewrite bind_ok by exact Hrun. unfold prepend. cbn [value final emitted ret].
    rewrite app_nil_r. reflexivity.
  - exists (SocketService.mock_user tokenPayload),
      (lines ++ ["Socket.IO: User not found in database, creating mock user for testing"]).
    split; [|reflexivity].
    erewrite try_catch_ok; [reflexivity|].
    erewrite bind_ok by exact Hrun. unfold prepend.
    cbn [value final emitted]. rewrite map_app. reflexivity.
Qed.

(** X18.  The Socket.IO middleware never throws and leaves the store alone;
    it admits a connection exactly when the handshake carries a token
    that is not empty, that [jwt.verify] decodes, and whose [userId] is
    not empty.  The admitted socket then has the id of the connection and
    the [userId] of the token, so that the handlers take it as
    authenticated, whether or not the [users] collection knows the user
    and whether or not it can be read. *)
Theorem admission_depends_on_token_only jwt_verify db socket_id handshake env st :
  let token :=
    Js.or_else (SocketService.auth_token handshake)
      (default EmptyString
         (Js.remove_first "Bearer " <$> SocketService.authorization handshake)) in
  let r := SocketService.authenticate jwt_verify db socket_id handshake env st in
  exists admission,
    value r = Ok admission /\
    final r = st /\
    ((exists socket, admission = SocketService.Accept socket) <->
     Js.truthy token = true /\
     exists payload,
       jwt_verify token = Jwt.Decoded payload /\
       Js.truthy (Jwt.userId payload) = true) /\
    (forall socket,
       admission = SocketService.Accept socket ->
       SocketService.id socket = socket_id /\
       exists payload,
         jwt_verify token = Jwt.Decoded payload /\
         SocketService.userId socket = Some (Jwt.userId payload) /\
         SocketService.authenticated socket = Some (Jwt.userId payload)).
Proof.
  intros token r. unfold r, SocketService.authenticate. clear r.
  cbv zeta. fold token.
  destruct (Js.truthy token) eqn:Htoken; cbn [negb].
  2:{ erewrite try_catch_ok by reflexivity. cbn [value final].
      eexists. split; [reflexivity|]. split; [reflexivity|].
      split; [split; [intros [socket H]; discriminate
                     |intros [H _]; discriminate]|].
      intros socket H. discriminate. }
  unfold Jwt.verifyToken.
  destruct (jwt_verify token) as [payload| | |e] eqn:Hverify.
  - destruct (Js.truthy (Jwt.userId payload)) eqn:Huser.
    + destruct (attach_user_run db payload env st)
        as (account & lines & Hrun & Hid).
      erewrite try_catch_ok.
      2:{ erewrite bind_ok by reflexivity. rewrite prepend_nil. cbv beta.
          rewrite Huser. cbn [negb].
          erewrite bind_ok by exact Hrun.
          erewrite bind_ok by reflexivity. reflexivity. }
      cbn [value final]. eexists. split; [reflexivity|].
      split; [reflexivity|]. rewrite Hid.
      split; [split; [intros _; split; [reflexivity|]; exists payload; auto
                     |intros _; eexists; reflexivity]|].
      intros socket [= <-]. cbn [SocketService.id SocketService.userId].
      split; [reflexivity|]. exists payload.
      split; [reflexivity|]. split; [reflexivity|].
      unfold SocketService.authenticated. cbn [SocketService.userId].
      rewrite Huser. reflexivity.
    + erewrite try_catch_ok.
      2:{ erewrite bind_ok by reflexivity. rewrite prepend_nil. cbv beta.
          rewrite Huser. reflexivity. }
      cbn [value final].
      eexists. split; [reflexivity|]. split; [reflexivity|].
      split; [split; [intros [socket H]; discriminate|]|].
      * intros [_ (payload' & [= <-] & H)]. congruence.
      * intros socket H. discriminate.
  - erewrite try_catch_throw by (erewrite bind_throw by reflexivity; reflexivity).
    cbn [value final].
    eexists. split; [reflexivity|]. split; [reflexivity|].
    split; [split; [intros [socket H]; discriminate
                   |intros [_ (payload' & H & _)]; discriminate]|].
    intros socket H. discriminate.
  - erewrite try_catch_throw by (erewrite bind_throw by reflexivity; reflexivity).
    cbn [value final].
    eexists. split; [reflexivity|]. split; [reflexivity|].
    split; [split; [intros [socket H]; discriminate
                   |intros [_ (payload' & H & _)]; discriminate]|].
    intros socket H. discriminate.
  - erewrite try_catch_throw by (erewrite bind_throw by reflexivity; reflexivity).
    cbn [value final].
    eexists. split; [reflexivity|]. split; [reflexivity|].
    split; [split; [intros [socket H]; discriminate
                   |intros [_ (payload' & H & _)]; discriminate]|].
    intros socket H. discriminate.
Qed.

(** ** The registry of sessions *)

Lemma keys_Map_set key val m :
  forall k, k ∈ map fst (SocketService.Map_set key val m) <->
            k = key \/ k ∈ map fst m.
Proof.
  induction m as [|[k0 v0] m IH]; intros k; cbn [SocketService.Map_set map fst].
  - rewrite list_elem_of_singleton. split; [auto|].
    intros [H|H]; [exact H|inversion H].
  - destruct (bool_decide (k0 = key)) eqn:Hk; cbn [map fst].
    + apply bool_decide_eq_true_1 in Hk. subst k0. rewrite elem_of_cons. tauto.
    + rewrite !elem_of_cons, IH. tauto.
Qed.

Lemma NoDup_Map_set key val m :
  NoDup (map fst m) -> NoDup (map fst (SocketService.Map_set key val m)).
Proof.
  induction m as [|[k0 v0] m IH]; cbn [SocketService.Map_set map fst]; intros H.
  - apply NoDup_singleton.
  - destruct (bool_decide (k0 = key)) eqn:Hk; cbn [map fst]; [exact H|].
    apply bool_decide_eq_false_1 in Hk.
    apply NoDup_cons in H as [Hnotin H]. apply NoDup_cons.
    split; [|apply IH, H]. rewrite keys_Map_set. intros [Heq|Hin]; congruence.
Qed.

Lemma length_Map_set key val m :
  length (SocketService.Map_set key val m)
  = if bool_decide (key ∈ map fst m) then length m else S (length m).
Proof.
  induction m as [|[k0 v0] m IH]; cbn [SocketService.Map_set map fst length].
  - rewrite bool_decide_eq_false_2 by apply not_elem_of_nil. reflexivity.
  - destruct (bool_decide (k0 = key)) eqn:Hk; cbn [length].
    + apply bool_decide_eq_true_1 in Hk. subst k0.
      rewrite bool_decide_eq_true_2 by apply list_elem_of_here. reflexivity.
    + apply bool_decide_eq_false_1 in Hk. rewrite IH.
      destruct (bool_decide (key ∈ map fst m)) eqn:Hin.
      * apply bool_decide_eq_true_1 in Hin.
        rewrite bool_decide_eq_true_2 by (apply list_elem_of_further, Hin).
        reflexivity.
      * apply bool_decide_eq_false_1 in Hin.
        rewrite bool_decide_eq_false_2; [reflexivity|].
        intros H. apply elem_of_cons in H as [H|H]; congruence.
Qed.

Lemma in_keys (m : SocketService.Sessions) k v : (k, v) ∈ m -> k ∈ map fst m.
Proof.
  intros H. apply list_elem_of_fmap. exists (k, v). split; [reflexivity|exact H].
Qed.

(** After [set(key, val)] the key has the value [val] and no other; the
    other keys have the values they had. *)
Lemma lookup_Map_set key val m k v :
  NoDup (map fst m) ->
  (k, v) ∈ SocketService.Map_set key val m <->
  (k = key /\ v = val) \/ (k <> key /\ (k, v) ∈ m).
Proof.
  induction m as [|[k0 v0] m IH]; cbn [SocketService.Map_set map fst]; intros H.
  - rewrite list_elem_of_singleton. split.
    + intros [= -> ->]. left. auto.
    + intros [[-> ->]|[_ Hin]]; [reflexivity|inversion Hin].
  - apply NoDup_cons in H as [Hnotin H].
    destruct (bool_decide (k0 = key)) eqn:Hk.
    + apply bool_decide_eq_true_1 in Hk. subst k0.
      rewrite !elem_of_cons. split.
      * intros [[= -> ->]|Hin]; [left; auto|].
        right. split; [|right; exact Hin].
        intros ->. apply Hnotin. eapply in_keys, Hin.
      * intros [[-> ->]|[Hne [[= Heq _]|Hin]]]; [left; reflexivity|congruence|].
        right. exact Hin.
    + apply bool_decide_eq_false_1 in Hk.
      rewrite !elem_of_cons, (IH H). split.
      * intros [[= -> ->]|[[-> ->]|[Hne Hin]]]; [right; auto|left; auto|].
        right. auto.
      * intros [[-> ->]|[Hne [[= -> ->]|Hin]]]; [right; left; auto|left; auto|].
        right. right. auto.
Qed.

Lemma lookup_Map_delete key (m : SocketService.Sessions) k v :
  (k, v) ∈ SocketService.Map_delete key m <-> k <> key /\ (k, v) ∈ m.
Proof.
  unfold SocketService.Map_delete.
  rewrite !list_elem_of_In, List.filter_In. cbn [fst].
  rewrite negb_true_iff, bool_decide_eq_false. tauto.
Qed.

Lemma NoDup_Map_delete key (m : SocketService.Sessions) :
  NoDup (map fst m) -> NoDup (map fst (SocketService.Map_delete key m)).
Proof.
  unfold SocketService.Map_delete.
  induction m as [|[k0 v0] m IH]; cbn [List.filter map fst]; intros H;
    [constructor|].
  apply NoDup_cons in H as [Hnotin H].
  destruct (negb (bool_decide (k0 = key))); cbn [map fst]; [|apply IH, H].
  apply NoDup_cons. split; [|apply IH, H].
  intros Hin. apply Hnotin.
  apply list_elem_of_fmap in Hin as ([k1 v1] & -> & Hin).
  apply (lookup_Map_delete key m k1 v1) in Hin as [_ Hin].
  eapply in_keys, Hin.
Qed.

Lemma elem_of_getUserSessions sessions userId socketId :
  socketId ∈ SocketService.getUserSessions sessions userId <->
  (socketId, userId) ∈ sessions.
Proof.
  unfold SocketService.getUserSessions. rewrite list_elem_of_fmap. split.
  - intros ([k v] & -> & Hin).
    apply list_elem_of_In, List.filter_In in Hin as [Hin Hv].
    apply bool_decide_eq_true_1 in Hv. cbn in Hv. subst v.
    apply list_elem_of_In, Hin.
  - intros Hin. exists (socketId, userId). split; [reflexivity|].
    apply list_elem_of_In, List.filter_In. split; [apply list_elem_of_In, Hin|].
    apply bool_decide_eq_true_2. reflexivity.
Qed.

Lemma broadcastToUser_run sessions userId ev env st :
  SocketService.broadcastToUser sessions userId ev env st =
  Build_Run (Ok tt) st
    (map (fun socketId => Broadcast socketId ev)
       (SocketService.getUserSessions sessions userId)).
Proof.
  unfold SocketService.broadcastToUser.
  induction (SocketService.getUserSessions sessions userId) as [|s l IH];
    cbn [foldr map]; [reflexivity|].
  erewrite bind_ok by reflexivity. rewrite IH. reflexivity.
Qed.

Lemma on_connection_run sessions socket env st :
  SocketService.on_connection sessions socket env st =
  Build_Run
    (Ok match SocketService.authenticated socket with
        | Some u => SocketService.Map_set (SocketService.id socket) u sessions
        | None => sessions
        end)
    st
    [Console ("Socket connected: " +:+ SocketService.id socket +:+ " (User: "
              +:+ SocketService.user_email socket +:+ ")")].
Proof.
  unfold SocketService.on_connection.
  erewrite bind_ok by reflexivity.
  destruct (SocketService.authenticated socket); reflexivity.
Qed.

(** X19.  The registry of sessions and the broadcast to a user.  Once an
    authenticated socket has connected, the registry maps its id to its
    user and to no other, the entries of the other sockets are the ones
    there were, the registry still has one entry per socket id, and
    [getActiveSessionsCount] has grown by one unless the socket id was
    registered already; a [broadcastToUser] then emits to a socket exactly when the registry
    maps that socket to the user, so that it reaches the new socket for
    its user and never for another one. *)
Theorem connection_registers_session sessions socket U env st :
  SocketService.authenticated socket = Some U ->
  NoDup (map fst sessions) ->
  exists sessions',
    value (SocketService.on_connection sessions socket env st) = Ok sessions' /\
    NoDup (map fst sessions') /\
    (forall userId,
       SocketService.id socket ∈ SocketService.getUserSessions sessions' userId
       <-> userId = U) /\
    (forall socketId userId,
       socketId <> SocketService.id socket ->
       (socketId ∈ SocketService.getUserSessions sessions' userId <->
        socketId ∈ SocketService.getUserSessions sessions userId)) /\
    (forall socketId userId ev env' st',
       Broadcast socketId ev
         ∈ emitted (SocketService.broadcastToUser sessions' userId ev env' st')
       <-> socketId ∈ SocketService.getUserSessions sessions' userId) /\
    SocketService.getActiveSessionsCount sessions'
    = if bool_decide (SocketService.id socket ∈ map fst sessions)
      then SocketService.getActiveSessionsCount sessions
      else S (SocketService.getActiveSessionsCount sessions).
Proof.
  intros Hauth Hnodup. rewrite on_connection_run, Hauth. cbn [value].
  eexists. split; [reflexivity|].
  split; [apply NoDup_Map_set, Hnodup|].
  split; [|split; [|split; [|apply length_Map_set]]].
  - intros userId.
    rewrite elem_of_getUserSessions, lookup_Map_set by exact Hnodup.
    split; [intros [[_ ->]|[Hne _]]; [reflexivity|congruence]|].
    intros ->. left. auto.
  - intros socketId userId Hne.
    rewrite !elem_of_getUserSessions, lookup_Map_set by exact Hnodup.
    split; [intros [[-> _]|[_ Hin]]; [congruence|exact Hin]|].
    intros Hin. right. auto.
  - intros socketId userId ev env' st'. rewrite broadcastToUser_run.
    cbn [emitted]. rewrite list_elem_of_fmap. split.
    + intros (s & [= ->] & Hin). exact Hin.
    + intros Hin. exists socketId. auto.
Qed.

(** ** Rooms *)

Lemma join_run socket room env st :
  SocketService.join socket room env st =
  Build_Run (Ok tt)
    {| chats := chats st;
       rooms := rooms st ∪ {[ (SocketService.id socket, room) ]};
       reads := reads st; ids := ids st; ops := ops st; calls := calls st |} [].
Proof. reflexivity. Qed.

Lemma leave_run socket room env st :
  SocketService.leave socket room env st =
  Build_Run (Ok tt)
    {| chats := chats st;
       rooms := rooms st ∖ {[ (SocketService.id socket, room) ]};
       reads := reads st; ids := ids st; ops := ops st; calls := calls st |} [].
Proof. reflexivity. Qed.

Lemma on_leave_chat_run socket chatId env st :
  SocketService.on_leave_chat socket chatId env st =
  Build_Run (Ok tt)
    {| chats := chats st;
       rooms := rooms st ∖ {[ (SocketService.id socket, chatId) ]};
       reads := reads st; ids := ids st; ops := ops st; calls := calls st |}
    [Console ("User " +:+ SocketService.user_email socket +:+ " left chat: "
              +:+ chatId);
     Emit (SocketService.id socket)
       (EvLeftChat chatId "Successfully left chat")].
Proof. reflexivity. Qed.

(** The run of [join_chat] by a connection authenticated as [U]. *)
Lemma on_join_chat_run socket chatId U env st :
  SocketService.authenticated socket = Some U ->
  SocketService.on_join_chat socket chatId env st =
  match db_fault env (ops st), found st chatId U with
  | None, Some _ =>
      Build_Run (Ok tt)
        {| chats := chats st;
           rooms := rooms st ∪ {[ (SocketService.id socket, chatId) ]};
           reads := reads st; ids := ids st; ops := S (ops st);
           calls := calls st |}
        [DbFindOne chatId U;
         Console ("User " +:+ SocketService.user_email socket
                  +:+ " joined chat: " +:+ chatId);
         Emit (SocketService.id socket)
           (EvJoinedChat chatId "Successfully joined chat")]
  | None, None =>
      Build_Run (Ok tt) (after_db_op st)
        [DbFindOne chatId U; Emit (SocketService.id socket) access_denied]
  | Some e, _ =>
      Build_Run (Ok tt) (after_db_op st)
        [DbFindOne chatId U;
         Console ("Error fetching chat: " +:+ Js.describe e);
         Emit (SocketService.id socket) access_denied]
  end.
Proof.
  intros Hauth. unfold SocketService.on_join_chat. rewrite Hauth.
  destruct (db_fault env (ops st)) as [e|] eqn:Hfault.
  - erewrite try_catch_ok; [reflexivity|].
    erewrite bind_ok; [|rewrite lookup_chat_run, Hfault; reflexivity].
    reflexivity.
  - destruct (found st chatId U) as [doc|] eqn:Hfound.
    + erewrite try_catch_ok; [reflexivity|].
      erewrite bind_ok; [|rewrite lookup_chat_run, Hfault, Hfound; reflexivity].
      cbn [fmap option_fmap option_map]. cbv beta iota.
      erewrite bind_ok by apply join_run.
      erewrite bind_ok by reflexivity. reflexivity.
    + erewrite try_catch_ok; [reflexivity|].
      erewrite bind_ok; [|rewrite lookup_chat_run, Hfault, Hfound; reflexivity].
      reflexivity.
Qed.

(** X20.  What [join_chat] does is decided by the scoped lookup alone.  The
    handler never throws and never changes the collection.  It subscribes
    the connection to the room of the chat, and confirms with
    [joined_chat], exactly when the connection is authenticated, the
    lookup is answered by the database, and the chat is an active chat of
    the user; in every other case, a database failure included, the rooms
    are left as they were and the connection gets one error event. *)
Theorem join_is_decided_by_lookup env st socket chatId :
  let r := SocketService.on_join_chat socket chatId env st in
  let granted :=
    exists U d,
      SocketService.authenticated socket = Some U /\
      db_fault env (ops st) = None /\
      chats st !! chatId = Some d /\
      IChat.userId d = U /\ IChat.isActive d = true in
  value r = Ok tt /\
  chats (final r) = chats st /\
  (granted ->
   rooms (final r) = rooms st ∪ {[ (SocketService.id socket, chatId) ]} /\
   visible (emitted r)
   = [Emit (SocketService.id socket)
        (EvJoinedChat chatId "Successfully joined chat")]) /\
  (~ granted ->
   rooms (final r) = rooms st /\
   exists message code,
     visible (emitted r)
     = [Emit (SocketService.id socket) (EvError message code None)]).
Proof.
  intros r granted. unfold r, granted. clear r granted.
  destruct (SocketService.authenticated socket) as [U|] eqn:Hauth.
  2:{ unfold SocketService.on_join_chat. rewrite Hauth.
      erewrite try_catch_ok by reflexivity. cbn [value final emitted].
      split; [reflexivity|]. split; [reflexivity|].
      split; [intros (U & d & H & _); discriminate|].
      intros _. split; [reflexivity|]. eexists _, _. reflexivity. }
  rewrite (on_join_chat_run socket chatId U env st Hauth).
  destruct (db_fault env (ops st)) as [e|] eqn:Hfault.
  { cbn [value final emitted]. split; [reflexivity|]. split; [reflexivity|].
    split; [intros (U' & d & _ & H & _); discriminate|].
    intros _. split; [reflexivity|]. eexists _, _. reflexivity. }
  destruct (found st chatId U) as [doc|] eqn:Hfound.
  - cbn [value final emitted]. split; [reflexivity|]. split; [reflexivity|].
    split; [intros _; split; reflexivity|].
    intros Hnot. exfalso. apply Hnot.
    apply found_Some in Hfound as (d & Hd & Hu & Ha & _).
    exists U, d. auto.
  - cbn [value final emitted]. split; [reflexivity|]. split; [reflexivity|].
    split.
    + intros (U' & d & [= <-] & _ & Hd & Hu & Ha).
      rewrite (found_owner st chatId U d Hd Hu Ha) in Hfound. discriminate.
    + intros _. split; [reflexivity|]. eexists _, _. reflexivity.
Qed.

(** X21.  A granted [join_chat] followed by a [leave_chat] of the same
    chat.  After the join the connection is in the room of the chat; the
    leave removes exactly that membership, so that afterwards the rooms
    are the ones there were before the join without the membership of the
    connection in the room of the chat.  A connection that was not in the
    room before the join is therefore back in exactly the rooms it was in;
    one that was in it already is no longer in it.  The connection gets
    [joined_chat] and then [left_chat]. *)
Theorem join_then_leave env st socket chatId U d :
  SocketService.authenticated socket = Some U ->
  db_fault env (ops st) = None ->
  chats st !! chatId = Some d ->
  IChat.userId d = U -> IChat.isActive d = true ->
  let joined := SocketService.on_join_chat socket chatId env st in
  let left := SocketService.on_leave_chat socket chatId env (final joined) in
  (SocketService.id socket, chatId) ∈ rooms (final joined) /\
  rooms (final left) = rooms st ∖ {[ (SocketService.id socket, chatId) ]} /\
  ((SocketService.id socket, chatId) ∉ rooms st ->
   rooms (final left) = rooms st) /\
  ((SocketService.id socket, chatId) ∈ rooms st ->
   rooms (final left) <> rooms st) /\
  visible (emitted joined ++ emitted left)
  = [Emit (SocketService.id socket)
       (EvJoinedChat chatId "Successfully joined chat");
     Emit (SocketService.id socket)
       (EvLeftChat chatId "Successfully left chat")].
Proof.
  intros Hauth Hdb Hd Hu Ha joined left. unfold left, joined.
  clear left joined.
  rewrite (on_join_chat_run socket chatId U env st Hauth).
  rewrite Hdb, (found_owner st chatId U d Hd Hu Ha).
  rewrite on_leave_chat_run. cbn [final emitted rooms].
  assert ((rooms st ∪ {[ (SocketService.id socket, chatId) ]})
          ∖ {[ (SocketService.id socket, chatId) ]}
          = rooms st ∖ {[ (SocketService.id socket, chatId) ]}) as Hrooms.
  { apply set_eq. intros p.
    rewrite !elem_of_difference, elem_of_union, elem_of_singleton. tauto. }
  split; [apply elem_of_union_r, elem_of_singleton; reflexivity|].
  split; [exact Hrooms|]. split; [|split; [|reflexivity]].
  - intros Hnotin. rewrite Hrooms. apply set_eq. intros p.
    rewrite elem_of_difference, elem_of_singleton. split; [tauto|].
    intros Hp. split; [exact Hp|]. intros ->. contradiction.
  - intros Hin Heq. rewrite Hrooms in Heq. rewrite <- Heq in Hin.
    apply elem_of_difference in Hin as [_ Hin]. apply Hin.
    apply elem_of_singleton. reflexivity.
Qed.

Lemma elem_of_rooms_of (socket : SocketService.AuthenticatedSocket)
  (r : gset (string * string)) (room : string) :
  room ∈ SocketService.rooms_of socket r <-> (SocketService.id socket, room) ∈ r.
Proof.
  unfold SocketService.rooms_of. rewrite list_elem_of_fmap. split.
  - intros ([s room'] & -> & Hin).
    apply list_elem_of_In, List.filter_In in Hin as [Hin Hs].
    apply bool_decide_eq_true_1 in Hs. cbn in Hs. subst s.
    apply list_elem_of_In, elem_of_elements in Hin. exact Hin.
  - intros Hin. exists (SocketService.id socket, room). split; [reflexivity|].
    apply list_elem_of_In, List.filter_In. split.
    + apply list_elem_of_In, elem_of_elements, Hin.
    + apply bool_decide_eq_true_2. reflexivity.
Qed.

Lemma leave_all_run socket l env st :
  exists st',
    SocketService.leave_all socket l env st = Build_Run (Ok tt) st' [] /\
    chats st' = chats st /\
    forall p,
      p ∈ rooms st' <->
      p ∈ rooms st /\
      ~ (p.1 = SocketService.id socket /\ p.2 ∈ l /\ p.2 <> SocketService.id socket).
Proof.
  revert st. induction l as [|room l IH]; intros st; cbn [SocketService.leave_all].
  - exists st. split; [reflexivity|]. split; [reflexivity|].
    intros p. split; [|tauto]. intros Hp. split; [exact Hp|].
    intros (_ & Hin & _). inversion Hin.
  - destruct (bool_decide (room = SocketService.id socket)) eqn:Hroom.
    + apply bool_decide_eq_true_1 in Hroom.
      destruct (IH st) as (st' & Hrun & Hchats & Hrooms).
      exists st'. split; [|split; [exact Hchats|]].
      * erewrite bind_ok by reflexivity. rewrite Hrun. reflexivity.
      * intros p. rewrite Hrooms, elem_of_cons. split.
        -- intros [Hp Hnot]. split; [exact Hp|].
           intros (H1 & [H2|H2] & H3); [congruence|]. apply Hnot. auto.
        -- intros [Hp Hnot]. split; [exact Hp|].
           intros (H1 & H2 & H3). apply Hnot. auto.
    + apply bool_decide_eq_false_1 in Hroom.
      destruct (IH {| chats := chats st;
                      rooms := rooms st ∖ {[ (SocketService.id socket, room) ]};
                      reads := reads st; ids := ids st; ops := ops st;
                      calls := calls st |})
        as (st' & Hrun & Hchats & Hrooms).
      exists st'. split; [|split; [exact Hchats|]].
      * erewrite bind_ok by apply leave_run. rewrite Hrun. reflexivity.
      * intros [s c]. rewrite Hrooms. cbn [rooms fst snd].
        rewrite elem_of_difference, elem_of_singleton, elem_of_cons. split.
        -- intros [[Hp Hne] Hnot]. split; [exact Hp|].
           intros (H1 & [H2|H2] & H3); [congruence|]. apply Hnot. auto.
        -- intros [Hp Hnot]. split; [split; [exact Hp|]|].
           ++ intros [= -> ->]. apply Hnot. auto.
           ++ intros (H1 & H2 & H3). apply Hnot. auto.
Qed.

(** X22.  After [disconnect] the registry has no session for the socket, the
    sessions of the other sockets are the ones there were, the socket is
    in no room but, at most, its own, the memberships of the other
    sockets are untouched, and the collection is as it was; the handler
    never throws. *)
Theorem disconnect_cleans_up sessions socket reason env st :
  let r := SocketService.on_disconnect sessions socket reason env st in
  exists sessions',
    value r = Ok sessions' /\
    (forall userId,
       SocketService.id socket ∉ SocketService.getUserSessions sessions' userId) /\
    (forall socketId userId,
       socketId <> SocketService.id socket ->
       (socketId ∈ SocketService.getUserSessions sessions' userId <->
        socketId ∈ SocketService.getUserSessions sessions userId)) /\
    (forall room,
       (SocketService.id socket, room) ∈ rooms (final r) ->
       room = SocketService.id socket) /\
    (forall socketId room,
       socketId <> SocketService.id socket ->
       ((socketId, room) ∈ rooms (final r) <-> (socketId, room) ∈ rooms st)) /\
    chats (final r) = chats st.
Proof.
  intros r. unfold r, SocketService.on_disconnect. clear r. cbv zeta.
  destruct (leave_all_run socket (SocketService.rooms_of socket (rooms st)) env st)
    as (st' & Hrun & Hchats & Hrooms).
  erewrite bind_ok by reflexivity.
  erewrite bind_ok by reflexivity.
  erewrite bind_ok by exact Hrun.
  cbn [value final prepend emitted ret].
  eexists. split; [reflexivity|]. split; [|split; [|split; [|split]]].
  - intros userId Hin.
    apply elem_of_getUserSessions, lookup_Map_delete in Hin as [Hne _].
    congruence.
  - intros socketId userId Hne.
    rewrite !elem_of_getUserSessions, lookup_Map_delete. tauto.
  - intros room Hin. apply Hrooms in Hin as [Hin Hnot]. cbn [fst snd] in Hnot.
    destruct (decide (room = SocketService.id socket)) as [|Hne]; [assumption|].
    exfalso. apply Hnot. split; [reflexivity|]. split; [|exact Hne].
    apply elem_of_rooms_of, Hin.
  - intros socketId room Hne. rewrite Hrooms. cbn [fst snd]. split; [tauto|].
    intros Hin. split; [exact Hin|]. intros (H & _). congruence.
  - exact Hchats.
Qed.

(** ** The prompt that reaches the backend *)

Lemma trimEnd_truthy c s :
  Js.is_space c = false -> Js.truthy (Js.trimEnd (String c s)) = true.
Proof.
  intros Hc. cbn [Js.trimEnd]. rewrite Hc.
  destruct (Js.trimEnd s); reflexivity.
Qed.

Lemma heading_truthy rest :
  Js.truthy
    (Js.trim ((SessionMemoryService.nl +:+ "Recent conversation:"
               +:+ SessionMemoryService.nl) +:+ rest)) = true.
Proof.
  change (Js.truthy
            (Js.trimEnd
               (String "R"
                  (("ecent conversation:" +:+ SessionMemoryService.nl)
                   +:+ rest))) = true).
  apply trimEnd_truthy. reflexivity.
Qed.

(** The context of a stored chat is empty exactly when the chat has no
    message. *)
Lemma render_stored c d :
  Js.truthy (SessionMemoryService.render (ChatModel.hydrate c d))
  = negb (bool_decide (IChat.messages d = [])).
Proof.
  unfold SessionMemoryService.render. cbv zeta.
  assert (SessionMemoryService.add_session_context
            (SessionMemoryService.add_user_information EmptyString
               (ChatModel.hydrate c d)) (ChatModel.hydrate c d) = EmptyString)
    as -> by reflexivity.
  rewrite add_recent_conversation_spec. unfold ContextSpec.recent.
  cbn [Document.fields ChatModel.hydrate].
  destruct (IChat.messages d) as [|m ms]; [reflexivity|].
  rewrite bool_decide_eq_false_2 by discriminate. cbn [negb fold_right].
  change (EmptyString +:+ ?s) with s.
  apply heading_truthy.
Qed.

Lemma enhance_run prompt chatId d env st :
  Js.truthy chatId = true ->
  db_fault env (ops st) = None ->
  chats st !! chatId = Some d ->
  let context := SessionMemoryService.render (ChatModel.hydrate chatId d) in
  AIService.enhance prompt (Some chatId) env st =
  if bool_decide (IChat.messages d = []) then
    Build_Run (Ok prompt) (after_db_op st) [DbFindById chatId]
  else
    Build_Run
      (Ok ("Context from previous conversation:" +:+ SessionMemoryService.nl
           +:+ context +:+ SessionMemoryService.nl +:+ SessionMemoryService.nl
           +:+ "Current message: " +:+ prompt))
      (after_db_op st)
      [DbFindById chatId;
       Console ("Enhanced prompt with session context for chat " +:+ chatId)].
Proof.
  intros Hc Hdb Hd context. unfold AIService.enhance. rewrite Hc.
  erewrite bind_ok; [|rewrite buildContextForAI_run, Hdb, Hd; reflexivity].
  fold context. unfold context at 1. rewrite render_stored.
  destruct (bool_decide (IChat.messages d = [])); cbn [negb]; [reflexivity|].
  erewrite bind_ok by reflexivity. reflexivity.
Qed.

(** X23.  What [generateAIResponse] sends for a chat of the collection.
    Called with the id of a stored chat, a database that answers and no
    preferred model, it sends exactly one request, to gpt-4, with the
    system prompt of the topics; the user prompt is the bare prompt when
    the chat has no message, and otherwise the prompt behind the context
    assembled from the chat, which is then not empty.  The chats are left
    as they were. *)
Theorem context_reaches_backend env st prompt topics chatId d :
  Js.truthy chatId = true ->
  db_fault env (ops st) = None ->
  chats st !! chatId = Some d ->
  let r := AIService.generateAIResponse prompt topics (Some chatId) None env st in
  let context := SessionMemoryService.render (ChatModel.hydrate chatId d) in
  let sent :=
    if bool_decide (IChat.messages d = []) then prompt
    else "Context from previous conversation:" +:+ SessionMemoryService.nl
         +:+ context +:+ SessionMemoryService.nl +:+ SessionMemoryService.nl
         +:+ "Current message: " +:+ prompt in
  (IChat.messages d <> [] -> Js.truthy context = true) /\
  requests (emitted r)
  = [ApiRequest "gpt-4" (AIService.generateSystemPrompt topics) sent] /\
  chats (final r) = chats st.
Proof.
  intros Hc Hdb Hd r context sent.
  split; [|split].
  - intros Hne. unfold context. rewrite render_stored.
    rewrite bool_decide_eq_false_2 by exact Hne. reflexivity.
  - pose proof (enhance_run prompt chatId d env st Hc Hdb Hd) as He.
    cbv zeta in He. fold context in He.
    assert (exists tr,
              AIService.enhance prompt (Some chatId) env st
              = Build_Run (Ok sent) (after_db_op st) tr /\
              requests tr = [])
      as (tr & He' & Htr).
    { unfold sent. destruct (bool_decide (IChat.messages d = []));
        eexists; (split; [exact He|]); reflexivity. }
    clear He.
    destruct (total_modelFunctions GPT4 sent topics env (after_db_op st))
      as [resp Hresp].
    unfold r.
    rewrite (generateAIResponse_run prompt topics (Some chatId) None env st
               sent resp);
      [|rewrite He'; reflexivity|rewrite He'; exact Hresp].
    rewrite He'. cbn [emitted final default from_option AIService.selectModel
                      AIService.modelFunctions id].
    assert (requests (verdict_lines GPT4 resp) = []) as Hverdict
      by (unfold verdict_lines; destruct (AIResponse.success resp);
          reflexivity).
    unfold AIService.selectModel, requests in *.
    rewrite List.filter_app, Htr.
    change (List.filter is_request (attempt_line GPT4 sent :: ?l))
      with (List.filter is_request l).
    rewrite List.filter_app, Hverdict, app_nil_r.
    rewrite callGPT4_run. cbv zeta.
    destruct (openai env _ _ sent); reflexivity.
  - unfold r. apply keeps_chats_generateAIResponse.
Qed.

(** ** The name a user states *)

Lemma word_run_idempotent s : Regex.word_run (Regex.word_run s) = Regex.word_run s.
Proof.
  induction s as [|c s IH]; [reflexivity|]. cbn [Regex.word_run].
  destruct (Regex.is_word c) eqn:Hc; [|reflexivity].
  cbn [Regex.word_run]. rewrite Hc, IH. reflexivity.
Qed.

Lemma word_run_app w post :
  Regex.word_run w = w -> Regex.word_run post = EmptyString ->
  Regex.word_run (w +:+ post) = w.
Proof.
  intros Hw Hpost. induction w as [|c w IH]; [exact Hpost|].
  change (String c w +:+ post) with (String c (w +:+ post)).
  cbn [Regex.word_run] in *.
  destruct (Regex.is_word c); [|discriminate].
  injection Hw as Hw. rewrite (IH Hw). reflexivity.
Qed.

Lemma capture_word_Some s w :
  Regex.capture_word s = Some w -> w <> EmptyString /\ Regex.word_run w = w.
Proof.
  unfold Regex.capture_word.
  destruct (Regex.word_run s) as [|c r] eqn:Hrun; [discriminate|].
  intros [= <-]. split; [discriminate|].
  rewrite <- Hrun. apply word_run_idempotent.
Qed.

Lemma search_word_Some lit s w :
  Regex.search lit Regex.capture_word s = Some w ->
  w <> EmptyString /\ Regex.word_run w = w.
Proof.
  induction s as [|c s IH]; cbn [Regex.search].
  - destruct (Regex.after_literal lit EmptyString ≫= Regex.capture_word)
      as [captured|] eqn:Hc; [|discriminate].
    intros [= <-].
    destruct (Regex.after_literal lit EmptyString) as [rest|]; [|discriminate].
    apply (capture_word_Some rest), Hc.
  - destruct (Regex.after_literal lit (String c s) ≫= Regex.capture_word)
      as [captured|] eqn:Hc; [|exact IH].
    intros [= <-].
    destruct (Regex.after_literal lit (String c s)) as [rest|]; [|discriminate].
    apply (capture_word_Some rest), Hc.
Qed.

Lemma first_name_Some patterns message w :
  SessionMemoryService.first_name patterns message = Some w ->
  w <> EmptyString /\ Regex.word_run w = w.
Proof.
  induction patterns as [|p patterns IH]; cbn [SessionMemoryService.first_name];
    [discriminate|].
  destruct (Regex.search p Regex.capture_word message) as [captured|] eqn:Hs;
    [|exact IH].
  intros [= <-]. eapply search_word_Some, Hs.
Qed.

Lemma after_literal_app lit intro rest :
  Regex.after_literal lit intro = Some EmptyString ->
  Regex.after_literal lit (intro +:+ rest) = Some rest.
Proof.
  revert intro. induction lit as [|a lit IH]; intros intro.
  - destruct intro; cbn [Regex.after_literal]; [|discriminate].
    intros _. destruct rest; reflexivity.
  - destruct intro as [|b intro]; [discriminate|].
    change (String b intro +:+ rest) with (String b (intro +:+ rest)).
    cbn [Regex.after_literal]. destruct (Regex.eq_ci a b); [apply IH|discriminate].
Qed.

Lemma search_at_start lit group s captured :
  Regex.after_literal lit s ≫= group = Some captured ->
  Regex.search lit group s = Some captured.
Proof. intros H. destruct s; cbn [Regex.search]; rewrite H; reflexivity. Qed.

(** X24.  The name that [extractUserInfoFromMessage] reads.  A name that it
    extracts is never empty and consists of word characters only.  A
    message that starts with ['my name is '], in any letter case,
    followed by a run of word characters that ends the message or is
    followed by another character, yields exactly that run as the name,
    whatever else the message goes on to say. *)
Theorem stated_name_is_extracted :
  (forall message name,
     IUserInfo.name (SessionMemoryService.extractUserInfoFromMessage message)
     = Some name ->
     name <> EmptyString /\ Regex.word_run name = name) /\
  (forall intro name rest,
     Regex.after_literal "my name is " intro = Some EmptyString ->
     name <> EmptyString ->
     Regex.word_run name = name ->
     Regex.word_run rest = EmptyString ->
     let info :=
       SessionMemoryService.extractUserInfoFromMessage
         (intro +:+ name +:+ rest) in
     IUserInfo.name info = Some name /\
     SessionMemoryService.has_keys info = true).
Proof.
  split.
  - intros message name H. eapply first_name_Some, H.
  - intros intro name rest Hintro Hname Hword Hrest info.
    assert (IUserInfo.name info = Some name) as Hinfo.
    { unfold info, SessionMemoryService.extractUserInfoFromMessage.
      cbn [IUserInfo.name]. unfold SessionMemoryService.namePatterns.
      cbn [SessionMemoryService.first_name].
      rewrite (search_at_start "my name is " Regex.capture_word
                 (intro +:+ name +:+ rest) name); [reflexivity|].
      rewrite (after_literal_app _ _ _ Hintro). cbn [mbind option_bind].
      unfold Regex.capture_word. rewrite (word_run_app _ _ Hword Hrest).
      destruct name; [contradiction|reflexivity]. }
    split; [exact Hinfo|].
    unfold SessionMemoryService.has_keys. rewrite Hinfo. reflexivity.
Qed.

(** ** The interests and goals a user states *)

Lemma all_captures_bounded patterns message :
  (length (SessionMemoryService.all_captures patterns message)
   <= length patterns)%nat /\
  Forall (fun captured => Js.trim captured = captured)
    (SessionMemoryService.all_captures patterns message).
Proof.
  induction patterns as [|p patterns [IHlen IHtrim]];
    cbn [SessionMemoryService.all_captures length]; [split; [lia|constructor]|].
  destruct (Regex.search p Regex.capture_lazy message) as [captured|].
  - cbn [length]. split; [lia|].
    constructor; [apply trim_idempotent|exact IHtrim].
  - split; [lia|exact IHtrim].
Qed.

Lemma pushed_Some l l' :
  SessionMemoryService.pushed l = Some l' -> l' = l /\ l <> [].
Proof. destruct l; [discriminate|]. intros [= <-]. split; [reflexivity|discriminate]. Qed.

(** X25.  The interests and the goals that [extractUserInfoFromMessage]
    reads.  Each of the two lists, when the key is set at all, is not
    empty, holds at most one entry per phrase pattern (six for the
    interests, five for the goals) however often the user repeats a
    phrase, and every entry is free of leading and trailing white
    space. *)
Theorem stated_interests_are_bounded message :
  let info := SessionMemoryService.extractUserInfoFromMessage message in
  (forall interests,
     IUserInfo.interests info = Some interests ->
     (0 < length interests <= 6)%nat /\
     Forall (fun interest => Js.trim interest = interest) interests) /\
  (forall goals,
     IUserInfo.goals info = Some goals ->
     (0 < length goals <= 5)%nat /\
     Forall (fun goal => Js.trim goal = goal) goals).
Proof.
  intros info. unfold info, SessionMemoryService.extractUserInfoFromMessage.
  cbn [IUserInfo.interests IUserInfo.goals]. split.
  - intros interests H. apply pushed_Some in H as [-> Hne].
    destruct (all_captures_bounded SessionMemoryService.interestPatterns message)
      as [Hlen Htrim].
    split; [|exact Htrim]. cbn [SessionMemoryService.interestPatterns length] in Hlen.
    destruct (SessionMemoryService.all_captures _ message);
      [contradiction|cbn [length] in *; lia].
  - intros goals H. apply pushed_Some in H as [-> Hne].
    destruct (all_captures_bounded SessionMemoryService.goalPatterns message)
      as [Hlen Htrim].
    split; [|exact Htrim]. cbn [SessionMemoryService.goalPatterns length] in Hlen.
    destruct (SessionMemoryService.all_captures _ message);
      [contradiction|cbn [length] in *; lia].
Qed.

(** ** The further properties on the scenario *)

Lemma lookup_store_with messages :
  chats (Scenario.store_with messages) !! "c1"
  = Some (Scenario.chat_with messages).
Proof. apply lookup_singleton_eq. Qed.

Lemma schema_valid_said text t :
  (0 < String.length text <= 5000)%nat ->
  schema_valid (Scenario.chat_with [Scenario.said text t]).
Proof.
  intros Htext. unfold schema_valid, Scenario.chat_with.
  cbn [IChat.userId IChat.title IChat.topics IChat.messages length].
  split; [reflexivity|]. split; [cbn; lia|]. split; [lia|]. split; [lia|].
  split.
  - constructor; [|constructor]. split; [exact Htext|reflexivity].
  - intros m [= <-]. reflexivity.
Qed.

Lemma history_is_scoped_and_sorted_witness :
  let st := Scenario.store_with [Scenario.said "b" 950; Scenario.said "a" 900] in
  let h := [Scenario.said "a" 900; Scenario.said "b" 950] in
  value (ChatService.getChatHistory "c1" "u1" (Some 2) Scenario.healthy st)
  = Ok h /\
  non_decreasing h /\
  h ≡ₚ [Scenario.said "b" 950; Scenario.said "a" 900].
Proof.
  intros st h.
  assert (value (ChatService.getChatHistory "c1" "u1" (Some 2)
                   Scenario.healthy st) = Ok h) as Hok
    by (vm_compute; reflexivity).
  destruct (history_is_scoped_and_sorted Scenario.healthy st "c1" "u1" (Some 2)
              h Hok) as (d & Hd & _ & _ & Hsorted & Hperm & _).
  split; [exact Hok|]. split; [exact Hsorted|].
  unfold st in Hd. rewrite lookup_store_with in Hd. injection Hd as <-.
  exact Hperm.
Defined.

Lemma history_of_ordered_chat_witness :
  let messages := [Scenario.said "a" 900; Scenario.said "b" 950;
                   Scenario.said "c" 950] in
  let doc := ChatModel.hydrate "c1" (Scenario.chat_with messages) in
  non_decreasing messages /\
  ChatModel.getMessageHistory doc (Some 2)
  = [Scenario.said "b" 950; Scenario.said "c" 950] /\
  ChatModel.getMessageHistory doc (Some 0) = messages.
Proof.
  intros messages doc.
  assert (non_decreasing messages) as Hsorted.
  { apply non_decreasing_sorted. unfold messages.
    repeat constructor; cbn; lia. }
  split; [exact Hsorted|]. split.
  - exact (history_of_ordered_chat doc 2 Hsorted).
  - exact (history_of_ordered_chat doc 0 Hsorted).
Defined.

Lemma createChat_stores_valid_request_witness :
  let chatData :=
    {| ChatService.topics := Some ["health"; "education"];
       ChatService.title := Some "  Sleep  " |} in
  let r := ChatService.createChat "u1" chatData Scenario.healthy
             (Scenario.store_with []) in
  ChatService.isValid chatData = true /\
  Js.truthy "u1" = true /\
  exists doc,
    value r = Ok doc /\
    chats (final r) !! Document._id doc = Some (Document.fields doc) /\
    IChat.title (Document.fields doc) = "Sleep" /\
    IChat.topics (Document.fields doc) = [HEALTH; EDUCATION].
Proof.
  intros chatData r.
  assert (ChatService.isValid chatData = true) as Hvalid
    by (vm_compute; reflexivity).
  destruct (createChat_stores_valid_request Scenario.healthy
              (Scenario.store_with []) "u1" chatData Hvalid eq_refl eq_refl)
    as (doc & topics & Hok & Htopics & Hid & Hst & Hu & Ht & Hm & Ha & Htitle).
  split; [exact Hvalid|]. split; [reflexivity|].
  exists doc. split; [exact Hok|]. split; [|split].
  - fold r in Hst. rewrite Hst. apply lookup_insert_eq.
  - rewrite Htitle. reflexivity.
  - unfold r in Hok. vm_compute in Hok. injection Hok as <-. reflexivity.
Defined.

Lemma createChat_rejects_invalid_request_witness :
  let chatData :=
    {| ChatService.topics := Some ["health"; "sports"];
       ChatService.title := None |} in
  let st := Scenario.store_with [] in
  let r := ChatService.createChat "u1" chatData Scenario.healthy st in
  ChatService.isValid chatData = false /\
  value r = Throw (Js.Error "Invalid topic: sports") /\
  chats (final r) = chats st.
Proof.
  intros chatData st r.
  assert (ChatService.isValid chatData = false) as Hinvalid
    by (vm_compute; reflexivity).
  destruct (createChat_rejects_invalid_request Scenario.healthy st "u1" chatData
              Hinvalid) as (e & Hthrow & Hchats & _).
  split; [exact Hinvalid|]. split; [|exact Hchats].
  vm_compute. reflexivity.
Defined.

Lemma created_chat_is_found_witness :
  let chatData :=
    {| ChatService.topics := Some ["health"]; ChatService.title := None |} in
  let st := Scenario.store_with [] in
  let r := ChatService.createChat "u1" chatData Scenario.healthy st in
  exists doc,
    value r = Ok doc /\
    value (ChatService.getChatById (Document._id doc) "u1" Scenario.healthy
             (final r)) = Ok (Some doc) /\
    value (ChatService.getChatById (Document._id doc) "u2" Scenario.healthy
             (final r)) = Ok None.
Proof.
  intros chatData st r.
  destruct (value r) as [doc|e] eqn:Hok; [|vm_compute in Hok; discriminate].
  exists doc. split; [reflexivity|].
  destruct (created_chat_is_found Scenario.healthy st "u1" chatData doc Hok
              eq_refl) as [Howner Hother].
  split; [exact Howner|]. apply Hother. discriminate.
Defined.

Lemma collection_stays_valid_witness :
  let st := Scenario.store_with [Scenario.said "hi" 900] in
  map_Forall (fun _ => schema_valid) (chats st) /\
  map_Forall (fun _ => schema_valid)
    (chats (final (SocketService.on_message Scenario.socket "hello" "c1"
                     Scenario.healthy st))) /\
  map_Forall (fun _ => schema_valid)
    (chats (final (ChatService.deleteChat "c1" "u1" Scenario.healthy st))).
Proof.
  intros st.
  assert (map_Forall (fun _ => schema_valid) (chats st)) as Hvalid.
  { apply map_Forall_singleton, schema_valid_said. cbn. lia. }
  destruct (collection_stays_valid Scenario.healthy st Hvalid)
    as (_ & _ & Hdelete & _ & _ & Hmessage).
  split; [exact Hvalid|]. split; [apply Hmessage|apply Hdelete].
Defined.

Lemma histories_only_grow_witness :
  let st := Scenario.store_with [Scenario.said "hi" 900] in
  let d := Scenario.chat_with [Scenario.said "hi" 900] in
  chats st !! "c1" = Some d /\
  exists d',
    chats (final (SocketService.on_message Scenario.socket "hello" "c1"
                    Scenario.healthy st)) !! "c1" = Some d' /\
    IChat.userId d' = "u1" /\
    [Scenario.said "hi" 900] `prefix_of` IChat.messages d'.
Proof.
  intros st d.
  assert (chats st !! "c1" = Some d) as Hd by apply lookup_store_with.
  destruct (histories_only_grow Scenario.healthy st "c1" d Hd)
    as (_ & _ & _ & _ & Hmessage).
  split; [exact Hd|]. exact (Hmessage Scenario.socket "hello" "c1").
Defined.

Lemma deleted_chat_is_kept_but_hidden_witness :
  let st := Scenario.store_with [Scenario.said "hi" 900] in
  let r := ChatService.deleteChat "c1" "u1" Scenario.healthy st in
  value r = Ok true /\
  (exists d',
     chats (final r) !! "c1" = Some d' /\
     IChat.isActive d' = false /\
     IChat.messages d' = [Scenario.said "hi" 900]) /\
  value (ChatService.getChatById "c1" "u1" Scenario.healthy (final r)) = Ok None /\
  value (ChatService.deleteChat "c1" "u1" Scenario.healthy (final r)) = Ok false.
Proof.
  intros st r.
  assert (value r = Ok true) as Hok by (vm_compute; reflexivity).
  destruct (deleted_chat_is_kept_but_hidden Scenario.healthy st "c1" "u1" Hok)
    as ((d & d' & Hd & Hst & Hactive & _ & _ & _ & Hmessages) & Hhidden).
  destruct (Hhidden Scenario.healthy "u1") as (Hget & Hdelete & _).
  split; [exact Hok|]. split; [|split; [exact Hget|exact Hdelete]].
  exists d'. fold r in Hst. rewrite Hst, lookup_insert_eq.
  split; [reflexivity|]. split; [exact Hactive|].
  rewrite Hmessages. unfold st in Hd. rewrite lookup_store_with in Hd.
  injection Hd as <-. reflexivity.
Defined.

Lemma updateChatTitle_stores_trimmed_title_witness :
  let st := Scenario.store_with [Scenario.said "hi" 900] in
  let r := ChatService.updateChatTitle "c1" "u1" "  Sleep and diet " 
             Scenario.healthy st in
  exists doc,
    value r = Ok doc /\
    chats (final r) !! "c1" = Some (Document.fields doc) /\
    IChat.title (Document.fields doc) = "Sleep and diet" /\
    IChat.messages (Document.fields doc) = [Scenario.said "hi" 900].
Proof.
  intros st r.
  destruct (value r) as [doc|e] eqn:Hok; [|vm_compute in Hok; discriminate].
  destruct (updateChatTitle_stores_trimmed_title Scenario.healthy st "c1" "u1"
              "  Sleep and diet " doc Hok)
    as (d & Hd & _ & _ & Hst & Htitle & _ & _ & _ & Hmessages & _).
  exists doc. split; [reflexivity|]. split; [|split].
  - fold r in Hst. rewrite Hst. apply lookup_insert_eq.
  - rewrite Htitle. reflexivity.
  - rewrite Hmessages. unfold st in Hd. rewrite lookup_store_with in Hd.
    injection Hd as <-. reflexivity.
Defined.

Lemma updateChatTitle_rejects_long_title_witness :
  let st := Scenario.store_with [] in
  let newTitle := String.concat "" (replicate 101 "x") in
  let r := ChatService.updateChatTitle "c1" "u1" newTitle Scenario.healthy st in
  (100 < String.length (Js.trim newTitle))%nat /\
  (exists e, value r = Throw e) /\
  chats (final r) = chats st.
Proof.
  intros st newTitle r.
  assert (100 < String.length (Js.trim newTitle))%nat as Hlong
    by (vm_compute; lia).
  destruct (updateChatTitle_rejects_long_title Scenario.healthy st "c1" "u1"
              newTitle Hlong) as (e & Hthrow & Hchats).
  split; [exact Hlong|]. split; [exists e; exact Hthrow|exact Hchats].
Defined.

Lemma append_denied_witness :
  let st := Scenario.store_with [] in
  let r := ChatService.addMessageToChat "c1" "u2" (Scenario.draft "hello")
             Scenario.healthy st in
  (forall d, chats st !! "c1" = Some d ->
             IChat.userId d <> "u2" \/ IChat.isActive d = false) /\
  value r = Throw (Js.Error "Chat not found or access denied") /\
  chats (final r) = chats st.
Proof.
  intros st r.
  assert (forall d, chats st !! "c1" = Some d ->
                    IChat.userId d <> "u2" \/ IChat.isActive d = false) as Hd.
  { intros d H. unfold st in H. rewrite lookup_store_with in H.
    injection H as <-. left. discriminate. }
  destruct (append_denied Scenario.healthy st "c1" "u2" (Scenario.draft "hello")
              Hd) as (_ & Herror & Hchats & _).
  split; [exact Hd|]. split; [apply Herror; reflexivity|exact Hchats].
Defined.

Lemma appended_message_is_last_witness :
  let st := Scenario.store_with [Scenario.said "hi" 900] in
  let r := ChatService.addMessageToChat "c1" "u1" (Scenario.draft "  hello ")
             Scenario.healthy st in
  exists doc,
    value r = Ok doc /\
    ChatModel.lastMessage doc
    = Some (IChatMessage.make "hello" user 1000 None (Some "oid0")) /\
    value (ChatService.getChatById "c1" "u1" Scenario.healthy (final r))
    = Ok (Some doc).
Proof.
  intros st r.
  destruct (value r) as [doc|e] eqn:Hok; [|vm_compute in Hok; discriminate].
  destruct (appended_message_is_last Scenario.healthy st "c1" "u1"
              (Scenario.draft "  hello ") doc Hok)
    as (_ & Hlast & _ & _ & _ & Hget).
  exists doc. split; [reflexivity|]. split; [exact Hlast|].
  apply Hget. reflexivity.
Defined.

Lemma accepted_message_is_stored_witness :
  let st := Scenario.store_with [Scenario.said "hi" 900] in
  let r := SocketService.on_message Scenario.socket " hello " "c1"
             Scenario.healthy st in
  acceptable " hello " = true /\
  schema_valid (Scenario.chat_with [Scenario.said "hi" 900]) /\
  exists d',
    chats (final r) !! "c1" = Some d' /\
    [Scenario.said "hi" 900;
     IChatMessage.make "hello" user 1000 None (Some "oid0")]
    `prefix_of` IChat.messages d'.
Proof.
  intros st r.
  assert (schema_valid (Scenario.chat_with [Scenario.said "hi" 900])) as Hvalid
    by (apply schema_valid_said; cbn; lia).
  destruct (accepted_message_is_stored Scenario.healthy st Scenario.socket
              " hello " "c1" "u1" (Scenario.chat_with [Scenario.said "hi" 900])
              eq_refl eq_refl (lookup_store_with _) eq_refl eq_refl Hvalid
              ltac:(cbn; lia) (fun n _ => eq_refl))
    as (d' & Hd' & _ & Hprefix).
  split; [reflexivity|]. split; [exact Hvalid|].
  exists d'. split; [exact Hd'|exact Hprefix].
Defined.

Lemma connection_registers_session_witness :
  let sessions := [("s2", "u2")] in
  let r := SocketService.on_connection sessions Scenario.socket Scenario.healthy
             (Scenario.store_with []) in
  SocketService.authenticated Scenario.socket = Some "u1" /\
  NoDup (map fst sessions) /\
  exists sessions',
    value r = Ok sessions' /\
    "s1" ∈ SocketService.getUserSessions sessions' "u1" /\
    ("s1" ∉ SocketService.getUserSessions sessions' "u2") /\
    "s2" ∈ SocketService.getUserSessions sessions' "u2".
Proof.
  intros sessions r.
  assert (NoDup (map fst sessions)) as Hnodup by apply NoDup_singleton.
  destruct (connection_registers_session sessions Scenario.socket "u1"
              Scenario.healthy (Scenario.store_with []) eq_refl Hnodup)
    as (sessions' & Hok & _ & Hown & Hothers & _ & _).
  split; [reflexivity|]. split; [exact Hnodup|].
  exists sessions'. split; [exact Hok|]. split; [|split].
  - apply (Hown "u1"). reflexivity.
  - intros Hin. apply (Hown "u2") in Hin. discriminate.
  - apply (Hothers "s2" "u2"); [discriminate|].
    apply list_elem_of_here.
Defined.

Lemma join_then_leave_witness :
  let st := Scenario.store_with [] in
  let joined := SocketService.on_join_chat Scenario.socket "c1"
                  Scenario.healthy st in
  let left := SocketService.on_leave_chat Scenario.socket "c1"
                Scenario.healthy (final joined) in
  let again := SocketService.on_join_chat Scenario.socket "c1"
                 Scenario.healthy (final joined) in
  let left_again := SocketService.on_leave_chat Scenario.socket "c1"
                      Scenario.healthy (final again) in
  (("s1", "c1") ∉ rooms st) /\
  ("s1", "c1") ∈ rooms (final joined) /\
  rooms (final left) = rooms st /\
  rooms (final left_again) <> rooms (final joined).
Proof.
  intros st joined left again left_again.
  assert (("s1", "c1") ∉ rooms st) as Hnotin by apply not_elem_of_empty.
  destruct (join_then_leave Scenario.healthy st Scenario.socket "c1" "u1"
              (Scenario.chat_with []) eq_refl eq_refl (lookup_store_with _)
              eq_refl eq_refl) as (Hin & _ & Hrooms & _).
  destruct (join_then_leave Scenario.healthy (final joined) Scenario.socket
              "c1" "u1" (Scenario.chat_with []) eq_refl eq_refl
              (lookup_store_with _) eq_refl eq_refl) as (_ & _ & _ & Hdiffer & _).
  split; [exact Hnotin|]. split; [exact Hin|].
  split; [exact (Hrooms Hnotin)|exact (Hdiffer Hin)].
Defined.

Lemma context_reaches_backend_witness :
  let st := Scenario.store_with [Scenario.said "hi" 900] in
  let r := AIService.generateAIResponse "hello" [HEALTH] (Some "c1") None
             Scenario.healthy st in
  Js.truthy "c1" = true /\
  requests (emitted r)
  = [ApiRequest "gpt-4" (AIService.generateSystemPrompt [HEALTH])
       ("Context from previous conversation:" +:+ SessionMemoryService.nl
        +:+ "Recent conversation:" +:+ SessionMemoryService.nl +:+ "user: hi"
        +:+ SessionMemoryService.nl +:+ SessionMemoryService.nl
        +:+ "Current message: hello")].
Proof.
  intros st r.
  destruct (context_reaches_backend Scenario.healthy st "hello" [HEALTH] "c1"
              (Scenario.chat_with [Scenario.said "hi" 900]) eq_refl eq_refl
              (lookup_store_with _)) as (_ & Hsent & _).
  split; [reflexivity|]. exact Hsent.
Defined.

Lemma stated_name_is_extracted_witness :
  IUserInfo.name
    (SessionMemoryService.extractUserInfoFromMessage
       "My Name Is Sam, and I like chess") = Some "Sam".
Proof.
  destruct stated_name_is_extracted as [_ H].
  exact (proj1 (H "My Name Is " "Sam" ", and I like chess" eq_refl
                  ltac:(discriminate) eq_refl eq_refl)).
Defined.

Lemma admission_depends_on_token_only_witness :
  let jwt_verify token :=
    if bool_decide (token = "good")
    then Jwt.Decoded {| Jwt.userId := "u1"; Jwt.email := "sam@example.org" |}
    else Jwt.JsonWebTokenError in
  let db := {| AuthService.docs := ∅;
               AuthService.fault := Some (Js.Error "connection lost") |} in
  let verdict_of header :=
    value (SocketService.authenticate jwt_verify db "s1"
             {| SocketService.auth_token := None;
                SocketService.authorization := header |}
             Scenario.healthy (Scenario.store_with [])) in
  (exists socket,
     verdict_of (Some "Bearer good") = Ok (SocketService.Accept socket) /\
     SocketService.authenticated socket = Some "u1") /\
  (forall socket, verdict_of (Some "Bearer bad") <> Ok (SocketService.Accept socket)) /\
  (forall socket, verdict_of None <> Ok (SocketService.Accept socket)).
Proof.
  intros jwt_verify db verdict_of.
  assert (forall header,
            exists admission,
              verdict_of header = Ok admission /\
              ((exists socket, admission = SocketService.Accept socket) <->
               Js.truthy (default EmptyString
                            (Js.remove_first "Bearer " <$> header)) = true /\
               exists payload,
                 jwt_verify (default EmptyString
                               (Js.remove_first "Bearer " <$> header))
                 = Jwt.Decoded payload /\
                 Js.truthy (Jwt.userId payload) = true) /\
              (forall socket,
                 admission = SocketService.Accept socket ->
                 exists payload,
                   jwt_verify (default EmptyString
                                 (Js.remove_first "Bearer " <$> header))
                   = Jwt.Decoded payload /\
                   SocketService.authenticated socket
                   = Some (Jwt.userId payload))) as H.
  { intros header.
    destruct (admission_depends_on_token_only jwt_verify db "s1"
                {| SocketService.auth_token := None;
                   SocketService.authorization := header |}
                Scenario.healthy (Scenario.store_with []))
      as (admission & Hok & _ & Hiff & Hsocket).
    exists admission. split; [exact Hok|]. split; [exact Hiff|].
    intros socket Hs. destruct (Hsocket socket Hs) as (_ & payload & Hv & _ & Ha).
    exists payload. auto. }
  split; [|split].
  - destruct (H (Some "Bearer good")) as (admission & Hok & Hiff & Hsocket).
    destruct (proj2 Hiff) as [socket ->].
    { split; [reflexivity|]. eexists. split; reflexivity. }
    exists socket. split; [exact Hok|].
    destruct (Hsocket socket eq_refl) as (payload & Hv & Ha).
    vm_compute in Hv. injection Hv as <-. exact Ha.
  - intros socket Hverdict.
    destruct (H (Some "Bearer bad")) as (admission & Hok & Hiff & _).
    rewrite Hverdict in Hok. injection Hok as <-.
    destruct (proj1 Hiff) as (_ & payload & Hv & _); [eexists; reflexivity|].
    vm_compute in Hv. discriminate.
  - intros socket Hverdict.
    destruct (H None) as (admission & Hok & Hiff & _).
    rewrite Hverdict in Hok. injection Hok as <-.
    destruct (proj1 Hiff) as (Htoken & _); [eexists; reflexivity|].
    discriminate.
Defined.

Lemma join_is_decided_by_lookup_witness :
  let st := Scenario.store_with [] in
  let lost := SocketService.on_join_chat Scenario.socket "c1"
                (Scenario.db_lost_at 0) st in
  rooms (final lost) = rooms st /\
  exists message code,
    visible (emitted lost) = [Emit "s1" (EvError message code None)].
Proof.
  intros st lost.
  destruct (join_is_decided_by_lookup (Scenario.db_lost_at 0) st Scenario.socket
              "c1") as (_ & _ & _ & Hdenied).
  apply Hdenied. intros (U & d & _ & Hdb & _). discriminate.
Defined.

Lemma stated_interests_are_bounded_witness :
  let info :=
    SessionMemoryService.extractUserInfoFromMessage
      "I like tea, I like coffee. I love  jazz , and I want to rest." in
  IUserInfo.interests info = Some ["tea"; "jazz"] /\
  IUserInfo.goals info = Some ["rest"] /\
  Js.trim "jazz" = "jazz".
Proof.
  intros info.
  assert (IUserInfo.interests info = Some ["tea"; "jazz"]) as Hi
    by (vm_compute; reflexivity).
  destruct (stated_interests_are_bounded
              "I like tea, I like coffee. I love  jazz , and I want to rest.")
    as [Hinterests _].
  destruct (Hinterests _ Hi) as [_ Htrim].
  split; [exact Hi|]. split; [vm_compute; reflexivity|].
  apply Forall_cons in Htrim as [_ Htrim]. apply Forall_inv in Htrim.
  exact Htrim.
Defined.
